(** * crash-monitor: a shallow embedding of [monitor.py]

    The script fetches three market indices, decides a two-state
    crash / no-crash condition, keeps the previous decision in [state.json]
    and posts an alert to a webhook.  This file embeds the script function
    by function and proves the properties its description states.

    Modelling conventions.
    - A Python [dict] is an insertion-ordered association list with unique
      keys ([Dict]): [json.dump] writes the keys in that order.
    - A Python [float] is the rational it denotes, or one of the three
      non-finite values ([num]).  Comparison of floats is comparison of
      those rationals, and the three thresholds are exactly representable,
      so the evaluator is modelled exactly.  The arithmetic of the fetcher
      and [round] are binary64 operations: each gives the float nearest to
      the exact result ([fl]).  The sign of a zero, the subnormal numbers
      and the overflow of an operation are outside the model, and so are
      prices that are not finite numbers.
    - A Python [str] is the byte string of its UTF-8 encoding: the strings
      of the model stand for texts.  A [str] with a lone surrogate, which
      has no encoding, is a value of its own ([JLone]).
    - Effects are explicit: a run threads a [store] (the state file and the
      trace of observable events) and ends in a value, an uncaught
      exception or [sys.exit].  What the run reads from outside (the
      environment, the market data service, the clock, the webhook's
      answer) is a field of [world].
    - The functions of the Python runtime that the script calls but does not
      define ([json.load], [json.dump], [str] of a float) are the fields of
      a [runtime] record.  [json.dump] writes chunk by chunk into the file
      that [open] has emptied, so a dump that raises leaves the chunks
      written before the exception.  The properties of the script are
      proved for every runtime; [py] is a model of CPython's functions,
      used where a property is about the file format itself. *)

From Stdlib Require Import List String Ascii ZArith QArith Bool Lia Lqa.
From Stdlib Require Import Qpower Qabs DecimalString.
Import ListNotations.
Set Warnings "-register-all".
Open Scope string_scope.

(** ** Python dictionaries *)

Module Dict.
Section Defs.
Context {V : Type}.

Definition t := list (string * V).

Definition empty : t := [].

(** [d.get(k)] *)
Fixpoint get (k : string) (d : t) : option V :=
  match d with
  | [] => None
  | (k', v) :: d' => if String.eqb k k' then Some v else get k d'
  end.

(** [k in d] *)
Definition mem (k : string) (d : t) : bool :=
  match get k d with Some _ => true | None => false end.

(** [d.get(k, dflt)] *)
Definition get_default (k : string) (dflt : V) (d : t) : V :=
  match get k d with Some v => v | None => dflt end.

(** [d[k] = v]: an existing key keeps its position, a new key goes last. *)
Fixpoint set (k : string) (v : V) (d : t) : t :=
  match d with
  | [] => [(k, v)]
  | (k', v') :: d' =>
      if String.eqb k k' then (k, v) :: d' else (k', v') :: set k v d'
  end.

(** [list(d)]: the keys in insertion order. *)
Definition keys (d : t) : list string := map fst d.
End Defs.
Arguments t : clear implicits.
End Dict.

(** ** Python floats *)

Inductive num : Type :=
| Fin (q : Q)
| PosInf
| NegInf
| NaN.

(** [a <= b] on floats; every comparison with [NaN] is false. *)
Definition num_leb (a b : num) : bool :=
  match a, b with
  | NaN, _ | _, NaN => false
  | NegInf, _ => true
  | _, PosInf => true
  | Fin x, Fin y => Qle_bool x y
  | PosInf, _ => false
  | Fin _, NegInf => false
  end.

(** [a >= b] *)
Definition num_geb (a b : num) : bool := num_leb b a.

(** The order of the floats as a proposition, for stating properties. *)
Definition num_le (a b : num) : Prop :=
  match a, b with
  | Fin x, Fin y => (x <= y)%Q
  | NegInf, (Fin _ | PosInf | NegInf) => True
  | (Fin _ | PosInf), PosInf => True
  | _, _ => False
  end.

Definition num_lt (a b : num) : Prop :=
  match a, b with
  | Fin x, Fin y => (x < y)%Q
  | NegInf, (Fin _ | PosInf) => True
  | Fin _, PosInf => True
  | _, _ => False
  end.

(** [bool(x)] for a float: only zero is false. *)
Definition num_truthy (x : num) : bool :=
  match x with
  | Fin q => negb (Qeq_bool q 0)
  | _ => true
  end.

(** ** JSON values, as [json.load] returns them

    A string of this development is a text: the UTF-8 spelling of a Python
    [str] in which no surrogate stands alone.  [json.load] makes a [str]
    with a lone surrogate of an escape such as \ud800 that has no partner;
    such a [str] has no UTF-8 spelling and cannot be written to the state
    file.  As a value it is [JLone], which holds its spelling with every
    lone surrogate passed through as three bytes; as a key it is kept by
    that spelling, which [has_surrogate] recognises and no text has. *)

Inductive json : Type :=
| JNull
| JBool (b : bool)
| JInt (n : Z)
| JFloat (x : num)
| JStr (s : string)
| JArr (items : list json)
| JObj (fields : list (string * json))
| JLone (s : string).

(** The three bytes of a passed-through surrogate start with 237 and go on
    with a byte from 160 to 191. *)
Fixpoint has_surrogate (s : string) : bool :=
  match s with
  | String a (String b _ as s') =>
      ((N_of_ascii a =? 237)%N && (160 <=? N_of_ascii b)%N
       && (N_of_ascii b <=? 191)%N)
      || has_surrogate s'
  | _ => false
  end.

(** Python truthiness ([if not v]). *)
Definition truthy (v : json) : bool :=
  match v with
  | JNull => false
  | JBool b => b
  | JInt n => negb (n =? 0)%Z
  | JFloat x => num_truthy x
  | JStr s => negb (s =? "")
  | JArr items => match items with [] => false | _ => true end
  | JObj fields => match fields with [] => false | _ => true end
  | JLone _ => true
  end.

(** A record of nulls, booleans and texts under text keys. *)
Definition flat_record (v : json) : bool :=
  match v with
  | JObj fields =>
      forallb (fun kv => negb (has_surrogate (fst kv))
                         && match snd kv with
                            | JNull | JBool _ | JStr _ => true
                            | _ => false
                            end) fields
  | _ => false
  end.

(** ** The Python runtime the script relies on *)

Record runtime : Type := {
  (** [json.loads]: [None] when it raises *)
  json_loads : string -> option json;
  (** [json.dumps(v, ensure_ascii=False, indent=2)] *)
  json_dumps : json -> string;
  (** [json.dump(v, f, ensure_ascii=False, indent=2)] into the file [f]
      just opened for writing: [None] when it returns, and then the file
      holds [json_dumps v]; when it raises, the text that is in the file
      once the [with] block is left *)
  json_dump_raises : json -> option string;
  (** [str(x)] of a float, as an f-string interpolates it *)
  str_float : num -> string
}.

(** ** Observable events, exceptions and the effect monad *)

(** The lines the script prints, by kind; interpolated values other than
    the ones listed are not modelled. *)
Inductive console : Type :=
| MsgStart
| MsgNoWebhook
| MsgFetching
| MsgFetchEmpty (symbol : string)
| MsgFetchError (symbol : string)
| MsgNoData
| MsgDataHeader
| MsgDataLine (name : string)
| MsgMissingData
| MsgStateUnreadable
| MsgStateUnwritable
| MsgSlackSent
| MsgSlackStatus (status : Z)
| MsgSlackError
| MsgFirstDetection
| MsgContinuing
| MsgNormal
| MsgRecovered
| MsgDone.

Inductive event : Type :=
| Stdout (m : console)
| Stderr (m : console)
| YfHistory (symbol : string)           (* [ticker.history]: a request to the data service *)
| HttpPost (url : string) (body : json) (* [requests.post] *)
| FileWrite (content : string).         (* [state.json] overwritten *)

Inductive exn : Type :=
| KeyError (key : string)
| TypeError
| AttributeError.

(** The state file and the events so far.  A file that exists but cannot
    be read or decoded is not distinguished from one whose text
    [json.load] rejects: both take the [except] branch of [load_state]. *)
Record store : Type := mkStore {
  file : option string;   (* the content of [state.json], [None] if absent *)
  trace : list event      (* oldest event first *)
}.

Inductive outcome (A : Type) : Type :=
| Ret (a : A)
| Raise (e : exn)
| SysExit (code : Z).
Arguments Ret {A} a.
Arguments Raise {A} e.
Arguments SysExit {A} code.

Definition M (A : Type) : Type := store -> outcome A * store.

Definition ret {A} (a : A) : M A := fun s => (Ret a, s).

Definition bind {A B} (m : M A) (k : A -> M B) : M B :=
  fun s =>
    match m s with
    | (Ret a, s') => k a s'
    | (Raise e, s') => (Raise e, s')
    | (SysExit c, s') => (SysExit c, s')
    end.

Definition raise {A} (e : exn) : M A := fun s => (Raise e, s).

Definition sys_exit {A} (code : Z) : M A := fun s => (SysExit code, s).

Definition emit (e : event) : M unit :=
  fun s => (Ret tt, mkStore (file s) (trace s ++ [e])).

Definition read_file : M (option string) := fun s => (Ret (file s), s).

Definition write_file (content : string) : M unit :=
  fun s => (Ret tt, mkStore (Some content) (trace s ++ [FileWrite content])).

Notation "x <- m ;; k" := (bind m (fun x => k))
  (at level 61, m at next level, right associativity).
Notation "m ;; k" := (bind m (fun _ => k))
  (at level 61, right associativity).

Definition print (m : console) : M unit := emit (Stdout m).
Definition eprint (m : console) : M unit := emit (Stderr m).

(** [d[k]] *)
Definition subscript {V} (d : Dict.t V) (k : string) : M V :=
  match Dict.get k d with
  | Some v => ret v
  | None => raise (KeyError k)
  end.

(** ** Market data *)

(** A value of an instrument's dictionary: the symbol or a number. *)
Inductive mval : Type :=
| MStr (s : string)
| MNum (x : num).

Definition snapshot := Dict.t mval.
Definition market_data := Dict.t snapshot.

Definition SYMBOLS : Dict.t string :=
  [("nasdaq", "^NDX"); ("sp500", "^GSPC"); ("vix", "^VIX")].

Definition CRASH_THRESHOLD_MAJOR : num := Fin (-20.0).
Definition CRASH_THRESHOLD_MINOR : num := Fin (-15.0).
Definition VIX_THRESHOLD : num := Fin 30.0.
Definition LOOKBACK_DAYS : nat := 252.
(** The one file the script reads and writes; [file] of the store is its
    content. *)
Definition STATE_FILE : string := "state.json".

(** [a <= b] and [a >= b] where [b] is a float: a string on the left is a
    [TypeError]. *)
Definition py_le (a : mval) (b : num) : M bool :=
  match a with
  | MNum x => ret (num_leb x b)
  | MStr _ => raise TypeError
  end.

Definition py_ge (a : mval) (b : num) : M bool :=
  match a with
  | MNum x => ret (num_geb x b)
  | MStr _ => raise TypeError
  end.

(** ** Float arithmetic of the fetcher

    The prices come out of a pandas series, so they are NumPy floats:
    binary64 numbers, here the rationals they are.  An operation gives the
    binary64 number nearest to the exact result, a tie going to the even
    mantissa, and a division by zero gives an infinity or [NaN] rather than
    an exception.  The sign of a zero, the subnormal numbers and the
    overflow of a result to an infinity are not modelled: [fl] rounds to 53
    bits whatever the exponent. *)

(** The integer nearest to [q], a tie going to the even one. *)
Definition round_half_even (q : Q) : Z :=
  let n := Qnum q in
  let d := Zpos (Qden q) in
  let f := (n / d)%Z in
  match (2 * (n mod d) ?= d)%Z with
  | Lt => f
  | Gt => (f + 1)%Z
  | Eq => if Z.even f then f else (f + 1)%Z
  end.

(** [2 ^ e] *)
Definition pow2 (e : Z) : Q := Qpower 2 e.

(** The exponent of a positive number: the [e] with
    [2 ^ e <= q < 2 ^ (e + 1)]. *)
Definition ilog2 (q : Q) : Z :=
  let e := (Z.log2 (Qnum q) - Z.log2 (Zpos (Qden q)))%Z in
  if Qle_bool (pow2 e) q then e else (e - 1)%Z.

(** The binary64 number nearest to [q], a tie going to the even mantissa:
    the mantissa has 53 bits.  The result is a reduced fraction. *)
Definition fl (q : Q) : Q :=
  match Qnum q with
  | Z0 => 0
  | Zpos _ =>
      let e := ilog2 q in
      Qred (inject_Z (round_half_even (q * pow2 (52 - e))) * pow2 (e - 52))
  | Zneg _ =>
      let e := ilog2 (- q) in
      Qred (- (inject_Z (round_half_even (- q * pow2 (52 - e)))
               * pow2 (e - 52)))
  end.

Definition num_sub (a b : num) : num :=
  match a, b with
  | NaN, _ | _, NaN => NaN
  | Fin x, Fin y => Fin (fl (x - y))
  | PosInf, PosInf | NegInf, NegInf => NaN
  | PosInf, _ => PosInf
  | NegInf, _ => NegInf
  | Fin _, PosInf => NegInf
  | Fin _, NegInf => PosInf
  end.

(** The infinity of the sign of [x], [NaN] for zero. *)
Definition signed_inf (x : Q) : num :=
  match (x ?= 0)%Q with
  | Gt => PosInf
  | Lt => NegInf
  | Eq => NaN
  end.

Definition num_mul (a b : num) : num :=
  match a, b with
  | NaN, _ | _, NaN => NaN
  | Fin x, Fin y => Fin (fl (x * y))
  | PosInf, Fin y | Fin y, PosInf => signed_inf y
  | NegInf, Fin y | Fin y, NegInf => signed_inf (- y)
  | PosInf, PosInf | NegInf, NegInf => PosInf
  | PosInf, NegInf | NegInf, PosInf => NegInf
  end.

Definition num_div (a b : num) : num :=
  match a, b with
  | NaN, _ | _, NaN => NaN
  | Fin x, Fin y => if Qeq_bool y 0 then signed_inf x else Fin (fl (x / y))
  | Fin _, (PosInf | NegInf) => Fin 0
  | PosInf, Fin y => if Qle_bool 0 y then PosInf else NegInf
  | NegInf, Fin y => if Qle_bool 0 y then NegInf else PosInf
  | (PosInf | NegInf), (PosInf | NegInf) => NaN
  end.

(** [round(x, ndigits)] of a NumPy float: NumPy multiplies by the power of
    ten, takes the nearest integer, a tie going to the even one, and
    divides by the power of ten, each in binary64. *)
Definition py_round (x : num) (ndigits : nat) : num :=
  match x with
  | Fin q =>
      let scale := inject_Z (10 ^ Z.of_nat ndigits) in
      Fin (fl (inject_Z (round_half_even (fl (q * scale))) / scale))
  | _ => x
  end.

(** [series.max()] of a non-empty series. *)
Definition series_max (xs : list Q) : Q :=
  match xs with
  | [] => 0
  | x :: xs' => fold_left (fun m y => if Qle_bool m y then y else m) xs' x
  end.

(** [series.iloc[-n:]] *)
Definition iloc_last {A} (n : nat) (xs : list A) : list A :=
  skipn (List.length xs - n) xs.

(** ** What a run reads from outside *)

(** What the [try] block of the fetcher meets for a symbol: an exception,
    or the daily rows (High, Close) of [ticker.history(...)], oldest first;
    no row means [hist.empty].  The prices are finite binary64 numbers. *)
Inductive history : Type :=
| HistoryRaises
| Rows (rows : list (Q * Q)).

(** [requests.post(...)]: a response with a status code, or an exception. *)
Inductive post_result : Type :=
| Responds (status : Z)
| PostRaises.

Record world : Type := {
  environ : Dict.t string;      (* [os.environ] *)
  yfinance : string -> history; (* the data service, by symbol *)
  now : string;                 (* [datetime.now().isoformat()] *)
  writable : bool;              (* whether [open(STATE_FILE, 'w')] succeeds;
                                   the file system then takes every write *)
  webhook : post_result
}.

Definition nl : string := String "010"%char EmptyString.

Section Script.
Context (rt : runtime).

(** ** The crash evaluator *)

Definition trigger_major : string :=
  "NASDAQ100 が 52週高値比 " ++ str_float rt CRASH_THRESHOLD_MAJOR
    ++ "% を超える下落に突入しました。".

Definition trigger_minor : string :=
  "NASDAQ100 が " ++ str_float rt CRASH_THRESHOLD_MINOR
    ++ "% 下落、かつ VIX指数が " ++ str_float rt VIX_THRESHOLD
    ++ " を超えました。".

Definition check_crash_condition (data : market_data)
  : M (bool * option string) :=
  if negb (Dict.mem "nasdaq" data) || negb (Dict.mem "vix" data) then
    eprint MsgMissingData ;;
    ret (false, None)
  else
    nasdaq <- subscript data "nasdaq" ;;
    nasdaq_drawdown <- subscript nasdaq "drawdown" ;;
    vix <- subscript data "vix" ;;
    vix_value <- subscript vix "value" ;;
    major <- py_le nasdaq_drawdown CRASH_THRESHOLD_MAJOR ;;
    if major then ret (true, Some trigger_major)
    else
      minor <- py_le nasdaq_drawdown CRASH_THRESHOLD_MINOR ;;
      fear <- (if minor then py_ge vix_value VIX_THRESHOLD else ret false) ;;
      if fear then ret (true, Some trigger_minor)
      else ret (false, None).

(** ** The market data fetcher *)

(** The local variables of the loop body, as functions of the rows of
    [hist]. *)
Definition current_price (rows : list (Q * Q)) : num :=
  Fin (snd (last rows (0, 0))).

Definition high_52w (rows : list (Q * Q)) : num :=
  if (LOOKBACK_DAYS <=? List.length rows)%nat
  then Fin (series_max (map fst (iloc_last LOOKBACK_DAYS rows)))
  else Fin (series_max (map fst rows)).

Definition drawdown (rows : list (Q * Q)) : num :=
  num_mul (num_div (num_sub (current_price rows) (high_52w rows))
                   (high_52w rows))
          (Fin 100).

(** The body of the loop of [get_market_data] for one symbol. *)
Definition fetch (w : world) (result : market_data) (name symbol : string)
  : M market_data :=
  emit (YfHistory symbol) ;;
  match yfinance w symbol with
  | HistoryRaises =>
      eprint (MsgFetchError symbol) ;;
      ret result
  | Rows [] =>
      eprint (MsgFetchEmpty symbol) ;;
      ret result
  | Rows rows =>
      if name =? "vix" then
        ret (Dict.set name
               [("symbol", MStr symbol);
                ("current", MNum (py_round (current_price rows) 2));
                ("value", MNum (py_round (current_price rows) 2))]
               result)
      else
        ret (Dict.set name
               [("symbol", MStr symbol);
                ("current", MNum (py_round (current_price rows) 2));
                ("high_52w", MNum (py_round (high_52w rows) 2));
                ("drawdown", MNum (py_round (drawdown rows) 2))]
               result)
  end.

Fixpoint fetch_all (w : world) (symbols : list (string * string))
  (result : market_data) : M market_data :=
  match symbols with
  | [] => ret result
  | (name, symbol) :: rest =>
      result' <- fetch w result name symbol ;;
      fetch_all w rest result'
  end.

Definition get_market_data (w : world) : M market_data :=
  fetch_all w SYMBOLS Dict.empty.

(** ** The state store *)

Definition default_state : json :=
  JObj [("is_crash", JBool false);
        ("first_detected", JNull);
        ("last_checked", JNull)].

Definition load_state : M json :=
  content <- read_file ;;
  match content with
  | None => ret default_state
  | Some text =>
      match json_loads rt text with
      | Some state => ret state
      | None =>
          eprint MsgStateUnreadable ;;
          ret default_state
      end
  end.

(** [json.dump(state, f, ensure_ascii=False, indent=2)] on the file just
    opened, which [open] has emptied: the text in the file when the [with]
    block is left, and whether [json.dump] returned.  A record of nulls,
    booleans and texts under text keys is written whole by every runtime;
    for any other value the runtime says whether the dump raises. *)
Definition json_dump (state : json) : string * bool :=
  if flat_record state then (json_dumps rt state, true)
  else
    match json_dump_raises rt state with
    | None => (json_dumps rt state, true)
    | Some written => (written, false)
    end.

(** Either [open] fails and the file is left as it was, or the file is
    emptied and then holds what [json.dump] wrote: the whole text, or the
    part written before it raised.  Both failures print the same line. *)
Definition save_state (w : world) (state : json) : M unit :=
  if writable w then
    let (text, returned) := json_dump state in
    write_file text ;;
    if returned then ret tt else eprint MsgStateUnwritable
  else eprint MsgStateUnwritable.

(** ** The notifier *)

Definition payload (message : string) : json :=
  JObj [("text", JStr message);
        ("unfurl_links", JBool false);
        ("unfurl_media", JBool false)].

Definition send_slack_notification (w : world) (message webhook_url : string)
  : M unit :=
  emit (HttpPost webhook_url (payload message)) ;;
  match webhook w with
  | Responds status =>
      if (status =? 200)%Z then print MsgSlackSent
      else eprint (MsgSlackStatus status)
  | PostRaises => eprint MsgSlackError
  end.

(** [{d.get(k, 'N/A')}] inside an f-string. *)
Definition show (d : snapshot) (k : string) : string :=
  match Dict.get k d with
  | Some (MNum x) => str_float rt x
  | Some (MStr s) => s
  | None => "N/A"
  end.

(** [{trigger}] inside an f-string. *)
Definition show_trigger (trigger : option string) : string :=
  match trigger with
  | Some t => t
  | None => "None"
  end.

Definition format_initial_alert (data : market_data) (trigger : option string)
  : string :=
  let nasdaq := Dict.get_default "nasdaq" [] data in
  let sp500 := Dict.get_default "sp500" [] data in
  let vix := Dict.get_default "vix" [] data in
  "【米国株式市場・暴落監視レポート】" ++ nl ++
  nl ++
  "■ 市場状態" ++ nl ++
  "💥 投入検討" ++ nl ++
  nl ++
  "■ 初回検知トリガー" ++ nl ++
  show_trigger trigger ++ nl ++
  nl ++
  "■ 市場データ" ++ nl ++
  "NASDAQ100: " ++ show nasdaq "current"
    ++ " (" ++ show nasdaq "drawdown" ++ "%)" ++ nl ++
  "S&P500: " ++ show sp500 "current"
    ++ " (" ++ show sp500 "drawdown" ++ "%)" ++ nl ++
  "VIX指数: " ++ show vix "value" ++ nl ++
  nl ++
  "■ 補足" ++ nl ++
  "価格下落と市場心理の悪化が同時に発生しています。".

Definition format_continuation_alert (data : market_data) : string :=
  let nasdaq := Dict.get_default "nasdaq" [] data in
  let sp500 := Dict.get_default "sp500" [] data in
  let vix := Dict.get_default "vix" [] data in
  "【米国株式市場・暴落監視レポート】" ++ nl ++
  nl ++
  "■ 市場状態" ++ nl ++
  "⚠️ 投入検討（継続中）" ++ nl ++
  nl ++
  "NASDAQ100 " ++ show nasdaq "drawdown"
    ++ "% / S&P500 " ++ show sp500 "drawdown"
    ++ "% / VIX " ++ show vix "value".

(** ** The run *)

(** [prev_state.get(k, dflt)]: only a dictionary has [get]. *)
Definition py_get (v : json) (k : string) (dflt : json) : M json :=
  match v with
  | JObj d => ret (Dict.get_default k dflt d)
  | _ => raise AttributeError
  end.

(** [new = prev_state.copy(); new[k] = x] *)
Definition copy_with (v : json) (k : string) (x : json) : M json :=
  match v with
  | JObj d => ret (JObj (Dict.set k x d))
  | _ => raise AttributeError
  end.

Fixpoint print_data (data : market_data) : M unit :=
  match data with
  | [] => ret tt
  | (name, _) :: rest => print (MsgDataLine name) ;; print_data rest
  end.

(** The state machine of [main], from [if is_crash:] to the last
    [save_state]. *)
Definition transition (w : world) (webhook_url : string) (data : market_data)
  (is_crash : bool) (trigger : option string)
  (prev_state prev_is_crash : json) : M unit :=
  let current_time := now w in
  if is_crash then
    if negb (truthy prev_is_crash) then
      print MsgFirstDetection ;;
      let message := format_initial_alert data trigger in
      send_slack_notification w message webhook_url ;;
      let new_state :=
        JObj [("is_crash", JBool true);
              ("first_detected", JStr current_time);
              ("last_checked", JStr current_time)] in
      save_state w new_state
    else
      print MsgContinuing ;;
      let message := format_continuation_alert data in
      send_slack_notification w message webhook_url ;;
      new_state <- copy_with prev_state "last_checked" (JStr current_time) ;;
      save_state w new_state
  else
    print MsgNormal ;;
    (if truthy prev_is_crash then print MsgRecovered else ret tt) ;;
    let new_state :=
      JObj [("is_crash", JBool false);
            ("first_detected", JNull);
            ("last_checked", JStr current_time)] in
    save_state w new_state.

(** What [main] does before the state machine: configuration, market
    data, verdict and previous state.  It yields the local variables
    [webhook_url], [data], [is_crash], [trigger], [prev_state] and
    [prev_is_crash]. *)
Definition prepare (w : world)
  : M (string * market_data * bool * option string * json * json) :=
  print MsgStart ;;
  webhook_url <-
    match Dict.get "SLACK_WEBHOOK_URL" (environ w) with
    | Some url =>
        if url =? "" then eprint MsgNoWebhook ;; sys_exit 1 else ret url
    | None => eprint MsgNoWebhook ;; sys_exit 1
    end ;;
  print MsgFetching ;;
  data <- get_market_data w ;;
  match data with
  | [] => eprint MsgNoData ;; sys_exit 1
  | _ => ret tt
  end ;;
  print MsgDataHeader ;;
  print_data data ;;
  verdict <- check_crash_condition data ;;
  let '(is_crash, trigger) := verdict in
  prev_state <- load_state ;;
  prev_is_crash <- py_get prev_state "is_crash" (JBool false) ;;
  ret (webhook_url, data, is_crash, trigger, prev_state, prev_is_crash).

Definition main (w : world) : M unit :=
  prepared <- prepare w ;;
  let '(webhook_url, data, is_crash, trigger, prev_state, prev_is_crash) :=
    prepared in
  transition w webhook_url data is_crash trigger prev_state prev_is_crash ;;
  print MsgDone.

End Script.

(* ================================================================== *)
(** * A model of the Python runtime

    [py] models the three runtime functions at the level of the text they
    read and write.  Integers, strings, booleans, [null], arrays and objects
    are modelled exactly.  A float is written as the shortest decimal that
    reads back as the same float, up to 17 decimals, and a float literal is
    read as the float nearest to the decimal it spells, an infinity beyond
    the range of binary64; the sign of zero and the exponent form in which
    Python writes very large and very small floats are not modelled. *)

Notation "'let?' p := m 'in' k" :=
  (match m with Some p => k | None => None end)
  (at level 10, p pattern, m at level 100, k at level 200).

Module Py.

Definition dquote : ascii := "034"%char.

(** *** [str] and [repr] of a float *)

Definition string_of_Z (z : Z) : string := NilZero.string_of_int (Z.to_int z).

(** The least number of decimals, from [k] on and for [fuel] tries, with
    which the nearest decimal reads back as the same float. *)
Fixpoint decimals_needed (fuel k : nat) (q : Q) : nat :=
  match fuel with
  | O => k
  | S fuel' =>
      let scale := inject_Z (10 ^ Z.of_nat k) in
      if Qeq_bool (fl (inject_Z (round_half_even (q * scale)) / scale))
           (fl q)
      then k
      else decimals_needed fuel' (S k) q
  end.

Fixpoint zeros (n : nat) : string :=
  match n with
  | O => ""
  | S n' => String "0" (zeros n')
  end.

(** [scaled / 10 ^ k] in decimal with [k] decimals, [.0] when [k] is 0. *)
Definition string_of_decimal (scaled : Z) (k : nat) : string :=
  let a := Z.abs scaled in
  let unit := (10 ^ Z.of_nat k)%Z in
  let frac := string_of_Z (a mod unit) in
  (if (scaled <? 0)%Z then "-" else "")
    ++ string_of_Z (a / unit) ++ "."
    ++ (match k with
        | O => "0"
        | S _ => zeros (k - String.length frac) ++ frac
        end).

Definition str_float (x : num) : string :=
  match x with
  | Fin q =>
      let k := decimals_needed 17 0 q in
      string_of_decimal
        (round_half_even (q * ((10 ^ Z.of_nat k)%Z # 1))) k
  | PosInf => "inf"
  | NegInf => "-inf"
  | NaN => "nan"
  end.

(** *** [json.dumps(v, ensure_ascii=False, indent=2)] *)

Definition hex_digit (n : N) : ascii :=
  if (n <? 10)%N then ascii_of_N (48 + n) else ascii_of_N (87 + n).

(** One character inside a JSON string: the quote, the backslash and the
    control characters are escaped, every other byte is kept. *)
Definition escape_char (c : ascii) : string :=
  if (c =? dquote)%char then String "\" (String dquote "")
  else if (c =? "\")%char then "\\"
  else if (c =? "008")%char then "\b"
  else if (c =? "012")%char then "\f"
  else if (c =? "010")%char then "\n"
  else if (c =? "013")%char then "\r"
  else if (c =? "009")%char then "\t"
  else if (N_of_ascii c <? 32)%N then
    "\u00" ++ String (hex_digit (N_of_ascii c / 16))
                (String (hex_digit (N_of_ascii c mod 16)) "")
  else String c "".

Fixpoint escape (s : string) : string :=
  match s with
  | EmptyString => ""
  | String c s' => escape_char c ++ escape s'
  end.

Definition encode_basestring (s : string) : string :=
  String dquote (escape s ++ String dquote "").

Definition floatstr (x : num) : string :=
  match x with
  | Fin _ => str_float x
  | PosInf => "Infinity"
  | NegInf => "-Infinity"
  | NaN => "NaN"
  end.

Fixpoint spaces (n : nat) : string :=
  match n with
  | O => ""
  | S n' => String " " (spaces n')
  end.

(** A line break followed by the indentation of nesting depth [level]. *)
Definition newline_indent (level : nat) : string := nl ++ spaces (2 * level).

Fixpoint join (sep : string) (parts : list string) : string :=
  match parts with
  | [] => ""
  | [p] => p
  | p :: rest => p ++ sep ++ join sep rest
  end.

Fixpoint encode (level : nat) (v : json) : string :=
  match v with
  | JNull => "null"
  | JBool true => "true"
  | JBool false => "false"
  | JInt n => string_of_Z n
  | JFloat x => floatstr x
  | JStr s => encode_basestring s
  | JArr [] => "[]"
  | JArr items =>
      "[" ++ newline_indent (S level)
        ++ join ("," ++ newline_indent (S level))
                (map (encode (S level)) items)
        ++ newline_indent level ++ "]"
  | JObj [] => "{}"
  | JObj fields =>
      "{" ++ newline_indent (S level)
        ++ join ("," ++ newline_indent (S level))
                (map (fun kv => encode_basestring (fst kv) ++ ": "
                                  ++ encode (S level) (snd kv)) fields)
        ++ newline_indent level ++ "}"
  | JLone s => encode_basestring s
  end.

Definition dumps (v : json) : string := encode 0 v.

(** *** [json.dump] into a UTF-8 file

    [json.dump] writes the chunks that [iterencode] yields one after the
    other.  The file encodes a chunk when it is written and raises
    [UnicodeEncodeError] on a chunk with a lone surrogate, of which nothing
    is written then; the chunks before it are in the file when it is
    closed.  A chunk goes with whether it can be encoded.  The nesting
    limit of the interpreter is not modelled. *)

(** The one chunk of a value that is neither a list nor a dictionary. *)
Definition scalar_chunk (v : json) : option (bool * string) :=
  match v with
  | JNull => Some (true, "null")
  | JBool true => Some (true, "true")
  | JBool false => Some (true, "false")
  | JInt n => Some (true, string_of_Z n)
  | JFloat x => Some (true, floatstr x)
  | JStr s => Some (true, encode_basestring s)
  | JLone s => Some (false, encode_basestring s)
  | JArr _ | JObj _ => None
  end.

(** [_iterencode]: an item of a list comes in one chunk with the bracket
    or the separator before it, unless it is a list or a dictionary; a key
    and a value of a dictionary come in chunks of their own. *)
Fixpoint chunks (level : nat) (v : json) : list (bool * string) :=
  match scalar_chunk v with
  | Some chunk => [chunk]
  | None =>
      match v with
      | JArr items =>
          match items with
          | [] => [(true, "[]")]
          | _ :: _ =>
              app
                ((fix list_chunks (buf : string) (items : list json) :=
                    match items with
                    | [] => []
                    | item :: rest =>
                        app
                          (match scalar_chunk item with
                           | Some (ok, text) => [(ok, buf ++ text)]
                           | None => (true, buf) :: chunks (S level) item
                           end)
                          (list_chunks ("," ++ newline_indent (S level))
                             rest)
                    end) ("[" ++ newline_indent (S level)) items)
                [(true, newline_indent level); (true, "]")]
          end
      | JObj fields =>
          match fields with
          | [] => [(true, "{}")]
          | _ :: _ =>
              (true, "{") :: (true, newline_indent (S level))
              :: app
                   ((fix dict_chunks (first : bool)
                       (fields : list (string * json)) :=
                       match fields with
                       | [] => []
                       | (key, value) :: rest =>
                           app
                             (if first then []
                              else [(true, "," ++ newline_indent (S level))])
                             ((negb (has_surrogate key),
                               encode_basestring key)
                              :: (true, ": ")
                              :: app (chunks (S level) value)
                                   (dict_chunks false rest))
                       end) true fields)
                   [(true, newline_indent level); (true, "}")]
          end
      | _ => []
      end
  end.

(** The text of the chunks before the first that cannot be encoded. *)
Fixpoint written (parts : list (bool * string)) : string :=
  match parts with
  | (true, text) :: rest => text ++ written rest
  | _ => ""
  end.

Definition dump_raises (v : json) : option string :=
  if forallb fst (chunks 0 v) then None else Some (written (chunks 0 v)).

(** *** [json.loads] *)

Definition is_ws (c : ascii) : bool :=
  (c =? " ")%char || (c =? "009")%char || (c =? "010")%char
  || (c =? "013")%char.

Fixpoint skip_ws (s : string) : string :=
  match s with
  | String c s' => if is_ws c then skip_ws s' else s
  | EmptyString => s
  end.

(** [s] without its prefix [p], if it has it. *)
Fixpoint strip_prefix (p s : string) : option string :=
  match p, s with
  | EmptyString, _ => Some s
  | String a p', String b s' =>
      if (a =? b)%char then strip_prefix p' s' else None
  | String _ _, EmptyString => None
  end.

Definition hex_value (c : ascii) : option N :=
  let n := N_of_ascii c in
  if (48 <=? n)%N && (n <=? 57)%N then Some (n - 48)%N
  else if (97 <=? n)%N && (n <=? 102)%N then Some (n - 87)%N
  else if (65 <=? n)%N && (n <=? 70)%N then Some (n - 55)%N
  else None.

Definition hex4 (a b c d : ascii) : option N :=
  let? x := hex_value a in
  let? y := hex_value b in
  let? z := hex_value c in
  let? t := hex_value d in
  Some (((x * 16 + y) * 16 + z) * 16 + t)%N.

(** The UTF-8 bytes of a code point. *)
Definition utf8 (cp : N) : string :=
  if (cp <? 128)%N then String (ascii_of_N cp) ""
  else if (cp <? 2048)%N then
    String (ascii_of_N (192 + cp / 64))
      (String (ascii_of_N (128 + cp mod 64)) "")
  else if (cp <? 65536)%N then
    String (ascii_of_N (224 + cp / 4096))
      (String (ascii_of_N (128 + (cp / 64) mod 64))
         (String (ascii_of_N (128 + cp mod 64)) ""))
  else
    String (ascii_of_N (240 + cp / 262144))
      (String (ascii_of_N (128 + (cp / 4096) mod 64))
         (String (ascii_of_N (128 + (cp / 64) mod 64))
            (String (ascii_of_N (128 + cp mod 64)) ""))).

(** The character a one-letter escape stands for. *)
Definition unescape (e : ascii) : option ascii :=
  if (e =? dquote)%char then Some dquote
  else if (e =? "\")%char then Some "\"%char
  else if (e =? "/")%char then Some "/"%char
  else if (e =? "b")%char then Some "008"%char
  else if (e =? "f")%char then Some "012"%char
  else if (e =? "n")%char then Some "010"%char
  else if (e =? "r")%char then Some "013"%char
  else if (e =? "t")%char then Some "009"%char
  else None.

Definition prepend (p : string) (r : option (string * string))
  : option (string * string) :=
  let? (str, rest) := r in Some (p ++ str, rest).

(** The low half of a surrogate pair at the head of [s], and what follows. *)
Definition low_surrogate (s : string) : option N :=
  match s with
  | String b (String u (String a (String b' (String c (String d _))))) =>
      if (b =? "\")%char && (u =? "u")%char then
        let? lo := hex4 a b' c d in
        if (56320 <=? lo)%N && (lo <=? 57343)%N then Some lo else None
      else None
  | _ => None
  end.

(** [scanstring]: the text after an opening quote, up to the closing one,
    unescaped; and what follows the closing quote. *)
Fixpoint scanstring (s : string) : option (string * string) :=
  match s with
  | EmptyString => None
  | String c s' =>
      if (c =? dquote)%char then Some ("", s')
      else if (c =? "\")%char then
        match s' with
        | EmptyString => None
        | String e s'' =>
            match unescape e with
            | Some ch => prepend (String ch "") (scanstring s'')
            | None =>
                if (e =? "u")%char then
                  match s'' with
                  | String a (String b (String c' (String d rest))) =>
                      let? cp := hex4 a b c' d in
                      if (55296 <=? cp)%N && (cp <=? 56319)%N then
                        match low_surrogate rest, rest with
                        | Some lo,
                          String _ (String _ (String _ (String _
                            (String _ (String _ rest'))))) =>
                            prepend
                              (utf8 (65536 + (cp - 55296) * 1024
                                       + (lo - 56320)))
                              (scanstring rest')
                        | _, _ => prepend (utf8 cp) (scanstring rest)
                        end
                      else prepend (utf8 cp) (scanstring rest)
                  | _ => None
                  end
                else None
            end
        end
      else if (N_of_ascii c <? 32)%N then None
      else prepend (String c "") (scanstring s')
  end.

(** Whether the string whose text after the opening quote is [s] spells
    a surrogate that stays alone: a low half that no high half precedes, or
    a high half that no low half follows.  It follows [scanstring]. *)
Fixpoint lone_escape (s : string) : bool :=
  match s with
  | EmptyString => false
  | String c s' =>
      if (c =? dquote)%char then false
      else if (c =? "\")%char then
        match s' with
        | EmptyString => false
        | String e s'' =>
            match unescape e with
            | Some _ => lone_escape s''
            | None =>
                if (e =? "u")%char then
                  match s'' with
                  | String a (String b (String c' (String d rest))) =>
                      match hex4 a b c' d with
                      | None => false
                      | Some cp =>
                          if (55296 <=? cp)%N && (cp <=? 56319)%N then
                            match low_surrogate rest, rest with
                            | Some _,
                              String _ (String _ (String _ (String _
                                (String _ (String _ rest'))))) =>
                                lone_escape rest'
                            | _, _ => true
                            end
                          else if (56320 <=? cp)%N && (cp <=? 57343)%N
                          then true
                          else lone_escape rest
                      end
                  | _ => false
                  end
                else false
            end
        end
      else lone_escape s'
  end.

Definition is_digit (c : ascii) : bool :=
  (48 <=? N_of_ascii c)%N && (N_of_ascii c <=? 57)%N.

(** The leading digits of [s], and the rest. *)
Fixpoint span_digits (s : string) : string * string :=
  match s with
  | String c s' =>
      if is_digit c then
        let (ds, rest) := span_digits s' in (String c ds, rest)
      else ("", s)
  | EmptyString => ("", "")
  end.

Fixpoint digits_value (acc : N) (ds : string) : N :=
  match ds with
  | EmptyString => acc
  | String c ds' => digits_value (acc * 10 + (N_of_ascii c - 48))%N ds'
  end.

(** [mantissa * 10 ^ exponent] *)
Definition decimal (mantissa exponent : Z) : Q :=
  if (0 <=? exponent)%Z then (mantissa * 10 ^ exponent)%Z # 1
  else mantissa # Z.to_pos (10 ^ (- exponent)).

(** [float] of a decimal: the nearest binary64 number, an infinity from
    [2 ^ 1024] on, and below [2 ^ -1022] the nearest multiple of
    [2 ^ -1074]. *)
Definition float_of_decimal (q : Q) : num :=
  if Qle_bool (pow2 1024) (Qabs (fl q)) then
    if Qle_bool 0 q then PosInf else NegInf
  else if Qle_bool (pow2 (-1022)) (Qabs q) then Fin (fl q)
  else Fin (Qred (inject_Z (round_half_even (q * pow2 1074))
                  * pow2 (-1074))).

(** A number at the head of [s]: an optional minus sign, then a zero or a
    run of digits that does not start with zero, then optionally a point
    with at least one digit, then optionally an exponent of at least one
    digit.  A point or an exponent makes the number a float. *)
Definition match_number (s : string) : option (json * string) :=
  let (negative, s1) :=
    match s with
    | String c r => if (c =? "-")%char then (true, r) else (false, s)
    | EmptyString => (false, s)
    end in
  let? (int_part, s2) :=
    match s1 with
    | String c r =>
        if (c =? "0")%char then Some ("0", r)
        else if is_digit c then Some (span_digits s1)
        else None
    | EmptyString => None
    end in
  let (frac, s3) :=
    match s2 with
    | String c r =>
        if (c =? ".")%char then
          match span_digits r with
          | (EmptyString, _) => ("", s2)
          | (ds, rest) => (ds, rest)
          end
        else ("", s2)
    | EmptyString => ("", s2)
    end in
  let '(exp, s4) :=
    match s3 with
    | String c r =>
        if (c =? "e")%char || (c =? "E")%char then
          let (exp_negative, r') :=
            match r with
            | String sg r0 =>
                if (sg =? "-")%char then (true, r0)
                else if (sg =? "+")%char then (false, r0)
                else (false, r)
            | EmptyString => (false, r)
            end in
          match span_digits r' with
          | (EmptyString, _) => (None, s3)
          | (ds, rest) =>
              let e := Z.of_N (digits_value 0 ds) in
              (Some (if exp_negative then (- e)%Z else e), rest)
          end
        else (None, s3)
    | EmptyString => (None, s3)
    end in
  let sign (z : Z) := if negative then (- z)%Z else z in
  match frac, exp with
  | EmptyString, None =>
      Some (JInt (sign (Z.of_N (digits_value 0 int_part))), s4)
  | _, _ =>
      let mantissa := sign (Z.of_N (digits_value 0 (int_part ++ frac))) in
      let exponent :=
        (match exp with Some e => e | None => 0 end
         - Z.of_nat (String.length frac))%Z in
      Some (JFloat (float_of_decimal (decimal mantissa exponent)), s4)
  end.

(** A constant at the head of [s]. *)
Definition match_constant (s : string) : option (json * string) :=
  match strip_prefix "null" s with
  | Some rest => Some (JNull, rest)
  | None =>
  match strip_prefix "true" s with
  | Some rest => Some (JBool true, rest)
  | None =>
  match strip_prefix "false" s with
  | Some rest => Some (JBool false, rest)
  | None =>
  match strip_prefix "NaN" s with
  | Some rest => Some (JFloat NaN, rest)
  | None =>
  match strip_prefix "Infinity" s with
  | Some rest => Some (JFloat PosInf, rest)
  | None =>
  match strip_prefix "-Infinity" s with
  | Some rest => Some (JFloat NegInf, rest)
  | None => None
  end end end end end end.

(** [scan_once] reads one value at the head of [s]; [parse_members] reads
    the members of an object from the opening quote of a key, and
    [parse_items] the items of an array from the first character of an
    item.  [fuel] bounds the nesting of the three. *)
Fixpoint scan_once (fuel : nat) (s : string) : option (json * string) :=
  match fuel with
  | O => None
  | S fuel' =>
      match s with
      | EmptyString => None
      | String c r =>
          if (c =? dquote)%char then
            let? (str, rest) := scanstring r in
            Some (if lone_escape r then JLone str else JStr str, rest)
          else if (c =? "{")%char then
            match skip_ws r with
            | EmptyString => None
            | String c' r' as members =>
                if (c' =? "}")%char then Some (JObj [], r')
                else parse_members fuel' members Dict.empty
            end
          else if (c =? "[")%char then
            match skip_ws r with
            | EmptyString => None
            | String c' r' as items =>
                if (c' =? "]")%char then Some (JArr [], r')
                else parse_items fuel' items []
            end
          else
            match match_constant s with
            | Some found => Some found
            | None => match_number s
            end
      end
  end

with parse_members (fuel : nat) (s : string) (seen : Dict.t json)
  : option (json * string) :=
  match fuel with
  | O => None
  | S fuel' =>
      match s with
      | EmptyString => None
      | String c r =>
          if (c =? dquote)%char then
            let? (key, r1) := scanstring r in
            match skip_ws r1 with
            | EmptyString => None
            | String c1 r2 =>
                if (c1 =? ":")%char then
                  let? (value, r3) := scan_once fuel' (skip_ws r2) in
                  let seen' := Dict.set key value seen in
                  match skip_ws r3 with
                  | EmptyString => None
                  | String c2 r4 =>
                      if (c2 =? "}")%char then Some (JObj seen', r4)
                      else if (c2 =? ",")%char then
                        parse_members fuel' (skip_ws r4) seen'
                      else None
                  end
                else None
            end
          else None
      end
  end

with parse_items (fuel : nat) (s : string) (seen : list json)
  : option (json * string) :=
  match fuel with
  | O => None
  | S fuel' =>
      let? (value, r1) := scan_once fuel' s in
      let seen' := (seen ++ [value])%list in
      match skip_ws r1 with
      | EmptyString => None
      | String c r2 =>
          if (c =? "]")%char then Some (JArr seen', r2)
          else if (c =? ",")%char then parse_items fuel' (skip_ws r2) seen'
          else None
      end
  end.

(** The whole text is one value between optional white space. *)
Definition loads (s : string) : option json :=
  let? (v, rest) := scan_once (S (String.length s)) (skip_ws s) in
  match skip_ws rest with
  | EmptyString => Some v
  | String _ _ => None
  end.

End Py.

(** The modelled runtime. *)
Definition py : runtime := {|
  json_loads := Py.loads;
  json_dumps := Py.dumps;
  json_dump_raises := Py.dump_raises;
  str_float := Py.str_float
|}.

(** ** Notions used to state the properties *)

(** The keys of a dictionary are pairwise different. *)
Fixpoint distinct (ks : list string) : bool :=
  match ks with
  | [] => true
  | k :: rest => negb (existsb (String.eqb k) rest) && distinct rest
  end.

(** A value without numbers whose objects have pairwise different keys:
    the values for which reading back what was written is proved below. *)
Fixpoint plain (v : json) : bool :=
  match v with
  | JNull | JBool _ | JStr _ => true
  | JInt _ | JFloat _ | JLone _ => false
  | JArr items => forallb plain items
  | JObj fields =>
      distinct (map fst fields) && forallb (fun kv => plain (snd kv)) fields
  end.

(** The nesting budget that reading a value back needs. *)
Fixpoint size (v : json) : nat :=
  match v with
  | JArr items => S (list_sum (map (fun x => S (size x)) items))
  | JObj fields => S (list_sum (map (fun kv => S (size (snd kv))) fields))
  | _ => 1
  end.

(** [s] starts with a character that is neither white space nor a closing
    bracket. *)
Definition starts_value (s : string) : bool :=
  match s with
  | String c _ =>
      negb (Py.is_ws c) && negb (c =? "]")%char && negb (c =? "}")%char
  | EmptyString => false
  end.

(** Reading the text of [v] at any depth, followed by anything, gives [v]
    back and leaves what follows. *)
Definition round_trips (v : json) : Prop :=
  plain v = true ->
  forall level fuel rest,
    (size v <= fuel)%nat ->
    Py.scan_once fuel (Py.encode level v ++ rest) = Some (v, rest).

(** The entries the evaluator reads have the fields it reads, as numbers. *)
Definition well_formed (data : market_data) : Prop :=
  (forall nasdaq, Dict.get "nasdaq" data = Some nasdaq ->
     exists d, Dict.get "drawdown" nasdaq = Some (MNum d))
  /\ (forall vix, Dict.get "vix" data = Some vix ->
        exists v, Dict.get "value" vix = Some (MNum v)).

(** [needle] occurs in [hay]. *)
Definition contains (needle hay : string) : Prop :=
  exists pre post, hay = pre ++ needle ++ post.

(** Sample inputs: the scenarios of the description and a run in which the
    request for the volatility index failed. *)
Definition instrument (symbol : string) (current high drawdown : Q)
  : snapshot :=
  [("symbol", MStr symbol); ("current", MNum (Fin current));
   ("high_52w", MNum (Fin high)); ("drawdown", MNum (Fin drawdown))].

Definition volatility (value : Q) : snapshot :=
  [("symbol", MStr "^VIX"); ("current", MNum (Fin value));
   ("value", MNum (Fin value))].

Definition sample_data (drawdown vix : Q) : market_data :=
  [("nasdaq", instrument "^NDX" 0 0 drawdown);
   ("sp500", instrument "^GSPC" 0 0 drawdown);
   ("vix", volatility vix)].

Definition data_without_vix : market_data :=
  [("nasdaq", instrument "^NDX" 15000 20000 (-25));
   ("sp500", instrument "^GSPC" 4000 5000 (-20))].

Definition fresh : store := mkStore None [].

(** The notifications and the file writes of a trace. *)
Definition is_post (e : event) : bool :=
  match e with HttpPost _ _ => true | _ => false end.

Definition is_write (e : event) : bool :=
  match e with FileWrite _ => true | _ => false end.

Definition is_network (e : event) : bool :=
  match e with HttpPost _ _ | YfHistory _ => true | _ => false end.

Definition posts (tr : list event) : list event := filter is_post tr.
Definition writes (tr : list event) : list event := filter is_write tr.

(** A state record of the documented shape. *)
Definition timestamp (t : option string) : json :=
  match t with Some text => JStr text | None => JNull end.

Definition state_record (is_crash : bool) (first_detected last_checked
  : option string) : json :=
  JObj [("is_crash", JBool is_crash);
        ("first_detected", timestamp first_detected);
        ("last_checked", timestamp last_checked)].

(** The line [send_slack_notification] prints after the request. *)
Definition reply_line (w : world) : event :=
  match webhook w with
  | Responds status =>
      if (status =? 200)%Z then Stdout MsgSlackSent
      else Stderr (MsgSlackStatus status)
  | PostRaises => Stderr MsgSlackError
  end.

(** What [save_state] leaves: the events it adds, and the content of the
    file when it was [before]. *)
Definition save_events (rt : runtime) (w : world) (state : json)
  : list event :=
  if writable w then
    FileWrite (fst (json_dump rt state))
    :: (if snd (json_dump rt state) then [] else [Stderr MsgStateUnwritable])
  else [Stderr MsgStateUnwritable].

Definition save_file (rt : runtime) (w : world) (state : json)
  (before : option string) : option string :=
  if writable w then Some (fst (json_dump rt state)) else before.

(** A computation that leaves the state file alone and neither posts nor
    writes. *)
Definition quiet {A} (m : M A) : Prop :=
  forall s, exists tr,
    snd (m s) = mkStore (file s) (trace s ++ tr)
    /\ posts tr = [] /\ writes tr = [].

(** A data service that answers the two indices with the same two sessions
    and the volatility index with a constant, and a world around it. *)
Definition two_sessions (high close vix : Q) : string -> history :=
  fun symbol =>
    if symbol =? "^VIX" then Rows [(vix, vix)]
    else Rows [(high, high); (high, close)].

Definition sample_world (high close vix : Q) : world := {|
  environ := [("SLACK_WEBHOOK_URL", "https://hooks.example/T0")];
  yfinance := two_sessions high close vix;
  now := "2024-08-05T09:30:00.000000";
  writable := true;
  webhook := Responds 200
|}.

Definition world_without_webhook : world := {|
  environ := [("PATH", "/usr/bin")];
  yfinance := two_sessions 100 90 15;
  now := "2024-08-05T09:30:00.000000";
  writable := true;
  webhook := Responds 200
|}.

(** The text of a state file that holds an object without the timestamps. *)
Definition partial_state_text : string :=
  "{" ++ String Py.dquote "is_crash" ++ String Py.dquote ": true}".

(** A store whose state file holds the given JSON value. *)
Definition stored (v : json) : store := mkStore (Some (Py.dumps v)) [].



(** ** Notions used to state further properties *)

(** The requests to the data service in a trace. *)
Definition is_request (e : event) : bool :=
  match e with YfHistory _ => true | _ => false end.

Definition requests (tr : list event) : list event := filter is_request tr.

(** The data service has at least one row for the symbol. *)
Definition answers (w : world) (symbol : string) : bool :=
  match yfinance w symbol with
  | Rows (_ :: _) => true
  | _ => false
  end.

(** A computation whose result and events do not depend on the store it
    starts from, and which leaves the state file alone. *)
Definition oblivious {A} (m : M A) : Prop :=
  exists o tr, forall s, m s = (o, mkStore (file s) (trace s ++ tr)).

(** What a run in world [w] fetches and what the evaluator says about it,
    read off a run of the two functions on the empty store. *)
Definition fetched (w : world) : market_data :=
  match fst (get_market_data w fresh) with
  | Ret data => data
  | _ => []
  end.

Definition verdict (rt : runtime) (w : world) : bool * option string :=
  match fst (check_crash_condition rt (fetched w) fresh) with
  | Ret v => v
  | _ => (false, None)
  end.

(** [os.environ.get('SLACK_WEBHOOK_URL')], with the empty string standing
    for an unset variable: [main] treats the two alike. *)
Definition webhook_url (w : world) : string :=
  Dict.get_default "SLACK_WEBHOOK_URL" "" (environ w).

(** A world in which a run gets as far as the state machine whatever the
    state file holds as an object: the webhook is configured and at least
    one symbol has data. *)
Definition ready (w : world) : Prop :=
  webhook_url w <> "" /\ fetched w <> [].

(** [w] with another answer of the webhook, and with the state file
    writable or not. *)
Definition with_webhook (w : world) (r : post_result) : world := {|
  environ := environ w;
  yfinance := yfinance w;
  now := now w;
  writable := writable w;
  webhook := r
|}.

Definition with_writable (w : world) (b : bool) : world := {|
  environ := environ w;
  yfinance := yfinance w;
  now := now w;
  writable := b;
  webhook := webhook w
|}.

(** What the loop body of [get_market_data] stores for an instrument whose
    history is [h]: nothing when the request raised or came back empty. *)
Definition entry (name symbol : string) (h : history) : option snapshot :=
  match h with
  | Rows (r :: rows) =>
      Some (if name =? "vix"
            then [("symbol", MStr symbol);
                  ("current", MNum (py_round (current_price (r :: rows)) 2));
                  ("value", MNum (py_round (current_price (r :: rows)) 2))]
            else [("symbol", MStr symbol);
                  ("current", MNum (py_round (current_price (r :: rows)) 2));
                  ("high_52w", MNum (py_round (high_52w (r :: rows)) 2));
                  ("drawdown", MNum (py_round (drawdown (r :: rows)) 2))])
  | _ => None
  end.

(** What a run in a ready world saves when the loaded state is the
    dictionary [d], and the events of its state machine. *)
Definition saved_state (rt : runtime) (w : world) (d : Dict.t json) : json :=
  if fst (verdict rt w) then
    if truthy (Dict.get_default "is_crash" (JBool false) d)
    then JObj (Dict.set "last_checked" (JStr (now w)) d)
    else state_record true (Some (now w)) (Some (now w))
  else state_record false None (Some (now w)).

Definition machine_events (rt : runtime) (w : world) (d : Dict.t json)
  : list event :=
  let was_crash := truthy (Dict.get_default "is_crash" (JBool false) d) in
  ((if fst (verdict rt w) then
      [Stdout (if was_crash then MsgContinuing else MsgFirstDetection);
       HttpPost (webhook_url w)
         (payload
            (if was_crash then format_continuation_alert rt (fetched w)
             else format_initial_alert rt (fetched w) (snd (verdict rt w))));
       reply_line w]
    else
      Stdout MsgNormal :: (if was_crash then [Stdout MsgRecovered] else []))
   ++ save_events rt w (saved_state rt w d) ++ [Stdout MsgDone])%list.

(** *** Consecutive runs and the two-state machine they implement *)

(** The scheduler starts one run after the other: each finds the state file
    the previous one left. *)
Fixpoint runs (rt : runtime) (ws : list world) (s : store) : store :=
  match ws with
  | [] => s
  | w :: rest => runs rt rest (snd (main rt w s))
  end.

(** The fields of a state record. *)
Definition crash_state : Type := (bool * option string * option string)%type.

Definition no_crash : crash_state := (false, None, None).

Definition record_of (st : crash_state) : json :=
  let '(is_crash, first_detected, last_checked) := st in
  state_record is_crash first_detected last_checked.

(** One step of the machine: the state after a run in world [w], and the
    notifications of that run. *)
Definition step (rt : runtime) (w : world) (st : crash_state) : crash_state :=
  let '(was_crash, first_detected, _) := st in
  if fst (verdict rt w) then
    if was_crash then (true, first_detected, Some (now w))
    else (true, Some (now w), Some (now w))
  else (false, None, Some (now w)).

Definition alerts (rt : runtime) (w : world) (st : crash_state)
  : list event :=
  let '(was_crash, _, _) := st in
  if fst (verdict rt w) then
    [HttpPost (webhook_url w)
       (payload
          (if was_crash then format_continuation_alert rt (fetched w)
           else format_initial_alert rt (fetched w) (snd (verdict rt w))))]
  else [].

Fixpoint steps (rt : runtime) (ws : list world) (st : crash_state)
  : crash_state :=
  match ws with
  | [] => st
  | w :: rest => steps rt rest (step rt w st)
  end.

Fixpoint all_alerts (rt : runtime) (ws : list world) (st : crash_state)
  : list event :=
  match ws with
  | [] => []
  | w :: rest => (alerts rt w st ++ all_alerts rt rest (step rt w st))%list
  end.

(** The initial alert after its trigger line: the figures and the
    remark. *)
Definition initial_alert_figures (rt : runtime) (data : market_data)
  : string :=
  let nasdaq := Dict.get_default "nasdaq" [] data in
  let sp500 := Dict.get_default "sp500" [] data in
  let vix := Dict.get_default "vix" [] data in
  nl ++
  "■ 市場データ" ++ nl ++
  "NASDAQ100: " ++ show rt nasdaq "current"
    ++ " (" ++ show rt nasdaq "drawdown" ++ "%)" ++ nl ++
  "S&P500: " ++ show rt sp500 "current"
    ++ " (" ++ show rt sp500 "drawdown" ++ "%)" ++ nl ++
  "VIX指数: " ++ show rt vix "value" ++ nl ++
  nl ++
  "■ 補足" ++ nl ++
  "価格下落と市場心理の悪化が同時に発生しています。".

(** A world in which a run gets to the state machine and can save. *)
Definition operational (w : world) : Prop :=
  ready w /\ writable w = true.

(** A world in which the evaluator triggers. *)
Definition triggered (rt : runtime) (w : world) : Prop :=
  fst (verdict rt w) = true.

(** The two notifications, as a run in world [w] posts them. *)
Definition initial_alert (rt : runtime) (w : world) : event :=
  HttpPost (webhook_url w)
    (payload (format_initial_alert rt (fetched w) (snd (verdict rt w)))).

Definition continuation_alert (rt : runtime) (w : world) : event :=
  HttpPost (webhook_url w)
    (payload (format_continuation_alert rt (fetched w))).

(** The store holds the record [st]: the file is absent and [st] is the
    default, or the file is the text of [st]. *)
Definition holds (s : store) (st : crash_state) : Prop :=
  (file s = None /\ st = no_crash)
  \/ file s = Some (Py.dumps (record_of st)).

(** [w] with another data service. *)
Definition with_service (w : world) (service : string -> history) : world := {|
  environ := environ w;
  yfinance := service;
  now := now w;
  writable := writable w;
  webhook := webhook w
|}.

(** The service of [w], except that the request for [symbol] raises. *)
Definition failing_for (w : world) (symbol : string) : string -> history :=
  fun asked => if asked =? symbol then HistoryRaises else yfinance w asked.

(** Market data whose nasdaq entry lacks the drawdown, and market data
    whose drawdown is a string. *)
Definition data_without_drawdown : market_data :=
  [("nasdaq", [("symbol", MStr "^NDX"); ("current", MNum (Fin 15000))]);
   ("vix", volatility 35)].

Definition data_with_text_drawdown : market_data :=
  [("nasdaq", [("symbol", MStr "^NDX"); ("drawdown", MStr "-25.0")]);
   ("vix", volatility 35)].

(** A state record that says the market is in a crash since an earlier
    run. *)
Definition crash_since (t : string) : json :=
  state_record true (Some t) (Some t).

(** [w] at another time. *)
Definition at_time (w : world) (t : string) : world := {|
  environ := environ w;
  yfinance := yfinance w;
  now := t;
  writable := writable w;
  webhook := webhook w
|}.

(** Further sample inputs. *)
Definition silent_service : string -> history := fun _ => Rows [].

Definition world_without_data : world := {|
  environ := [("SLACK_WEBHOOK_URL", "https://hooks.example/T0")];
  yfinance := silent_service;
  now := "2024-08-05T09:30:00.000000";
  writable := true;
  webhook := Responds 200
|}.

Definition service_without_vix : string -> history :=
  fun symbol =>
    if symbol =? "^VIX" then HistoryRaises
    else Rows [(20000, 20000); (20000, 15000)].

Definition world_without_vix : world := {|
  environ := [("SLACK_WEBHOOK_URL", "https://hooks.example/T0")];
  yfinance := service_without_vix;
  now := "2024-08-05T09:30:00.000000";
  writable := true;
  webhook := Responds 200
|}.

(* ================================================================== *)
(** * Properties of the crash evaluator *)

Lemma num_leb_le (a b : num) : num_leb a b = true <-> num_le a b.
Proof.
  destruct a, b; simpl; try tauto; try (split; [discriminate | tauto]).
  apply Qle_bool_iff.
Qed.

Lemma num_leb_nle (a b : num) : num_leb a b = false <-> ~ num_le a b.
Proof.
  rewrite <- num_leb_le. destruct (num_leb a b); split; congruence.
Qed.

Lemma num_lt_nle (a b : num) : num_lt a b -> ~ num_le b a.
Proof.
  destruct a, b; simpl; try tauto. intros H H'. lra.
Qed.

Lemma num_le_trans (a b c : num) : num_le a b -> num_le b c -> num_le a c.
Proof.
  destruct a, b, c; simpl; try tauto. intros H H'. lra.
Qed.

Lemma major_below_minor :
  num_le CRASH_THRESHOLD_MAJOR CRASH_THRESHOLD_MINOR.
Proof. simpl. lra. Qed.

(** The thresholds as the description writes them. *)
Lemma le_major (d : num) :
  num_le d CRASH_THRESHOLD_MAJOR <-> num_le d (Fin (-20)).
Proof. destruct d; simpl; try tauto. split; intros H; lra. Qed.

Lemma le_minor (d : num) :
  num_le d CRASH_THRESHOLD_MINOR <-> num_le d (Fin (-15)).
Proof. destruct d; simpl; try tauto. split; intros H; lra. Qed.

Lemma ge_vix (v : num) :
  num_le VIX_THRESHOLD v <-> num_le (Fin 30) v.
Proof. destruct v; simpl; try tauto. split; intros H; lra. Qed.

Section Evaluator.
Context (rt : runtime).

(** With both entries present the evaluator is a pure function of the
    drawdown and the volatility value. *)
Lemma check_crash_condition_present
    (data : market_data) (nasdaq vix : snapshot) (d v : num) (s : store) :
  Dict.get "nasdaq" data = Some nasdaq ->
  Dict.get "drawdown" nasdaq = Some (MNum d) ->
  Dict.get "vix" data = Some vix ->
  Dict.get "value" vix = Some (MNum v) ->
  check_crash_condition rt data s =
    (Ret (if num_leb d CRASH_THRESHOLD_MAJOR
          then (true, Some (trigger_major rt))
          else if num_leb d CRASH_THRESHOLD_MINOR
                  && num_leb VIX_THRESHOLD v
               then (true, Some (trigger_minor rt))
               else (false, None)), s).
Proof.
  intros Hn Hd Hv Hx. unfold check_crash_condition, Dict.mem.
  rewrite Hn, Hv. cbn [negb orb]. unfold bind, subscript, ret.
  rewrite Hn. cbn beta iota. rewrite Hd. cbn beta iota.
  rewrite Hv. cbn beta iota. rewrite Hx. cbn beta iota.
  unfold py_le, py_ge, ret, num_geb.
  destruct (num_leb d CRASH_THRESHOLD_MAJOR); [reflexivity|].
  destruct (num_leb d CRASH_THRESHOLD_MINOR); cbn [andb]; [|reflexivity].
  destruct (num_leb VIX_THRESHOLD v); reflexivity.
Qed.

(** C1. On a map with the nasdaq and vix entries the evaluator triggers
    exactly when the drawdown is at most -20, or at most -15 with a vix of
    at least 30: always for a drawdown of at most -20, for a drawdown in
    (-20, -15] exactly when the vix is at least 30, never above -15. *)
Theorem check_crash_condition_triggers_iff
    (data : market_data) (nasdaq vix : snapshot) (d v : num) (s : store) :
  Dict.get "nasdaq" data = Some nasdaq ->
  Dict.get "drawdown" nasdaq = Some (MNum d) ->
  Dict.get "vix" data = Some vix ->
  Dict.get "value" vix = Some (MNum v) ->
  exists triggered description,
    check_crash_condition rt data s = (Ret (triggered, description), s)
    /\ (triggered = true <->
          num_le d (Fin (-20))
          \/ (num_le d (Fin (-15)) /\ num_le (Fin 30) v))
    /\ (num_le d (Fin (-20)) -> triggered = true)
    /\ (num_lt (Fin (-20)) d -> num_le d (Fin (-15)) ->
          (triggered = true <-> num_le (Fin 30) v))
    /\ (num_lt (Fin (-15)) d -> triggered = false).
Proof.
  intros Hn Hd Hv Hx.
  rewrite (check_crash_condition_present data nasdaq vix d v s Hn Hd Hv Hx).
  destruct (num_leb d CRASH_THRESHOLD_MAJOR) eqn:Emajor.
  - apply num_leb_le in Emajor.
    pose proof (num_le_trans _ _ _ Emajor major_below_minor) as Eminor.
    rewrite le_major in Emajor. rewrite le_minor in Eminor.
    exists true, (Some (trigger_major rt)).
    split; [reflexivity|]. split; [tauto|]. split; [tauto|]. split.
    + intros Hlt _. exfalso. exact (num_lt_nle _ _ Hlt Emajor).
    + intros Hlt. exfalso. exact (num_lt_nle _ _ Hlt Eminor).
  - apply num_leb_nle in Emajor. rewrite le_major in Emajor.
    destruct (num_leb d CRASH_THRESHOLD_MINOR) eqn:Eminor; cbn [andb].
    + apply num_leb_le in Eminor. rewrite le_minor in Eminor.
      destruct (num_leb VIX_THRESHOLD v) eqn:Evix.
      * apply num_leb_le in Evix. rewrite ge_vix in Evix.
        exists true, (Some (trigger_minor rt)).
        split; [reflexivity|]. split; [tauto|]. split; [tauto|]. split.
        -- tauto.
        -- intros Hlt. exfalso. exact (num_lt_nle _ _ Hlt Eminor).
      * apply num_leb_nle in Evix. rewrite ge_vix in Evix.
        exists false, None.
        split; [reflexivity|]. split; [|split; [|split]].
        -- split; [discriminate|]. intros [H | [_ H]]; contradiction.
        -- intros H. contradiction.
        -- intros _ _. split; [discriminate | intros H; contradiction].
        -- reflexivity.
    + apply num_leb_nle in Eminor. rewrite le_minor in Eminor.
      exists false, None.
      split; [reflexivity|]. split; [|split; [|split]].
      * split; [discriminate|]. intros [H | [H _]]; contradiction.
      * intros H. contradiction.
      * intros _ H. contradiction.
      * reflexivity.
Qed.

(** C6. A map without the nasdaq entry or without the vix entry gives
    (false, no description): the result does not depend on what the map
    holds, and the only effect is the line on standard error. *)
Theorem check_crash_condition_missing_entry
    (data : market_data) (s : store) :
  Dict.get "nasdaq" data = None \/ Dict.get "vix" data = None ->
  check_crash_condition rt data s =
    (Ret (false, None),
     mkStore (file s) (trace s ++ [Stderr MsgMissingData])).
Proof.
  intros H. unfold check_crash_condition, Dict.mem.
  destruct H as [H | H]; rewrite H; simpl.
  - reflexivity.
  - rewrite orb_true_r. reflexivity.
Qed.

(** C5 (amended). On a map with the vix entry in which the nasdaq drawdown
    is at most -20 the evaluator returns the description of condition 1,
    which contains "52週高値比", whatever the vix value. *)
Theorem check_crash_condition_major_first
    (data : market_data) (nasdaq vix : snapshot) (d v : num) (s : store) :
  Dict.get "nasdaq" data = Some nasdaq ->
  Dict.get "drawdown" nasdaq = Some (MNum d) ->
  Dict.get "vix" data = Some vix ->
  Dict.get "value" vix = Some (MNum v) ->
  num_le d (Fin (-20)) ->
  check_crash_condition rt data s = (Ret (true, Some (trigger_major rt)), s)
  /\ contains "52週高値比" (trigger_major rt).
Proof.
  intros Hn Hd Hv Hx Hle.
  rewrite (check_crash_condition_present data nasdaq vix d v s Hn Hd Hv Hx).
  apply le_major, num_leb_le in Hle. rewrite Hle. split; [reflexivity|].
  exists "NASDAQ100 が ",
    (" " ++ str_float rt CRASH_THRESHOLD_MAJOR
       ++ "% を超える下落に突入しました。").
  reflexivity.
Qed.

End Evaluator.

Lemma check_crash_condition_triggers_iff_witness :
  exists triggered description,
    check_crash_condition py (sample_data (-16) 31) fresh
      = (Ret (triggered, description), fresh)
    /\ (triggered = true <->
          num_le (Fin (-16)) (Fin (-20))
          \/ (num_le (Fin (-16)) (Fin (-15)) /\ num_le (Fin 30) (Fin 31)))
    /\ (num_le (Fin (-16)) (Fin (-20)) -> triggered = true)
    /\ (num_lt (Fin (-20)) (Fin (-16)) -> num_le (Fin (-16)) (Fin (-15)) ->
          (triggered = true <-> num_le (Fin 30) (Fin 31)))
    /\ (num_lt (Fin (-15)) (Fin (-16)) -> triggered = false).
Proof.
  apply (check_crash_condition_triggers_iff py (sample_data (-16) 31)
           (instrument "^NDX" 0 0 (-16)) (volatility 31));
    reflexivity.
Defined.

Lemma check_crash_condition_missing_entry_witness :
  check_crash_condition py data_without_vix fresh =
    (Ret (false, None), mkStore None [Stderr MsgMissingData]).
Proof.
  apply (check_crash_condition_missing_entry py data_without_vix fresh).
  right. reflexivity.
Defined.

Lemma check_crash_condition_major_first_witness :
  check_crash_condition py (sample_data (-22) 25) fresh
    = (Ret (true, Some (trigger_major py)), fresh)
  /\ contains "52週高値比" (trigger_major py).
Proof.
  apply (check_crash_condition_major_first py (sample_data (-22) 25)
           (instrument "^NDX" 0 0 (-22)) (volatility 25)
           (Fin (-22)) (Fin 25));
    try reflexivity.
  simpl. lra.
Defined.

(** The three scenarios of the description, on the modelled runtime. *)
Example scenario_major_only :
  check_crash_condition py (sample_data (-22) 25) fresh =
    (Ret (true,
          Some "NASDAQ100 が 52週高値比 -20.0% を超える下落に突入しました。"),
     fresh).
Proof. reflexivity. Qed.

Example scenario_minor_with_fear :
  check_crash_condition py (sample_data (-16) 31) fresh =
    (Ret (true,
          Some "NASDAQ100 が -15.0% 下落、かつ VIX指数が 30.0 を超えました。"),
     fresh).
Proof. reflexivity. Qed.

Example scenario_no_trigger :
  check_crash_condition py (sample_data (-10) 35) fresh
    = (Ret (false, None), fresh).
Proof. reflexivity. Qed.

(** C5 as stated fails: the nasdaq drawdown is -25, the request for the
    volatility index failed, and the evaluator reports no crash. *)
Lemma major_drawdown_without_vix_not_reported :
  (exists nasdaq,
     Dict.get "nasdaq" data_without_vix = Some nasdaq
     /\ Dict.get "drawdown" nasdaq = Some (MNum (Fin (-25)))
     /\ num_le (Fin (-25)) (Fin (-20)))
  /\ fst (check_crash_condition py data_without_vix fresh)
       = Ret (false, None)
  /\ fst (check_crash_condition py data_without_vix fresh)
       <> Ret (true, Some (trigger_major py)).
Proof.
  split.
  - eexists. split; [reflexivity|]. split; [reflexivity|]. simpl. lra.
  - split; [reflexivity | discriminate].
Qed.

(* ================================================================== *)
(** * Properties of the JSON model: what is written is read back *)

Lemma append_assoc (a b c : string) : (a ++ b) ++ c = a ++ (b ++ c).
Proof.
  induction a as [| x a IH]; simpl; [reflexivity | rewrite IH; reflexivity].
Qed.

Lemma append_nil_r (a : string) : a ++ "" = a.
Proof.
  induction a as [| x a IH]; simpl; [reflexivity | rewrite IH; reflexivity].
Qed.

Lemma json_nested_ind (P : json -> Prop) :
  P JNull -> (forall b, P (JBool b)) -> (forall n, P (JInt n)) ->
  (forall x, P (JFloat x)) -> (forall s, P (JStr s)) ->
  (forall items, Forall P items -> P (JArr items)) ->
  (forall fields, Forall (fun kv => P (snd kv)) fields -> P (JObj fields)) ->
  (forall s, P (JLone s)) ->
  forall v, P v.
Proof.
  intros Hnull Hbool Hint Hfloat Hstr Harr Hobj Hlone.
  fix IH 1. intros [| b | n | x | s | items | fields | s].
  - exact Hnull.
  - apply Hbool.
  - apply Hint.
  - apply Hfloat.
  - apply Hstr.
  - apply Harr. induction items as [| item items IHitems].
    + constructor.
    + constructor; [apply IH | exact IHitems].
  - apply Hobj. induction fields as [| [k v] fields IHfields].
    + constructor.
    + constructor; [apply IH | exact IHfields].
  - apply Hlone.
Qed.

Lemma scanstring_escape (s rest : string) :
  Py.scanstring (Py.escape s ++ String Py.dquote rest) = Some (s, rest).
Proof.
  induction s as [| c s IH].
  - reflexivity.
  - cbn [Py.escape]. rewrite append_assoc.
    destruct c as [[] [] [] [] [] [] [] []];
      (cbn; rewrite IH; reflexivity).
Qed.

(** What [escape] writes spells no surrogate. *)
Lemma lone_escape_escape (s rest : string) :
  Py.lone_escape (Py.escape s ++ String Py.dquote rest) = false.
Proof.
  induction s as [| c s IH].
  - reflexivity.
  - cbn [Py.escape]. rewrite append_assoc.
    destruct c as [[] [] [] [] [] [] [] []];
      (cbn; rewrite IH; reflexivity).
Qed.

Lemma skip_ws_spaces (n : nat) (s : string) :
  Py.skip_ws (Py.spaces n ++ s) = Py.skip_ws s.
Proof. induction n as [| n IH]; [reflexivity | exact IH]. Qed.

Lemma skip_ws_newline_indent (level : nat) (s : string) :
  Py.skip_ws (Py.newline_indent level ++ s) = Py.skip_ws s.
Proof.
  unfold Py.newline_indent. rewrite append_assoc. cbn [nl String.append].
  cbn [Py.skip_ws Py.is_ws]. cbn. apply skip_ws_spaces.
Qed.

Lemma skip_ws_value (s : string) : starts_value s = true -> Py.skip_ws s = s.
Proof.
  destruct s as [| c s]; [discriminate|]. cbn [starts_value Py.skip_ws].
  destruct (Py.is_ws c); [discriminate | reflexivity].
Qed.

Lemma starts_value_encode (level : nat) (v : json) (rest : string) :
  plain v = true -> starts_value (Py.encode level v ++ rest) = true.
Proof.
  destruct v as [| [] | n | x | s | [| item items] | [| field fields] | s];
    try discriminate; reflexivity.
Qed.

Lemma scan_once_S (fuel : nat) (c : ascii) (r : string) :
  Py.scan_once (S fuel) (String c r) =
    if (c =? Py.dquote)%char then
      let? (str, rest) := Py.scanstring r in
      Some (if Py.lone_escape r then JLone str else JStr str, rest)
    else if (c =? "{")%char then
      match Py.skip_ws r with
      | EmptyString => None
      | String c' r' as members =>
          if (c' =? "}")%char then Some (JObj [], r')
          else Py.parse_members fuel members Dict.empty
      end
    else if (c =? "[")%char then
      match Py.skip_ws r with
      | EmptyString => None
      | String c' r' as items =>
          if (c' =? "]")%char then Some (JArr [], r')
          else Py.parse_items fuel items []
      end
    else
      match Py.match_constant (String c r) with
      | Some found => Some found
      | None => Py.match_number (String c r)
      end.
Proof. reflexivity. Qed.

Lemma parse_items_S (fuel : nat) (s : string) (seen : list json) :
  Py.parse_items (S fuel) s seen =
    let? (value, r1) := Py.scan_once fuel s in
    match Py.skip_ws r1 with
    | EmptyString => None
    | String c r2 =>
        if (c =? "]")%char then Some (JArr (seen ++ [value]), r2)
        else if (c =? ",")%char
             then Py.parse_items fuel (Py.skip_ws r2) (seen ++ [value])
             else None
    end.
Proof. reflexivity. Qed.

Lemma parse_members_S (fuel : nat) (r : string) (seen : Dict.t json) :
  Py.parse_members (S fuel) (String Py.dquote r) seen =
    let? (key, r1) := Py.scanstring r in
    match Py.skip_ws r1 with
    | EmptyString => None
    | String c1 r2 =>
        if (c1 =? ":")%char then
          let? (value, r3) := Py.scan_once fuel (Py.skip_ws r2) in
          match Py.skip_ws r3 with
          | EmptyString => None
          | String c2 r4 =>
              if (c2 =? "}")%char
              then Some (JObj (Dict.set key value seen), r4)
              else if (c2 =? ",")%char
                   then Py.parse_members fuel (Py.skip_ws r4)
                          (Dict.set key value seen)
                   else None
          end
        else None
    end.
Proof. reflexivity. Qed.

Lemma starts_value_append (a b : string) :
  starts_value a = true -> starts_value (a ++ b) = true.
Proof. destruct a; [discriminate | trivial]. Qed.

Lemma starts_value_join (sep : string) (parts : list string) (p : string) :
  starts_value p = true -> starts_value (Py.join sep (p :: parts)) = true.
Proof.
  intros H. destruct parts; [exact H|].
  cbn [Py.join]. apply starts_value_append. exact H.
Qed.

Lemma parse_items_encode (level : nat) (items : list json) :
  Forall round_trips items ->
  forallb plain items = true ->
  items <> [] ->
  forall seen fuel rest,
    (list_sum (map (fun x => S (size x)) items) <= fuel)%nat ->
    Py.parse_items fuel
      (Py.join ("," ++ Py.newline_indent (S level))
               (map (Py.encode (S level)) items)
         ++ Py.newline_indent level ++ String "]" rest) seen
    = Some (JArr (seen ++ items), rest).
Proof.
  induction items as [| x items IH]; [contradiction|].
  intros Hall Hplain _ seen fuel rest Hfuel.
  inversion Hall as [| ? ? Hx Hrest]; subst.
  cbn [forallb] in Hplain. apply andb_prop in Hplain as [Px Pitems].
  cbn [map list_sum fold_right] in Hfuel.
  destruct fuel as [| fuel]; [lia|].
  rewrite parse_items_S.
  destruct items as [| y more].
  - cbn [map Py.join].
    rewrite (Hx Px (S level) fuel) by (cbn in Hfuel; lia).
    rewrite skip_ws_newline_indent. reflexivity.
  - change (Py.join ?sep (map ?f (x :: y :: more)))
      with (f x ++ sep ++ Py.join sep (map f (y :: more))).
    rewrite !append_assoc.
    rewrite (Hx Px (S level) fuel) by lia.
    cbn [String.append Py.skip_ws Py.is_ws Ascii.eqb Bool.eqb orb].
    cbv beta iota. cbn [Ascii.eqb Bool.eqb].
    rewrite skip_ws_newline_indent.
    rewrite skip_ws_value.
    2:{ cbn [map]. apply starts_value_append, starts_value_join.
        rewrite <- (append_nil_r (Py.encode _ _)).
        apply starts_value_encode. cbn [forallb] in Pitems.
        apply andb_prop in Pitems as [Py_ _]. exact Py_. }
    rewrite <- !append_assoc.
    rewrite (append_assoc _ (Py.newline_indent level)).
    rewrite IH; try assumption; try discriminate;
      try (unfold list_sum; lia).
    rewrite <- app_assoc. reflexivity.
Qed.

Lemma set_fresh {V} (k : string) (v : V) (d : Dict.t V) :
  Dict.get k d = None -> Dict.set k v d = (d ++ [(k, v)])%list.
Proof.
  induction d as [| [k' v'] d IH]; simpl; [reflexivity|].
  destruct (k =? k'); [discriminate|]. intros H. rewrite IH by exact H.
  reflexivity.
Qed.

Lemma get_app_fresh {V} (k k' : string) (v : V) (d : Dict.t V) :
  Dict.get k d = None -> (k =? k') = false ->
  Dict.get k (d ++ [(k', v)])%list = None.
Proof.
  intros Hd Hk. induction d as [| [k0 v0] d IH]; simpl in *.
  - rewrite Hk. reflexivity.
  - destruct (k =? k0); [discriminate|]. apply IH. exact Hd.
Qed.

Lemma parse_members_encode (level : nat) (fields : list (string * json)) :
  Forall (fun kv => round_trips (snd kv)) fields ->
  forallb (fun kv => plain (snd kv)) fields = true ->
  distinct (map fst fields) = true ->
  fields <> [] ->
  forall seen fuel rest,
    Forall (fun kv => Dict.get (fst kv) seen = None) fields ->
    (list_sum (map (fun kv => S (size (snd kv))) fields) <= fuel)%nat ->
    Py.parse_members fuel
      (Py.join ("," ++ Py.newline_indent (S level))
               (map (fun kv => Py.encode_basestring (fst kv) ++ ": "
                                 ++ Py.encode (S level) (snd kv)) fields)
         ++ Py.newline_indent level ++ String "}" rest) seen
    = Some (JObj (seen ++ fields), rest).
Proof.
  induction fields as [| [k v] fields IH]; [contradiction|].
  intros Hall Hplain Hdistinct _ seen fuel rest Hfresh Hfuel.
  inversion Hall as [| ? ? Hv Hrest]; subst. cbn [snd] in Hv.
  inversion Hfresh as [| ? ? Hk Hfresh']; subst. cbn [fst] in Hk.
  cbn [forallb snd] in Hplain. apply andb_prop in Hplain as [Pv Pfields].
  cbn [map fst distinct] in Hdistinct.
  apply andb_prop in Hdistinct as [Dk Dfields].
  apply negb_true_iff in Dk.
  cbn [map list_sum fold_right snd] in Hfuel.
  destruct fuel as [| fuel]; [lia|].
  assert (Hnext : Forall (fun kv => Dict.get (fst kv) (seen ++ [(k, v)])%list
                                    = None) fields).
  { clear - Hfresh' Dk. induction fields as [| [k' v'] fields IHf].
    - constructor.
    - inversion Hfresh' as [| ? ? Hk' Hf]; subst. cbn [fst] in Hk'.
      cbn [map fst existsb] in Dk. apply orb_false_iff in Dk as [Dk Dk'].
      constructor; [| apply IHf; assumption].
      cbn [fst]. apply get_app_fresh; [exact Hk'|].
      rewrite String.eqb_sym. exact Dk. }
  destruct fields as [| [k' v'] more].
  - cbn [map Py.join fst snd]. unfold Py.encode_basestring.
    cbn [String.append]. rewrite parse_members_S.
    rewrite !append_assoc. cbn [String.append].
    rewrite scanstring_escape.
    cbn [Py.skip_ws Py.is_ws Ascii.eqb Bool.eqb orb]. cbv beta iota.
    rewrite skip_ws_value by (apply starts_value_encode; exact Pv).
    rewrite (Hv Pv (S level) fuel) by lia. cbv beta iota.
    rewrite skip_ws_newline_indent.
    cbn [Py.skip_ws Py.is_ws Ascii.eqb Bool.eqb orb]. cbv beta iota.
    rewrite set_fresh by exact Hk. reflexivity.
  - change (Py.join ?sep (map ?f ((k, v) :: (k', v') :: more)))
      with (f (k, v) ++ sep ++ Py.join sep (map f ((k', v') :: more))).
    cbn [fst snd]. unfold Py.encode_basestring at 1.
    rewrite !append_assoc.
    change (String Py.dquote ?a ++ ?b) with (String Py.dquote (a ++ b)).
    rewrite parse_members_S.
    rewrite !append_assoc.
    change (String Py.dquote "" ++ ?b) with (String Py.dquote b).
    rewrite scanstring_escape.
    change (": " ++ ?b) with (String ":" (String " " b)).
    cbn [Py.skip_ws Py.is_ws Ascii.eqb Bool.eqb orb]. cbv beta iota.
    rewrite skip_ws_value by (apply starts_value_encode; exact Pv).
    rewrite (Hv Pv (S level) fuel) by lia. cbv beta iota.
    change ("," ++ ?x) with (String "," x) at 1.
    cbn [Py.skip_ws Py.is_ws Ascii.eqb Bool.eqb orb]. cbv beta iota.
    rewrite skip_ws_newline_indent.
    rewrite skip_ws_value.
    2:{ cbn [map]. apply starts_value_append, starts_value_join.
        reflexivity. }
    rewrite set_fresh by exact Hk.
    rewrite IH; try assumption; try discriminate;
      try (unfold list_sum; lia).
    rewrite <- app_assoc. reflexivity.
Qed.


Lemma scan_once_encode (v : json) : round_trips v.
Proof.
  induction v as [| b | n | x | s | items IH | fields IH | s]
    using json_nested_ind;
    intros Hplain level fuel rest Hfuel; try discriminate Hplain.
  - destruct fuel as [| fuel]; [cbn in Hfuel; lia | reflexivity].
  - destruct fuel as [| fuel]; [cbn in Hfuel; lia|].
    destruct b; reflexivity.
  - destruct fuel as [| fuel]; [cbn in Hfuel; lia|].
    cbn [Py.encode]. unfold Py.encode_basestring.
    change (String Py.dquote ?a ++ ?b) with (String Py.dquote (a ++ b)).
    rewrite scan_once_S, append_assoc.
    change (String Py.dquote "" ++ ?b) with (String Py.dquote b).
    cbn [Ascii.eqb Bool.eqb Py.dquote]. cbv beta iota.
    fold Py.dquote. rewrite scanstring_escape, lone_escape_escape.
    reflexivity.
  - destruct fuel as [| fuel]; [cbn in Hfuel; lia|].
    destruct items as [| item items]; [reflexivity|].
    cbn [Py.encode]. rewrite !append_assoc.
    change ("[" ++ ?x) with (String "[" x).
    rewrite scan_once_S.
    cbn [Ascii.eqb Bool.eqb Py.dquote]. cbv beta iota.
    rewrite skip_ws_newline_indent.
    cbn [plain] in Hplain.
    assert (Hstart : starts_value
              (Py.join ("," ++ Py.newline_indent (S level))
                 (map (Py.encode (S level)) (item :: items))
               ++ Py.newline_indent level ++ "]" ++ rest) = true).
    { cbn [map]. apply starts_value_append, starts_value_join.
      rewrite <- (append_nil_r (Py.encode _ _)).
      apply starts_value_encode. cbn [forallb] in Hplain.
      apply andb_prop in Hplain as [H _]. exact H. }
    rewrite skip_ws_value by exact Hstart.
    destruct (Py.join _ _ ++ _) as [| c tail] eqn:Etext; [discriminate|].
    cbn [starts_value] in Hstart.
    apply andb_prop in Hstart as [Hstart _].
    apply andb_prop in Hstart as [_ Hclose].
    apply negb_true_iff in Hclose. rewrite Hclose. rewrite <- Etext.
    change ("]" ++ rest) with (String "]" rest).
    rewrite (parse_items_encode level (item :: items) IH Hplain
               ltac:(discriminate) [] fuel rest).
    + reflexivity.
    + cbn [size] in Hfuel. lia.
  - destruct fuel as [| fuel]; [cbn in Hfuel; lia|].
    destruct fields as [| field fields]; [reflexivity|].
    cbn [Py.encode]. rewrite !append_assoc.
    change ("{" ++ ?x) with (String "{" x).
    rewrite scan_once_S.
    cbn [Ascii.eqb Bool.eqb Py.dquote]. cbv beta iota.
    rewrite skip_ws_newline_indent.
    cbn [plain] in Hplain. apply andb_prop in Hplain as [Hdistinct Hplain].
    assert (Hstart : starts_value
              (Py.join ("," ++ Py.newline_indent (S level))
                 (map (fun kv => Py.encode_basestring (fst kv) ++ ": "
                                   ++ Py.encode (S level) (snd kv))
                      (field :: fields))
               ++ Py.newline_indent level ++ "}" ++ rest) = true).
    { cbn [map]. apply starts_value_append, starts_value_join.
      reflexivity. }
    rewrite skip_ws_value by exact Hstart.
    destruct (Py.join _ _ ++ _) as [| c tail] eqn:Etext; [discriminate|].
    cbn [starts_value] in Hstart.
    apply andb_prop in Hstart as [_ Hclose].
    apply negb_true_iff in Hclose. rewrite Hclose. rewrite <- Etext.
    change ("}" ++ rest) with (String "}" rest).
    rewrite (parse_members_encode level (field :: fields) IH Hplain
               Hdistinct ltac:(discriminate) Dict.empty fuel rest).
    + reflexivity.
    + clear. induction (field :: fields); constructor; auto.
    + cbn [size] in Hfuel. lia.
Qed.

Lemma length_append (a b : string) :
  String.length (a ++ b) = (String.length a + String.length b)%nat.
Proof.
  induction a as [| x a IH]; simpl; [reflexivity | rewrite IH; reflexivity].
Qed.

Lemma join_length_bound {A} (sep : string) (f : A -> string) (g : A -> nat)
    (xs : list A) :
  (1 <= String.length sep)%nat ->
  Forall (fun x => (g x <= String.length (f x))%nat) xs ->
  (list_sum (map (fun x => S (g x)) xs)
   <= String.length (Py.join sep (map f xs)) + 1)%nat.
Proof.
  intros Hsep Hall. induction Hall as [| x xs Hx Hxs IH].
  - cbn. lia.
  - cbn [map list_sum fold_right]. fold (list_sum (map (fun x => S (g x)) xs)).
    destruct xs as [| y more].
    + cbn. lia.
    + change (Py.join sep (f x :: map f (y :: more)))
        with (f x ++ sep ++ Py.join sep (map f (y :: more))).
      rewrite !length_append. lia.
Qed.

Lemma size_le_length (v : json) :
  forall level, (size v <= String.length (Py.encode level v))%nat.
Proof.
  induction v as [| b | n | x | s | items IH | fields IH | s]
    using json_nested_ind; intros level.
  - cbn. lia.
  - destruct b; cbn; lia.
  - cbn [size Py.encode]. unfold Py.string_of_Z.
    destruct (Z.to_int n) as [d | d]; destruct d; cbn; lia.
  - cbn [size Py.encode]. destruct x; cbn; try lia.
    unfold Py.string_of_decimal.
    match goal with |- context [if ?b then _ else _] => destruct b end;
      cbn; rewrite ?length_append; cbn; lia.
  - cbn. lia.
  - destruct items as [| item items]; [cbn; lia|].
    cbn [size Py.encode]. rewrite !length_append.
    pose proof (join_length_bound ("," ++ Py.newline_indent (S level))
                  (Py.encode (S level)) size (item :: items)
                  ltac:(cbn; lia)) as Hb.
    cbn [String.length]. 
    assert (Hall : Forall (fun x => (size x <= String.length (Py.encode (S level) x))%nat) (item :: items)).
    { eapply Forall_impl; [|exact IH]. intros a Ha. apply Ha. }
    specialize (Hb Hall). lia.
  - destruct fields as [| field fields]; [cbn; lia|].
    cbn [size Py.encode]. rewrite !length_append.
    pose proof (join_length_bound ("," ++ Py.newline_indent (S level))
                  (fun kv => Py.encode_basestring (fst kv) ++ ": "
                               ++ Py.encode (S level) (snd kv))
                  (fun kv => size (snd kv)) (field :: fields)
                  ltac:(cbn; lia)) as Hb.
    cbn [String.length].
    assert (Hall : Forall (fun kv => (size (snd kv) <= String.length (Py.encode_basestring (fst kv) ++ ": " ++ Py.encode (S level) (snd kv)))%nat) (field :: fields)).
    { eapply Forall_impl; [|exact IH]. intros a Ha. cbv beta in Ha.
      rewrite !length_append. specialize (Ha (S level)). lia. }
    specialize (Hb Hall). lia.
  - cbn. lia.
Qed.

Theorem loads_dumps (v : json) :
  plain v = true -> Py.loads (Py.dumps v) = Some v.
Proof.
  intros Hplain. unfold Py.loads, Py.dumps.
  pose proof (starts_value_encode 0%nat v "" Hplain) as Hstart.
  rewrite append_nil_r in Hstart.
  rewrite skip_ws_value by exact Hstart.
  rewrite <- (append_nil_r (Py.encode 0 v)) at 2.
  rewrite (scan_once_encode v Hplain 0%nat).
  - reflexivity.
  - pose proof (size_le_length v 0%nat). lia.
Qed.

(* ================================================================== *)
(** * Properties of dictionaries *)

Lemma get_set_same {V} (k : string) (v : V) (d : Dict.t V) :
  Dict.get k (Dict.set k v d) = Some v.
Proof.
  induction d as [| [k' v'] d IH]; simpl.
  - rewrite String.eqb_refl. reflexivity.
  - destruct (k =? k') eqn:E; simpl; rewrite ?String.eqb_refl, ?E; auto.
Qed.

Lemma get_set_other {V} (k k0 : string) (v : V) (d : Dict.t V) :
  k0 <> k -> Dict.get k0 (Dict.set k v d) = Dict.get k0 d.
Proof.
  intros Hne. induction d as [| [k' v'] d IH]; simpl.
  - apply String.eqb_neq in Hne. rewrite Hne. reflexivity.
  - destruct (k =? k') eqn:E; simpl.
    + apply String.eqb_eq in E. subst k'.
      apply String.eqb_neq in Hne. rewrite Hne. reflexivity.
    + rewrite IH. reflexivity.
Qed.


(* ================================================================== *)
(** * Properties of the fetcher *)

Section Binary64.
Local Open Scope Q_scope.

(** ** Rounding to the nearest integer *)

Lemma round_half_even_near (q : Q) :
  inject_Z (round_half_even q) - (1 # 2) <= q
  /\ q <= inject_Z (round_half_even q) + (1 # 2).
Proof.
  destruct q as [n d]. unfold round_half_even. cbn [Qnum Qden].
  pose proof (Z.div_mod n (Zpos d) ltac:(lia)) as Hdm.
  pose proof (Z.mod_pos_bound n (Zpos d) ltac:(lia)) as Hm.
  set (f := (n / Zpos d)%Z) in *. set (m := (n mod Zpos d)%Z) in *.
  assert (Hbounds : forall z : Z,
            (2 * (z * Zpos d) - Zpos d <= 2 * n)%Z ->
            (2 * n <= 2 * (z * Zpos d) + Zpos d)%Z ->
            (inject_Z z - (1 # 2) <= n # d)%Q
            /\ (n # d <= inject_Z z + (1 # 2))%Q).
  { intros z H1 H2. unfold Qle, Qminus, Qplus, Qopp, inject_Z.
    cbn [Qnum Qden]. split; nia. }
  destruct (2 * m ?= Zpos d)%Z eqn:Ecmp.
  - apply Z.compare_eq in Ecmp.
    destruct (Z.even f); apply Hbounds; nia.
  - rewrite Z.compare_lt_iff in Ecmp. apply Hbounds; nia.
  - rewrite Z.compare_gt_iff in Ecmp. apply Hbounds; nia.
Qed.

Lemma round_half_even_le (q : Q) (z : Z) :
  q <= inject_Z z -> (round_half_even q <= z)%Z.
Proof.
  intros H. destruct (round_half_even_near q) as [Hlo _].
  assert (Hq : inject_Z (round_half_even q) - (1 # 2) <= inject_Z z)
    by lra.
  unfold Qle, Qminus, Qplus, Qopp, inject_Z in Hq. cbn [Qnum Qden] in Hq.
  lia.
Qed.

Lemma round_half_even_ge (q : Q) (z : Z) :
  inject_Z z <= q -> (z <= round_half_even q)%Z.
Proof.
  intros H. destruct (round_half_even_near q) as [_ Hhi].
  assert (Hq : inject_Z z <= inject_Z (round_half_even q) + (1 # 2))
    by lra.
  unfold Qle, Qminus, Qplus, Qopp, inject_Z in Hq. cbn [Qnum Qden] in Hq.
  lia.
Qed.

(** Half way between two integers the even one is taken. *)
Lemma round_half_even_tie (q : Q) (k : Z) :
  q == inject_Z k + (1 # 2) ->
  round_half_even q = if Z.even k then k else (k + 1)%Z.
Proof.
  destruct q as [n d]. unfold Qeq, Qplus, inject_Z. cbn [Qnum Qden].
  intros H. unfold round_half_even. cbn [Qnum Qden].
  pose proof (Z.div_mod n (Zpos d) ltac:(lia)) as Hdm.
  pose proof (Z.mod_pos_bound n (Zpos d) ltac:(lia)) as Hm.
  set (f := (n / Zpos d)%Z) in *. set (m := (n mod Zpos d)%Z) in *.
  cbn in H. clearbody f m. subst n.
  assert (Hd : (0 < Zpos d)%Z) by lia.
  assert (Heq : (2 * m = (2 * k + 1 - 2 * f) * Zpos d)%Z) by nia.
  assert (Hlo : (0 <= 2 * k + 1 - 2 * f)%Z) by nia.
  assert (Hhi : (2 * k + 1 - 2 * f < 2)%Z) by nia.
  assert (Hf : f = k) by lia.
  assert (Hhalf : (2 * m = Zpos d)%Z) by nia.
  rewrite Hhalf, Z.compare_refl, Hf. reflexivity.
Qed.

Lemma round_half_even_mono (x y : Q) :
  x <= y -> (round_half_even x <= round_half_even y)%Z.
Proof.
  intros Hxy.
  destruct (round_half_even_near x) as [Hx _].
  destruct (round_half_even_near y) as [_ Hy].
  destruct (Z_le_gt_dec (round_half_even x) (round_half_even y))
    as [Hle | Hgt]; [exact Hle | exfalso].
  assert (Hz : inject_Z (round_half_even y) + 1
               <= inject_Z (round_half_even x)).
  { rewrite <- (inject_Z_plus _ 1). rewrite <- Zle_Qle. lia. }
  remember (round_half_even y) as b eqn:Eb.
  assert (Ex : x == inject_Z b + (1 # 2)) by lra.
  assert (Ey : y == inject_Z b + (1 # 2)) by lra.
  pose proof (round_half_even_tie x b Ex) as Tx.
  pose proof (round_half_even_tie y b Ey) as Ty.
  rewrite <- Eb in Ty. rewrite Tx in Hgt.
  destruct (Z.even b); lia.
Qed.

(** ** Powers of two *)

Lemma pow2_pos (e : Z) : 0 < pow2 e.
Proof. apply Qpower_0_lt. reflexivity. Qed.

Lemma pow2_add (a b : Z) : pow2 (a + b) == pow2 a * pow2 b.
Proof. apply Qpower_plus. discriminate. Qed.

Lemma pow2_le (a b : Z) : (a <= b)%Z -> pow2 a <= pow2 b.
Proof. intros H. apply Qpower_le_compat_l; [exact H | discriminate]. Qed.

Lemma pow2_lt (a b : Z) : (a < b)%Z -> pow2 a < pow2 b.
Proof. intros H. apply Qpower_lt_compat_l; [exact H | reflexivity]. Qed.

Lemma pow2_inject (n : Z) : (0 <= n)%Z -> inject_Z (2 ^ n) == pow2 n.
Proof. intros H. apply (Zpower_Qpower 2 n H). Qed.

Lemma pow2_cancel (a : Z) : pow2 a * pow2 (- a) == 1.
Proof.
  rewrite <- pow2_add. replace (a + - a)%Z with 0%Z by lia. reflexivity.
Qed.

(** ** The exponent of a positive number *)

Lemma ilog2_spec (q : Q) :
  0 < q -> pow2 (ilog2 q) <= q /\ q < pow2 (ilog2 q + 1).
Proof.
  destruct q as [n d]. intros Hq.
  assert (Hn : (0 < n)%Z) by (unfold Qlt in Hq; cbn in Hq; lia).
  unfold ilog2. cbn [Qnum Qden].
  pose proof (Z.log2_spec n Hn) as [Ha1 Ha2].
  pose proof (Z.log2_spec (Zpos d) ltac:(lia)) as [Hb1 Hb2].
  pose proof (Z.log2_nonneg n) as Ha0.
  pose proof (Z.log2_nonneg (Zpos d)) as Hb0.
  set (a := Z.log2 n) in *. set (b := Z.log2 (Zpos d)) in *.
  clearbody a b.
  assert (Eq : (n # d) * inject_Z (Zpos d) == inject_Z n).
  { unfold Qeq, Qmult, inject_Z. cbn [Qnum Qden]. lia. }
  assert (Na1 : pow2 a <= inject_Z n).
  { rewrite <- pow2_inject by exact Ha0. rewrite <- Zle_Qle. exact Ha1. }
  assert (Na2 : inject_Z n < pow2 (a + 1)).
  { rewrite <- pow2_inject by lia. rewrite <- Zlt_Qlt.
    replace (a + 1)%Z with (Z.succ a) by lia. exact Ha2. }
  assert (Nb1 : pow2 b <= inject_Z (Zpos d)).
  { rewrite <- pow2_inject by exact Hb0. rewrite <- Zle_Qle. exact Hb1. }
  assert (Nb2 : inject_Z (Zpos d) < pow2 (b + 1)).
  { rewrite <- pow2_inject by lia. rewrite <- Zlt_Qlt.
    replace (b + 1)%Z with (Z.succ b) by lia. exact Hb2. }
  pose proof (pow2_pos b) as Pb. pose proof (pow2_pos (b + 1)) as Pb1.
  set (D := inject_Z (Zpos d)) in *. set (N := inject_Z n) in *.
  set (x := n # d) in *. clearbody D N x.
  destruct (Qle_bool (pow2 (a - b)) x) eqn:E.
  - apply Qle_bool_iff in E. split; [exact E|].
    pose proof (pow2_pos (a - b + 1)) as P1.
    assert (Hadd : pow2 (a - b + 1) * pow2 b == pow2 (a + 1)).
    { rewrite <- pow2_add. replace (a - b + 1 + b)%Z with (a + 1)%Z by lia.
      reflexivity. }
    apply Qnot_le_lt. intros Hle.
    assert (H1 : pow2 (a - b + 1) * pow2 b <= x * D).
    { apply Qle_trans with (pow2 (a - b + 1) * D).
      - apply Qmult_le_l; [exact P1 | exact Nb1].
      - apply Qmult_le_compat_r; [exact Hle | lra]. }
    lra.
  - assert (Hlt : x < pow2 (a - b)).
    { apply Qnot_le_lt. intros Hle. apply Qle_bool_iff in Hle. congruence. }
    replace (a - b - 1 + 1)%Z with (a - b)%Z by lia.
    split; [|exact Hlt].
    pose proof (pow2_pos (a - b - 1)) as P1.
    assert (Hadd : pow2 (a - b - 1) * pow2 (b + 1) == pow2 a).
    { rewrite <- pow2_add. replace (a - b - 1 + (b + 1))%Z with a by lia.
      reflexivity. }
    apply Qnot_lt_le. intros Hlt'.
    assert (H1 : x * D <= pow2 (a - b - 1) * pow2 (b + 1)).
    { apply Qle_trans with (pow2 (a - b - 1) * D).
      - apply Qmult_le_compat_r; lra.
      - apply Qmult_le_l; [exact P1 | lra]. }
    assert (H2 : x * D < pow2 (a - b - 1) * D).
    { apply Qmult_lt_compat_r; lra. }
    assert (H3 : pow2 (a - b - 1) * D < pow2 (a - b - 1) * pow2 (b + 1)).
    { apply Qmult_lt_l; [exact P1 | exact Nb2]. }
    lra.
Qed.

Lemma ilog2_unique (q : Q) (e : Z) :
  pow2 e <= q -> q < pow2 (e + 1) -> ilog2 q = e.
Proof.
  intros Hlo Hhi.
  assert (Hq : 0 < q) by (pose proof (pow2_pos e); lra).
  destruct (ilog2_spec q Hq) as [Slo Shi].
  destruct (Z.lt_trichotomy (ilog2 q) e) as [H | [H | H]]; [|exact H|].
  - pose proof (pow2_le (ilog2 q + 1) e ltac:(lia)). lra.
  - pose proof (pow2_le (e + 1) (ilog2 q) ltac:(lia)). lra.
Qed.

Lemma ilog2_mono (x y : Q) : 0 < x -> x <= y -> (ilog2 x <= ilog2 y)%Z.
Proof.
  intros Hx Hxy.
  destruct (ilog2_spec x Hx) as [Xlo Xhi].
  destruct (ilog2_spec y ltac:(lra)) as [Ylo Yhi].
  destruct (Z_le_gt_dec (ilog2 x) (ilog2 y)) as [H | H]; [exact H|].
  pose proof (pow2_le (ilog2 y + 1) (ilog2 x) ltac:(lia)). lra.
Qed.
(** ** Rounding to binary64 *)

Lemma fl_pos_eq (q : Q) :
  0 < q ->
  fl q == inject_Z (round_half_even (q * pow2 (52 - ilog2 q)))
          * pow2 (ilog2 q - 52).
Proof.
  destruct q as [[| p | p] d]; intros Hq; try discriminate Hq.
  unfold fl. cbn [Qnum]. apply Qred_correct.
Qed.

Lemma fl_neg_eq (q : Q) : q < 0 -> fl q == - fl (- q).
Proof.
  destruct q as [[| p | p] d]; intros Hq; try discriminate Hq.
  unfold fl. cbn [Qnum Qopp Z.opp]. rewrite !Qred_correct. reflexivity.
Qed.

Lemma fl_zero (q : Q) : q == 0 -> fl q = 0.
Proof.
  destruct q as [[| p | p] d]; intros Hq; try discriminate Hq. reflexivity.
Qed.

Lemma scaled_bounds (q : Q) :
  0 < q ->
  pow2 52 <= q * pow2 (52 - ilog2 q) /\ q * pow2 (52 - ilog2 q) < pow2 53.
Proof.
  intros Hq. destruct (ilog2_spec q Hq) as [Hlo Hhi].
  pose proof (pow2_pos (52 - ilog2 q)) as Hp.
  assert (E1 : pow2 (ilog2 q) * pow2 (52 - ilog2 q) == pow2 52).
  { rewrite <- pow2_add. replace (ilog2 q + (52 - ilog2 q))%Z with 52%Z by lia.
    reflexivity. }
  assert (E2 : pow2 (ilog2 q + 1) * pow2 (52 - ilog2 q) == pow2 53).
  { rewrite <- pow2_add.
    replace (ilog2 q + 1 + (52 - ilog2 q))%Z with 53%Z by lia. reflexivity. }
  split.
  - rewrite <- E1. apply Qmult_le_compat_r; lra.
  - rewrite <- E2. apply Qmult_lt_compat_r; lra.
Qed.

Lemma mantissa_bounds (q : Q) :
  0 < q ->
  (2 ^ 52 <= round_half_even (q * pow2 (52 - ilog2 q)) <= 2 ^ 53)%Z.
Proof.
  intros Hq. destruct (scaled_bounds q Hq) as [Hlo Hhi]. split.
  - apply round_half_even_ge. rewrite pow2_inject by lia. exact Hlo.
  - apply round_half_even_le. rewrite pow2_inject by lia. lra.
Qed.

Lemma fl_bounds (q : Q) :
  0 < q -> pow2 (ilog2 q) <= fl q /\ fl q <= pow2 (ilog2 q + 1).
Proof.
  intros Hq. rewrite (fl_pos_eq q Hq).
  destruct (mantissa_bounds q Hq) as [Hlo Hhi].
  pose proof (pow2_pos (ilog2 q - 52)) as Hp.
  assert (E1 : pow2 52 * pow2 (ilog2 q - 52) == pow2 (ilog2 q)).
  { rewrite <- pow2_add. replace (52 + (ilog2 q - 52))%Z with (ilog2 q) by lia.
    reflexivity. }
  assert (E2 : pow2 53 * pow2 (ilog2 q - 52) == pow2 (ilog2 q + 1)).
  { rewrite <- pow2_add.
    replace (53 + (ilog2 q - 52))%Z with (ilog2 q + 1)%Z by lia.
    reflexivity. }
  rewrite Zle_Qle in Hlo, Hhi. rewrite (pow2_inject 52) in Hlo by lia.
  rewrite (pow2_inject 53) in Hhi by lia.
  split.
  - rewrite <- E1. apply Qmult_le_compat_r; lra.
  - rewrite <- E2. apply Qmult_le_compat_r; lra.
Qed.

Lemma fl_pos (q : Q) : 0 < q -> 0 < fl q.
Proof.
  intros Hq. destruct (fl_bounds q Hq) as [Hlo _].
  pose proof (pow2_pos (ilog2 q)). lra.
Qed.

Lemma fl_mono_pos (x y : Q) : 0 < x -> x <= y -> fl x <= fl y.
Proof.
  intros Hx Hxy. assert (Hy : 0 < y) by lra.
  pose proof (ilog2_mono x y Hx Hxy) as He.
  destruct (Z.eq_dec (ilog2 x) (ilog2 y)) as [E | Hne].
  - rewrite (fl_pos_eq x Hx), (fl_pos_eq y Hy), E.
    pose proof (pow2_pos (ilog2 y - 52)) as Hp.
    pose proof (pow2_pos (52 - ilog2 y)) as Hp'.
    apply Qmult_le_compat_r; [|lra].
    rewrite <- Zle_Qle. apply round_half_even_mono.
    apply Qmult_le_compat_r; lra.
  - destruct (fl_bounds x Hx) as [_ Hhi].
    destruct (fl_bounds y Hy) as [Hlo _].
    pose proof (pow2_le (ilog2 x + 1) (ilog2 y) ltac:(lia)). lra.
Qed.

Lemma fl_mono (x y : Q) : x <= y -> fl x <= fl y.
Proof.
  intros Hxy.
  destruct (Q_dec x 0) as [[Hx | Hx] | Hx];
    destruct (Q_dec y 0) as [[Hy | Hy] | Hy]; try lra.
  - rewrite (fl_neg_eq x Hx), (fl_neg_eq y Hy).
    assert (H : fl (- y) <= fl (- x)) by (apply fl_mono_pos; lra). lra.
  - rewrite (fl_neg_eq x Hx). pose proof (fl_pos (- x) ltac:(lra)).
    pose proof (fl_pos y Hy). lra.
  - rewrite (fl_neg_eq x Hx), (fl_zero y Hy).
    pose proof (fl_pos (- x) ltac:(lra)). lra.
  - apply fl_mono_pos; assumption.
  - rewrite (fl_zero x Hx). pose proof (fl_pos y Hy). lra.
  - rewrite (fl_zero x Hx), (fl_zero y Hy). lra.
Qed.

(** Equal numbers round to the same number, also as fractions. *)
Lemma fl_proper (x y : Q) : x == y -> fl x = fl y.
Proof.
  intros E.
  assert (Hv : fl x == fl y).
  { apply Qle_antisym; apply fl_mono; lra. }
  assert (Hred : forall q, Qred (fl q) = fl q).
  { intros [[| p | p] d]; unfold fl; cbn [Qnum];
      [reflexivity | apply Qred_complete, Qred_correct
       | apply Qred_complete, Qred_correct]. }
  rewrite <- (Hred x), <- (Hred y). apply Qred_complete. exact Hv.
Qed.

Lemma fl_nonpos (q : Q) : q <= 0 -> fl q <= 0.
Proof. intros H. rewrite <- (fl_zero 0) by reflexivity. apply fl_mono, H. Qed.

Lemma fl_nonneg (q : Q) : 0 <= q -> 0 <= fl q.
Proof.
  intros H. rewrite <- (fl_zero 0) at 1 by reflexivity. apply fl_mono, H.
Qed.

(** The result is within half a unit in the last place. *)
Lemma fl_above (q : Q) : 0 < q -> fl q <= q * (1 + pow2 (-53)).
Proof.
  intros Hq. rewrite (fl_pos_eq q Hq).
  destruct (round_half_even_near (q * pow2 (52 - ilog2 q))) as [Hlo _].
  destruct (scaled_bounds q Hq) as [Slo _].
  destruct (ilog2_spec q Hq) as [Elo _].
  pose proof (pow2_pos (ilog2 q - 52)) as Hp.
  set (t := q * pow2 (52 - ilog2 q)) in *.
  set (m := inject_Z (round_half_even t)) in *.
  assert (Et : t * pow2 (ilog2 q - 52) == q).
  { unfold t. rewrite <- Qmult_assoc, <- pow2_add.
    replace (52 - ilog2 q + (ilog2 q - 52))%Z with 0%Z by lia.
    change (pow2 0) with 1. ring. }
  assert (Eh : (1 # 2) * pow2 (ilog2 q - 52) == pow2 (ilog2 q) * pow2 (-53)).
  { rewrite <- pow2_add.
    replace (ilog2 q + -53)%Z with (-1 + (ilog2 q - 52))%Z by lia.
    rewrite pow2_add. reflexivity. }
  assert (H1 : m * pow2 (ilog2 q - 52)
               <= (t + (1 # 2)) * pow2 (ilog2 q - 52)).
  { apply Qmult_le_compat_r; lra. }
  assert (H2 : pow2 (ilog2 q) * pow2 (-53) <= q * pow2 (-53)).
  { apply Qmult_le_compat_r; [exact Elo|].
    pose proof (pow2_pos (-53)). lra. }
  assert (E3 : (t + (1 # 2)) * pow2 (ilog2 q - 52)
               == q + (1 # 2) * pow2 (ilog2 q - 52)).
  { rewrite <- Et at 2. ring. }
  lra.
Qed.

Lemma fl_below (q : Q) : 0 < q -> q * (1 - pow2 (-53)) <= fl q.
Proof.
  intros Hq. rewrite (fl_pos_eq q Hq).
  destruct (round_half_even_near (q * pow2 (52 - ilog2 q))) as [_ Hhi].
  destruct (ilog2_spec q Hq) as [Elo _].
  pose proof (pow2_pos (ilog2 q - 52)) as Hp.
  set (t := q * pow2 (52 - ilog2 q)) in *.
  set (m := inject_Z (round_half_even t)) in *.
  assert (Et : t * pow2 (ilog2 q - 52) == q).
  { unfold t. rewrite <- Qmult_assoc, <- pow2_add.
    replace (52 - ilog2 q + (ilog2 q - 52))%Z with 0%Z by lia.
    change (pow2 0) with 1. ring. }
  assert (Eh : (1 # 2) * pow2 (ilog2 q - 52) == pow2 (ilog2 q) * pow2 (-53)).
  { rewrite <- pow2_add.
    replace (ilog2 q + -53)%Z with (-1 + (ilog2 q - 52))%Z by lia.
    rewrite pow2_add. reflexivity. }
  assert (H1 : (t - (1 # 2)) * pow2 (ilog2 q - 52)
               <= m * pow2 (ilog2 q - 52)).
  { apply Qmult_le_compat_r; lra. }
  assert (H2 : pow2 (ilog2 q) * pow2 (-53) <= q * pow2 (-53)).
  { apply Qmult_le_compat_r; [exact Elo|].
    pose proof (pow2_pos (-53)). lra. }
  assert (E3 : (t - (1 # 2)) * pow2 (ilog2 q - 52)
               == q - (1 # 2) * pow2 (ilog2 q - 52)).
  { rewrite <- Et at 2. ring. }
  lra.
Qed.

(** A float between [- bound] and 0 is rounded by at most
    [bound * 2 ^ -53]. *)
Lemma fl_near_nonpos (q bound : Q) :
  - bound <= q -> q <= 0 ->
  q - bound * pow2 (-53) <= fl q /\ fl q <= q + bound * pow2 (-53).
Proof.
  intros Hlo Hhi. pose proof (pow2_pos (-53)) as He.
  destruct (Qlt_le_dec q 0) as [Hneg | Hzero].
  - assert (E : fl q == - fl (- q)) by (apply fl_neg_eq; exact Hneg).
    pose proof (fl_above (- q) ltac:(lra)) as Ha.
    pose proof (fl_below (- q) ltac:(lra)) as Hb.
    assert (Hq : (- q) * pow2 (-53) <= bound * pow2 (-53))
      by (apply Qmult_le_compat_r; lra).
    split; lra.
  - assert (E : fl q = 0) by (apply fl_zero; lra).
    assert (Hb : 0 <= bound * pow2 (-53))
      by (apply Qmult_le_0_compat; lra).
    rewrite E. split; lra.
Qed.

End Binary64.

Lemma round_half_even_unique (q : Q) (z : Z) :
  (inject_Z z - (1 # 2) < q)%Q -> (q < inject_Z z + (1 # 2))%Q ->
  round_half_even q = z.
Proof.
  destruct q as [n d].
  unfold round_half_even, Qlt, Qminus, Qplus, Qopp, inject_Z.
  cbn [Qnum Qden]. intros H1 H2.
  pose proof (Z.div_mod n (Zpos d) ltac:(lia)) as Hdm.
  pose proof (Z.mod_pos_bound n (Zpos d) ltac:(lia)) as Hb.
  set (f := (n / Zpos d)%Z) in *. set (r := (n mod Zpos d)%Z) in *.
  set (D := Zpos d) in *. assert (HD : (0 < D)%Z) by (subst D; lia).
  clearbody D f r. subst n.
  assert (Hlo : ((2 * z - 2 * f - 3) * D < 0)%Z) by lia.
  assert (Hhi : (0 < (2 * z + 1 - 2 * f) * D)%Z) by lia.
  assert (Hz : (f <= z <= f + 1)%Z).
  { split.
    - destruct (Z.lt_ge_cases (2 * z + 1 - 2 * f) 1) as [Hc | Hc]; [|lia].
      assert ((2 * z + 1 - 2 * f) * D <= 0)%Z
        by (apply Z.mul_nonpos_nonneg; lia).
      lia.
    - destruct (Z.lt_ge_cases (2 * z - 2 * f - 3) 0) as [Hc | Hc]; [lia|].
      assert (0 <= (2 * z - 2 * f - 3) * D)%Z
        by (apply Z.mul_nonneg_nonneg; lia).
      lia. }
  assert (Hc : z = f \/ z = (f + 1)%Z) by lia. clear Hz Hlo Hhi.
  destruct (2 * r ?= D)%Z eqn:E.
  - apply Z.compare_eq in E. exfalso. destruct Hc; subst z; lia.
  - rewrite Z.compare_lt_iff in E. destruct Hc; subst z; lia.
  - rewrite Z.compare_gt_iff in E. destruct Hc; subst z; lia.
Qed.





(** The fetcher only builds entries the evaluator can read. *)
Lemma fetch_well_formed (w : world) (result : market_data)
    (name symbol : string) (s : store) :
  well_formed result ->
  exists data s',
    fetch w result name symbol s = (Ret data, s') /\ well_formed data.
Proof.
  intros [Hn Hv]. unfold fetch, bind, emit, eprint, emit, ret.
  cbn [file trace].
  destruct (yfinance w symbol) as [| [| row rest]]; cbn [file trace].
  - eexists; eexists; split; [reflexivity | split; assumption].
  - eexists; eexists; split; [reflexivity | split; assumption].
  - destruct (name =? "vix") eqn:Evix.
    + apply String.eqb_eq in Evix. subst name.
      eexists; eexists; split; [reflexivity|]. split.
      * intros nasdaq. rewrite get_set_other by discriminate. apply Hn.
      * intros vix. rewrite get_set_same. intros [= <-]. eexists. reflexivity.
    + eexists; eexists; split; [reflexivity|]. split.
      * intros nasdaq. destruct (String.eqb_spec "nasdaq" name) as [<- | Hne].
        -- rewrite get_set_same. intros [= <-]. eexists. reflexivity.
        -- rewrite get_set_other by exact Hne. apply Hn.
      * intros vix. rewrite get_set_other; [apply Hv|].
        intros <-. discriminate.
Qed.

Lemma fetch_all_well_formed (w : world) (symbols : list (string * string)) :
  forall result s,
    well_formed result ->
    exists data s',
      fetch_all w symbols result s = (Ret data, s') /\ well_formed data.
Proof.
  induction symbols as [| [name symbol] rest IH]; intros result s Hwf.
  - exists result, s. split; [reflexivity | exact Hwf].
  - cbn [fetch_all]. unfold bind.
    destruct (fetch_well_formed w result name symbol s Hwf)
      as (data & s' & E & Hwf').
    rewrite E. apply IH. exact Hwf'.
Qed.

Lemma get_market_data_well_formed (w : world) (s : store) :
  exists data s',
    get_market_data w s = (Ret data, s') /\ well_formed data.
Proof.
  apply fetch_all_well_formed. split; intros ? H; discriminate H.
Qed.

Section Rounding.
Context (rt : runtime).


End Rounding.

(* ================================================================== *)
(** * Properties of the run *)

Lemma bind_ret_inv {A B} (m : M A) (k : A -> M B) (s s' : store) (b : B) :
  bind m k s = (Ret b, s') ->
  exists a s0, m s = (Ret a, s0) /\ k a s0 = (Ret b, s').
Proof.
  unfold bind. destruct (m s) as [[a | e | c] s0]; try discriminate.
  intros H. exists a, s0. split; [reflexivity | exact H].
Qed.

Lemma posts_app (t1 t2 : list event) : posts (t1 ++ t2) = (posts t1 ++ posts t2)%list.
Proof. apply filter_app. Qed.

Lemma writes_app (t1 t2 : list event) :
  writes (t1 ++ t2) = (writes t1 ++ writes t2)%list.
Proof. apply filter_app. Qed.

Lemma quiet_ret {A} (a : A) : quiet (ret a).
Proof.
  intros s. exists []. simpl. rewrite app_nil_r. destruct s; auto.
Qed.

Lemma quiet_raise {A} (e : exn) : quiet (@raise A e).
Proof.
  intros s. exists []. simpl. rewrite app_nil_r. destruct s; auto.
Qed.

Lemma quiet_sys_exit {A} (c : Z) : quiet (@sys_exit A c).
Proof.
  intros s. exists []. simpl. rewrite app_nil_r. destruct s; auto.
Qed.

Lemma quiet_emit (e : event) :
  is_post e = false -> is_write e = false -> quiet (emit e).
Proof.
  intros Hp Hw s. exists [e]. unfold posts, writes. simpl.
  rewrite Hp, Hw. auto.
Qed.

Lemma quiet_bind {A B} (m : M A) (k : A -> M B) :
  quiet m -> (forall a, quiet (k a)) -> quiet (bind m k).
Proof.
  intros Hm Hk s. unfold bind.
  destruct (Hm s) as (t1 & E1 & P1 & W1).
  destruct (m s) as [[a | e | c] s0]; simpl in E1; subst s0.
  - destruct (Hk a (mkStore (file s) (trace s ++ t1))) as (t2 & E2 & P2 & W2).
    exists (t1 ++ t2)%list. rewrite E2. simpl.
    rewrite app_assoc, posts_app, writes_app, P1, P2, W1, W2. auto.
  - exists t1. auto.
  - exists t1. auto.
Qed.

Ltac quiet_auto :=
  repeat match goal with
    | |- quiet (ret _) => apply quiet_ret
    | |- quiet (raise _) => apply quiet_raise
    | |- quiet (sys_exit _) => apply quiet_sys_exit
    | |- quiet (emit _) => apply quiet_emit; reflexivity
    | |- quiet (bind _ _) => apply quiet_bind; [| intros ?]
    | |- quiet (match ?x with _ => _ end) => destruct x
    end.

Lemma quiet_fetch (w : world) (result : market_data) (name symbol : string) :
  quiet (fetch w result name symbol).
Proof. unfold fetch, eprint. quiet_auto. Qed.

Lemma quiet_fetch_all (w : world) (symbols : list (string * string)) :
  forall result, quiet (fetch_all w symbols result).
Proof.
  induction symbols as [| [name symbol] rest IH]; intros result; simpl.
  - apply quiet_ret.
  - apply quiet_bind; [apply quiet_fetch | intros r; apply IH].
Qed.

Lemma quiet_print_data (data : market_data) : quiet (print_data data).
Proof.
  induction data as [| [name v] rest IH]; simpl.
  - apply quiet_ret.
  - apply quiet_bind; [apply quiet_emit; reflexivity | intros _; exact IH].
Qed.

Lemma bind_emit {B} (e : event) (k : unit -> M B) (s : store) :
  bind (emit e) k s = k tt (mkStore (file s) (trace s ++ [e])).
Proof. reflexivity. Qed.

Lemma bind_ret {A B} (a : A) (k : A -> M B) (s : store) :
  bind (ret a) k s = k a s.
Proof. reflexivity. Qed.

Lemma bind_raise {A B} (e : exn) (k : A -> M B) (s : store) :
  bind (raise e) k s = (Raise e, s).
Proof. reflexivity. Qed.

Lemma bind_assoc {A B C} (m : M A) (f : A -> M B) (g : B -> M C) (s : store) :
  bind (bind m f) g s = bind m (fun a => bind (f a) g) s.
Proof. unfold bind. destruct (m s) as [[a | e | c] s']; reflexivity. Qed.

Lemma bind_run {A B} (m : M A) (k : A -> M B) (s s' : store) (a : A) :
  m s = (Ret a, s') -> bind m k s = k a s'.
Proof. intros H. unfold bind. rewrite H. reflexivity. Qed.

Lemma print_data_returns (data : market_data) (s : store) :
  exists tr,
    print_data data s = (Ret tt, mkStore (file s) (trace s ++ tr)).
Proof.
  revert s. induction data as [| [name v] rest IH]; intros s.
  - exists []. rewrite app_nil_r. destruct s; reflexivity.
  - cbn [print_data]. unfold print. rewrite bind_emit.
    destruct (IH (mkStore (file s) (trace s ++ [Stdout (MsgDataLine name)])))
      as (tr & E).
    rewrite E. cbn [file trace]. exists (Stdout (MsgDataLine name) :: tr).
    rewrite <- app_assoc. reflexivity.
Qed.

Lemma writes_nil_not_in (tr : list event) (content : string) :
  writes tr = [] -> ~ In (FileWrite content) tr.
Proof.
  intros H Hin. unfold writes in H.
  assert (Hf : In (FileWrite content) (filter is_write tr))
    by (apply filter_In; split; [exact Hin | reflexivity]).
  rewrite H in Hf. exact Hf.
Qed.

Section Run.
Context (rt : runtime).

Lemma quiet_check_crash_condition (data : market_data) :
  quiet (check_crash_condition rt data).
Proof.
  unfold check_crash_condition, subscript, py_le, py_ge, eprint.
  quiet_auto.
Qed.

Lemma quiet_load_state : quiet (load_state rt).
Proof.
  unfold load_state, eprint. intros [content tr]. unfold bind, read_file.
  cbn [file trace]. destruct content as [text|].
  - destruct (json_loads rt text).
    + exists []. simpl. rewrite app_nil_r. auto.
    + exists [Stderr MsgStateUnreadable]. simpl. auto.
  - exists []. simpl. rewrite app_nil_r. auto.
Qed.

Lemma quiet_prepare (w : world) : quiet (prepare rt w).
Proof.
  unfold prepare, print, eprint, get_market_data, py_get.
  repeat first
    [ apply quiet_fetch_all | apply quiet_print_data
    | apply quiet_check_crash_condition | apply quiet_load_state
    | progress quiet_auto ].
Qed.

(** What a run that reaches the state machine has established. *)
Lemma prepare_inv (w : world) (s s1 : store) (url : string)
    (data : market_data) (is_crash : bool) (trigger : option string)
    (prev_state prev_is_crash : json) :
  prepare rt w s
    = (Ret (url, data, is_crash, trigger, prev_state, prev_is_crash), s1) ->
  (exists d, prev_state = JObj d
             /\ prev_is_crash = Dict.get_default "is_crash" (JBool false) d)
  /\ Dict.get "SLACK_WEBHOOK_URL" (environ w) = Some url
  /\ url <> ""
  /\ data <> []
  /\ (exists sa sb,
        check_crash_condition rt data sa = (Ret (is_crash, trigger), sb))
  /\ (exists sa, load_state rt sa = (Ret prev_state, s1)).
Proof.
  unfold prepare. intros H.
  repeat (apply bind_ret_inv in H; destruct H as (? & ? & ? & H)).
  match goal with v : (bool * option string)%type |- _ => destruct v end.
  repeat (apply bind_ret_inv in H; destruct H as (? & ? & ? & H)).
  unfold ret in H. injection H as -> -> -> -> -> -> ->.
  repeat match goal with
    | H : py_get ?p _ _ _ = _ |- _ =>
        destruct p; try discriminate H; unfold py_get, ret in H;
        injection H as <- <-
    end.
  split; [eauto|].
  repeat match goal with
    | H : match ?x with _ => _ end _ = (Ret _, _) |- _ =>
        destruct x eqn:?; try discriminate H
    end.
  all: repeat match goal with
    | H : ret _ _ = (Ret _, _) |- _ => unfold ret in H; injection H as <- <-
    end.
  all: try match goal with
    | H : bind (eprint _) _ _ = (Ret _, _) |- _ => discriminate H
    end.
  split; [reflexivity|].
  split; [intros E; subst; simpl in *; discriminate|].
  split; [discriminate|].
  split; eauto.
Qed.

Lemma save_state_run (w : world) (state : json) (s : store) :
  save_state rt w state s =
    (Ret tt,
     mkStore (save_file rt w state (file s))
       (trace s ++ save_events rt w state)).
Proof.
  unfold save_state, save_file, save_events.
  destruct (writable w); [|reflexivity].
  destruct (json_dump rt state) as [text []]; cbn [fst snd];
    unfold bind, write_file, eprint, emit, ret; cbn [file trace];
    rewrite <- ?app_assoc; reflexivity.
Qed.

Lemma json_dump_flat (state : json) :
  flat_record state = true -> json_dump rt state = (json_dumps rt state, true).
Proof. intros H. unfold json_dump. rewrite H. reflexivity. Qed.

(** What [json.dump] leaves in the file when it returns is the whole
    text. *)
Lemma json_dump_returned (state : json) :
  snd (json_dump rt state) = true ->
  fst (json_dump rt state) = json_dumps rt state.
Proof.
  unfold json_dump. destruct (flat_record state); [reflexivity|].
  destruct (json_dump_raises rt state); [discriminate | reflexivity].
Qed.

Lemma save_state_flat (w : world) (state : json) (s : store) :
  flat_record state = true ->
  save_state rt w state s =
    (Ret tt,
     if writable w
     then mkStore (Some (json_dumps rt state))
            (trace s ++ [FileWrite (json_dumps rt state)])
     else mkStore (file s) (trace s ++ [Stderr MsgStateUnwritable])).
Proof.
  intros H. rewrite save_state_run. unfold save_file, save_events.
  rewrite (json_dump_flat state H). destruct (writable w); reflexivity.
Qed.

Lemma save_events_quiet (w : world) (state : json) :
  posts (save_events rt w state) = []
  /\ writes (save_events rt w state)
     = if writable w then [FileWrite (fst (json_dump rt state))] else [].
Proof.
  unfold save_events.
  destruct (writable w); [|auto].
  destruct (snd (json_dump rt state)); auto.
Qed.

Lemma send_slack_notification_run (w : world) (message url : string)
    (s : store) :
  send_slack_notification w message url s =
    (Ret tt,
     mkStore (file s)
       (trace s ++ [HttpPost url (payload message); reply_line w])).
Proof.
  unfold send_slack_notification, reply_line, bind, emit, print, eprint.
  cbn [file trace].
  destruct (webhook w) as [status|]; [destruct (status =? 200)%Z|];
    unfold emit; cbn [file trace]; rewrite <- app_assoc; reflexivity.
Qed.

Lemma reply_line_quiet (w : world) :
  is_post (reply_line w) = false /\ is_write (reply_line w) = false.
Proof.
  unfold reply_line.
  destruct (webhook w) as [status|]; [destruct (status =? 200)%Z|]; auto.
Qed.

(** The three branches of the state machine, run on a previous state that
    is a dictionary. *)
Lemma transition_first_detection (w : world) (url : string)
    (data : market_data) (trigger : option string) (prev flag : json)
    (s : store) :
  truthy flag = false ->
  transition rt w url data true trigger prev flag s =
    save_state rt w (state_record true (Some (now w)) (Some (now w)))
      (mkStore (file s)
         (trace s ++ [Stdout MsgFirstDetection;
                      HttpPost url
                        (payload (format_initial_alert rt data trigger));
                      reply_line w])).
Proof.
  intros Hflag. unfold transition. rewrite Hflag. cbn [negb].
  unfold bind at 1. unfold print, emit at 1. cbn [file trace].
  unfold bind. rewrite send_slack_notification_run. cbn [file trace].
  rewrite <- app_assoc. reflexivity.
Qed.

Lemma transition_continuation (w : world) (url : string)
    (data : market_data) (trigger : option string)
    (d : Dict.t json) (flag : json) (s : store) :
  truthy flag = true ->
  transition rt w url data true trigger (JObj d) flag s =
    save_state rt w (JObj (Dict.set "last_checked" (JStr (now w)) d))
      (mkStore (file s)
         (trace s ++ [Stdout MsgContinuing;
                      HttpPost url
                        (payload (format_continuation_alert rt data));
                      reply_line w])).
Proof.
  intros Hflag. unfold transition. rewrite Hflag. cbn [negb].
  unfold bind at 1. unfold print, emit at 1. cbn [file trace].
  unfold bind at 1. rewrite send_slack_notification_run. cbn [file trace].
  unfold copy_with, bind, ret. rewrite <- app_assoc. reflexivity.
Qed.

Lemma transition_no_trigger (w : world) (url : string)
    (data : market_data) (trigger : option string) (prev flag : json)
    (s : store) :
  transition rt w url data false trigger prev flag s =
    save_state rt w (state_record false None (Some (now w)))
      (mkStore (file s)
         (trace s ++ Stdout MsgNormal
            :: (if truthy flag then [Stdout MsgRecovered] else []))).
Proof.
  unfold transition. unfold bind at 1. unfold print, emit at 1.
  cbn [file trace]. unfold bind.
  destruct (truthy flag); unfold emit, ret; cbn [file trace].
  - rewrite <- app_assoc. reflexivity.
  - reflexivity.
Qed.

Lemma transition_returns (w : world) (url : string) (data : market_data)
    (is_crash : bool) (trigger : option string) (d : Dict.t json)
    (flag : json) (s : store) :
  exists s', transition rt w url data is_crash trigger (JObj d) flag s
             = (Ret tt, s').
Proof.
  destruct is_crash.
  - destruct (truthy flag) eqn:Eflag.
    + rewrite transition_continuation by exact Eflag.
      rewrite save_state_run. eauto.
    + rewrite transition_first_detection by exact Eflag.
      rewrite save_state_run. eauto.
  - rewrite transition_no_trigger, save_state_run. eauto.
Qed.

Lemma check_crash_condition_returns (data : market_data) (s : store) :
  well_formed data ->
  exists verdict s', check_crash_condition rt data s = (Ret verdict, s').
Proof.
  intros [Hn Hv].
  destruct (Dict.get "nasdaq" data) as [nasdaq|] eqn:En.
  - destruct (Dict.get "vix" data) as [vix|] eqn:Ev.
    + destruct (Hn nasdaq eq_refl) as [d Hd].
      destruct (Hv vix eq_refl) as [v Hx].
      rewrite (check_crash_condition_present rt data nasdaq vix d v s
                 En Hd Ev Hx).
      eauto.
    + unfold check_crash_condition, Dict.mem. rewrite En, Ev. cbn [negb orb].
      eexists; eexists; reflexivity.
  - unfold check_crash_condition, Dict.mem. rewrite En. cbn [negb orb].
    eexists; eexists; reflexivity.
Qed.

(** Every run ends normally, exits with code 1, or dies of the
    [AttributeError] that a state file holding a JSON value other than an
    object causes; the evaluator never raises on the fetcher's data. *)
Lemma main_outcomes (w : world) (s : store) :
  exists s',
    main rt w s = (Ret tt, s')
    \/ main rt w s = (SysExit 1, s')
    \/ (main rt w s = (Raise AttributeError, s')
        /\ exists text v,
             file s = Some text /\ json_loads rt text = Some v
             /\ forall d, v <> JObj d).
Proof.
  destruct (main rt w s) as [o s'] eqn:E. exists s'.
  unfold main, prepare in E. rewrite !bind_assoc in E.
  unfold print, eprint in E.
  rewrite bind_emit in E. rewrite bind_assoc in E.
  destruct (Dict.get "SLACK_WEBHOOK_URL" (environ w)) as [url|].
  2:{ rewrite bind_assoc, bind_emit in E. injection E as <- <-. auto. }
  destruct (url =? "").
  { rewrite bind_assoc, bind_emit in E. injection E as <- <-. auto. }
  rewrite bind_ret, bind_assoc, bind_emit, bind_assoc in E.
  match type of E with context [bind (get_market_data w) _ ?s0] =>
    destruct (get_market_data_well_formed w s0) as (data & s1 & E1 & Hwf);
    pose proof (quiet_fetch_all w SYMBOLS Dict.empty s0) as (tr1 & Q1 & _)
  end.
  fold (get_market_data w) in Q1. rewrite E1 in Q1. cbn [snd file trace] in Q1.
  rewrite (bind_run _ _ _ _ _ E1), bind_assoc in E.
  destruct data as [| entry data].
  { rewrite bind_assoc, bind_emit in E. injection E as <- <-. auto. }
  rewrite bind_ret, bind_assoc, bind_emit, bind_assoc in E.
  match type of E with context [bind (print_data ?d) _ ?s0] =>
    destruct (print_data_returns d s0) as (tr2 & E2)
  end.
  rewrite (bind_run _ _ _ _ _ E2), bind_assoc in E. cbn [file trace] in E.
  match type of E with context [bind (check_crash_condition rt ?d) _ ?s0] =>
    destruct (check_crash_condition_returns d s0 Hwf)
      as ([is_crash trigger] & s3 & E3);
    pose proof (quiet_check_crash_condition d s0) as (tr3 & Q3 & _)
  end.
  rewrite E3 in Q3. cbn [snd file trace] in Q3. subst s1 s3.
  rewrite (bind_run _ _ _ _ _ E3) in E. cbn [file trace] in E.
  rewrite !bind_assoc in E.
  unfold load_state, read_file in E. rewrite bind_assoc in E.
  unfold bind at 1 in E. cbn [file] in E.
  assert (Hobj : forall (d : Dict.t json) (s0 : store),
            (prepared <-
               (prev_is_crash <- py_get (JObj d) "is_crash" (JBool false);;
                ret (url, entry :: data, is_crash, trigger, JObj d,
                     prev_is_crash));;
             (let '(webhook_url, data, is_crash, trigger, prev_state,
                    prev_is_crash) := prepared in
              transition rt w webhook_url data is_crash trigger prev_state
                prev_is_crash;;
              emit (Stdout MsgDone))) s0 = (o, s') ->
            o = Ret tt).
  { intros d s0 H. rewrite bind_assoc in H. unfold py_get in H.
    rewrite !bind_ret in H. cbv beta iota in H.
    match type of H with
    | context [bind (transition rt w ?u ?dt ?b ?t _ ?f) _ ?s1] =>
        destruct (transition_returns w u dt b t d f s1) as (s4 & E4)
    end.
    rewrite (bind_run _ _ _ _ _ E4) in H. unfold emit in H.
    injection H as <- _. reflexivity. }
  destruct (file s) as [text|] eqn:Efile.
  - destruct (json_loads rt text) as [v|] eqn:Eloads.
    + rewrite bind_ret in E.
      destruct v as [| b | n | x | str | items | d | str];
        try (rewrite bind_assoc in E; unfold py_get in E;
             rewrite bind_raise in E;
             injection E as <- <-; right; right;
             split; [reflexivity|]; exists text; eexists;
             split; [reflexivity|]; split; [exact Eloads|];
             intros d; discriminate).
      rewrite (Hobj _ _ E). auto.
    + unfold eprint in E. rewrite bind_assoc, bind_emit, bind_ret in E.
      unfold default_state in E. rewrite (Hobj _ _ E). auto.
  - rewrite bind_ret in E.
    unfold default_state in E. rewrite (Hobj _ _ E). auto.
Qed.

(** Whatever a run writes to the state file is what [json.dump] leaves of
    an object. *)
Lemma main_persists_objects (w : world) (s : store) :
  exists tr,
    trace (snd (main rt w s)) = (trace s ++ tr)%list
    /\ forall content,
         In (FileWrite content) tr ->
         exists d, content = fst (json_dump rt (JObj d)).
Proof.
  destruct (quiet_prepare w s) as (tr0 & E0 & _ & W0).
  destruct (reply_line_quiet w) as [_ Rw].
  unfold main, bind.
  destruct (prepare rt w s)
    as [[[[[[[url data] is_crash] trigger] prev_state] flag] | e | c] s1]
    eqn:Hprep; cbn [snd] in E0; subst s1.
  2,3: exists tr0; split; [reflexivity|];
       intros content Hin; destruct (writes_nil_not_in _ _ W0 Hin).
  destruct (prepare_inv _ _ _ _ _ _ _ _ _ Hprep)
    as ((d & -> & ->) & _).
  set (flag := Dict.get_default "is_crash" (JBool false) d).
  assert (Hin : forall (tr1 : list event) (st : json) (content : string),
            writes tr1 = [] ->
            In (FileWrite content)
               (tr0 ++ tr1 ++ save_events rt w st ++ [Stdout MsgDone]) ->
            content = fst (json_dump rt st)).
  { intros tr1 st content W1 H. apply in_app_or in H as [H | H];
      [destruct (writes_nil_not_in _ _ W0 H)|].
    apply in_app_or in H as [H | H];
      [destruct (writes_nil_not_in _ _ W1 H)|].
    apply in_app_or in H as [H | [H | []]]; [|discriminate H].
    unfold save_events in H.
    destruct (writable w); [destruct (snd (json_dump rt st))|];
      cbn [In] in H; destruct H as [H | H]; try congruence;
      try contradiction; destruct H as [H | []]; discriminate H. }
  assert (Hsave : forall (tr1 : list event) (st : json),
            trace (snd ((save_state rt w st ;; emit (Stdout MsgDone))
                          (mkStore (file s) ((trace s ++ tr0) ++ tr1))))
            = (trace s ++ tr0 ++ tr1 ++ save_events rt w st
               ++ [Stdout MsgDone])%list).
  { intros tr1 st. unfold bind. rewrite save_state_run. unfold emit.
    cbn [snd trace file]. rewrite <- !app_assoc. reflexivity. }
  destruct is_crash; [destruct (truthy flag) eqn:Eflag|].
  - rewrite transition_continuation by exact Eflag.
    eexists. split; [apply (Hsave [_; _; _])|].
    intros content H. eexists. eapply (Hin [_; _; _]); [|exact H].
    unfold writes. cbn [filter is_write]. rewrite Rw. reflexivity.
  - rewrite transition_first_detection by exact Eflag.
    eexists. split; [apply (Hsave [_; _; _])|].
    intros content H. eexists. eapply (Hin [_; _; _]); [|exact H].
    unfold writes. cbn [filter is_write]. rewrite Rw. reflexivity.
  - rewrite transition_no_trigger.
    eexists. split; [apply (Hsave (_ :: _))|].
    intros content H. eexists. eapply Hin; [|exact H].
    destruct (truthy flag); reflexivity.
Qed.

(** C8. Without the webhook variable, or with an empty one, the run exits
    with code 1 after two printed lines: no request to the data service and
    no post to the webhook has been made, and the state file is as before. *)
Theorem main_exits_without_webhook (w : world) (s : store) :
  Dict.get "SLACK_WEBHOOK_URL" (environ w) = None
  \/ Dict.get "SLACK_WEBHOOK_URL" (environ w) = Some "" ->
  exists tr,
    main rt w s = (SysExit 1, mkStore (file s) (trace s ++ tr))
    /\ tr = [Stdout MsgStart; Stderr MsgNoWebhook]
    /\ filter is_network tr = [].
Proof.
  intros H. exists [Stdout MsgStart; Stderr MsgNoWebhook].
  split; [|split; reflexivity].
  unfold main, prepare, bind, print, eprint, emit, sys_exit.
  cbn [file trace].
  destruct H as [H | H]; rewrite H; cbn [String.eqb file trace];
    rewrite <- app_assoc; reflexivity.
Qed.

(** C2. On a run that reaches the state machine a notification is sent
    exactly when the evaluator triggered, and then exactly one: the initial
    alert if the previous state was no-crash, the continuation alert if it
    was crash.  Without a trigger nothing goes to the network and the only
    effect besides printing is the write of the state file. *)
Theorem main_notifies_iff_triggered (w : world) (s s1 : store)
    (url : string) (data : market_data) (is_crash : bool)
    (trigger : option string) (prev_state prev_is_crash : json) :
  prepare rt w s
    = (Ret (url, data, is_crash, trigger, prev_state, prev_is_crash), s1) ->
  exists s2 tr,
    main rt w s = (Ret tt, s2)
    /\ trace s2 = (trace s1 ++ tr)%list
    /\ posts (trace s1) = posts (trace s)
    /\ posts tr =
         (if is_crash
          then [HttpPost url
                  (payload
                     (if truthy prev_is_crash
                      then format_continuation_alert rt data
                      else format_initial_alert rt data trigger))]
          else [])
    /\ (posts tr <> [] <-> is_crash = true)
    /\ (if is_crash then True
        else filter is_network tr = []
             /\ writes tr =
                  if writable w
                  then [FileWrite
                          (json_dumps rt
                             (state_record false None (Some (now w))))]
                  else []).
Proof.
  intros Hprep.
  destruct (prepare_inv _ _ _ _ _ _ _ _ _ Hprep)
    as ((d & -> & ->) & _ & _ & _ & _ & _).
  destruct (quiet_prepare w s) as (tr0 & E0 & P0 & _).
  rewrite Hprep in E0. cbn [snd] in E0. subst s1. cbn [trace file].
  unfold main, bind. rewrite Hprep.
  destruct (reply_line_quiet w) as [Rp Rw].
  set (flag := Dict.get_default "is_crash" (JBool false) d).
  assert (Hpost : forall (e : event) (tr2 : list event) (m : string),
            posts tr2 = [] ->
            posts (e :: HttpPost url (payload m) :: reply_line w :: tr2)
            = (posts [e] ++ [HttpPost url (payload m)])%list).
  { intros e tr2 m H2. unfold posts in *. cbn [filter is_post].
    rewrite Rp, H2. destruct (is_post e); reflexivity. }
  destruct is_crash.
  - destruct (truthy flag) eqn:Eflag.
    + rewrite transition_continuation by exact Eflag.
      rewrite save_state_run. unfold print, emit. cbn [file trace].
      destruct (save_events_quiet w
                  (JObj (Dict.set "last_checked" (JStr (now w)) d)))
        as [Ps _].
      eexists; eexists; (split; [reflexivity|]); cbn [trace];
        rewrite <- !app_assoc; (split; [reflexivity|]);
        rewrite posts_app, P0, app_nil_r; (split; [reflexivity|]);
        cbn [app];
        rewrite Hpost by (rewrite posts_app, Ps; reflexivity);
        (split; [reflexivity|]); (split; [|exact I]);
        (split; [reflexivity | discriminate]).
    + rewrite transition_first_detection by exact Eflag.
      rewrite save_state_flat by reflexivity.
      unfold print, emit. cbn [file trace].
      destruct (writable w); cbn [file trace];
        eexists; eexists; (split; [reflexivity|]); cbn [trace];
        rewrite <- !app_assoc; (split; [reflexivity|]);
        rewrite posts_app, P0, app_nil_r; (split; [reflexivity|]);
        cbn [app]; rewrite Hpost by reflexivity;
        (split; [reflexivity|]); (split; [|exact I]);
        (split; [reflexivity | discriminate]).
  - rewrite transition_no_trigger.
    rewrite save_state_flat by reflexivity.
    unfold print, emit. cbn [file trace].
    destruct (writable w), (truthy flag); cbn [file trace];
      eexists; eexists; (split; [reflexivity|]); cbn [trace];
      rewrite <- !app_assoc; (split; [reflexivity|]);
      rewrite posts_app, P0, app_nil_r; (split; [reflexivity|]);
      (split; [reflexivity|]);
      (split; [split; [intros H; exfalso; apply H; reflexivity
                      | discriminate]|]);
      (split; reflexivity).
Qed.

(** Setting [last_checked] keeps a flat record flat. *)
Lemma flat_record_set_last_checked (t : string) (d : Dict.t json) :
  flat_record (JObj d) = true ->
  flat_record (JObj (Dict.set "last_checked" (JStr t) d)) = true.
Proof.
  cbn [flat_record]. induction d as [| [k v] d IH]; [reflexivity|].
  cbn [forallb fst snd Dict.set]. intros H.
  apply andb_prop in H as [Hkv Hd].
  destruct ("last_checked" =? k).
  - cbn [forallb fst snd]. rewrite Hd. reflexivity.
  - cbn [forallb fst snd]. rewrite Hkv, (IH Hd). reflexivity.
Qed.


(** C4. When the evaluator does not trigger, whatever the previous state
    says, the record saved is is_crash false, first_detected null and
    last_checked the current time; the file holds it unless the write
    failed. *)
Theorem no_trigger_resets_state (w : world) (s s1 : store)
    (url : string) (data : market_data) (trigger : option string)
    (prev_state prev_is_crash : json) :
  prepare rt w s
    = (Ret (url, data, false, trigger, prev_state, prev_is_crash), s1) ->
  exists s2,
    main rt w s = (Ret tt, s2)
    /\ writes (trace s2) =
         (writes (trace s)
          ++ (if writable w
              then [FileWrite
                      (json_dumps rt
                         (JObj [("is_crash", JBool false);
                                ("first_detected", JNull);
                                ("last_checked", JStr (now w))]))]
              else []))%list
    /\ file s2 =
         (if writable w
          then Some (json_dumps rt
                       (JObj [("is_crash", JBool false);
                              ("first_detected", JNull);
                              ("last_checked", JStr (now w))]))
          else file s).
Proof.
  intros Hprep.
  destruct (quiet_prepare w s) as (tr0 & E0 & _ & W0).
  rewrite Hprep in E0. cbn [snd] in E0. subst s1.
  unfold main, bind. rewrite Hprep.
  rewrite transition_no_trigger. rewrite save_state_flat by reflexivity.
  unfold print, emit, state_record, timestamp. cbn [file trace].
  destruct (writable w), (truthy prev_is_crash); cbn [file trace];
    eexists; (split; [reflexivity|]); cbn [trace file];
    (split; [|reflexivity]);
    rewrite !writes_app, W0; unfold writes; cbn [filter is_write];
    rewrite !app_nil_r; reflexivity.
Qed.

(** C9. [load_state] returns the record with is_crash false and both
    timestamps null when the file is absent and when its text does not
    parse (then with a warning); a text that parses is returned as the
    value it parses to, whatever its shape.  So that record comes back only
    from an absent file, from a text that does not parse, or from a text
    that spells that very record. *)
Theorem load_state_defaults_only_when_absent_or_unparseable (s : store) :
  (file s = None ->
     load_state rt s =
       (Ret (JObj [("is_crash", JBool false);
                   ("first_detected", JNull);
                   ("last_checked", JNull)]), s))
  /\ (forall text,
        file s = Some text -> json_loads rt text = None ->
        load_state rt s =
          (Ret (JObj [("is_crash", JBool false);
                      ("first_detected", JNull);
                      ("last_checked", JNull)]),
           mkStore (file s) (trace s ++ [Stderr MsgStateUnreadable])))
  /\ (forall text state,
        file s = Some text -> json_loads rt text = Some state ->
        load_state rt s = (Ret state, s))
  /\ (forall s',
        load_state rt s =
          (Ret (JObj [("is_crash", JBool false);
                      ("first_detected", JNull);
                      ("last_checked", JNull)]), s') ->
        file s = None
        \/ exists text,
             file s = Some text
             /\ (json_loads rt text = None
                 \/ json_loads rt text
                    = Some (JObj [("is_crash", JBool false);
                                  ("first_detected", JNull);
                                  ("last_checked", JNull)]))).
Proof.
  destruct s as [content tr].
  unfold load_state, bind, read_file, eprint, emit, ret. cbn [file trace].
  split; [|split; [|split]].
  - intros ->. reflexivity.
  - intros text -> ->. reflexivity.
  - intros text state -> ->. reflexivity.
  - intros s' H. destruct content as [text|]; [|auto].
    right. exists text. split; [reflexivity|].
    destruct (json_loads rt text) as [v|]; [|auto].
    injection H as -> _. auto.
Qed.

(** Conversely, the default record comes back only from those two paths,
    or from a file that spells the default record itself. *)
Lemma load_state_default_inv (s s' : store) :
  load_state rt s = (Ret default_state, s') ->
  file s = None
  \/ exists text,
       file s = Some text
       /\ (json_loads rt text = None
           \/ json_loads rt text = Some default_state).
Proof.
  destruct s as [content tr].
  unfold load_state, bind, read_file, eprint, emit, ret. cbn [file trace].
  destruct content as [text|]; [|auto].
  intros H. right. exists text. split; [reflexivity|].
  destruct (json_loads rt text) as [v|]; [|auto].
  injection H as -> _. auto.
Qed.

End Run.

Lemma main_exits_without_webhook_witness :
  exists tr,
    main py world_without_webhook fresh
      = (SysExit 1, mkStore None ([] ++ tr))
    /\ tr = [Stdout MsgStart; Stderr MsgNoWebhook]
    /\ filter is_network tr = [].
Proof.
  apply (main_exits_without_webhook py world_without_webhook fresh).
  left. reflexivity.
Defined.

Lemma main_notifies_iff_triggered_witness :
  exists url data trigger prev_state prev_is_crash s1,
    prepare py (sample_world 100 79 25) fresh
      = (Ret (url, data, true, trigger, prev_state, prev_is_crash), s1)
    /\ exists s2 tr,
         main py (sample_world 100 79 25) fresh = (Ret tt, s2)
         /\ trace s2 = (trace s1 ++ tr)%list
         /\ posts (trace s1) = posts (trace fresh)
         /\ posts tr =
              [HttpPost url
                 (payload
                    (if truthy prev_is_crash
                     then format_continuation_alert py data
                     else format_initial_alert py data trigger))]
         /\ (posts tr <> [] <-> true = true)
         /\ True.
Proof.
  do 6 eexists. split.
  - vm_compute. reflexivity.
  - eapply (main_notifies_iff_triggered py (sample_world 100 79 25) fresh
              _ _ _ true).
    vm_compute. reflexivity.
Defined.



Lemma no_trigger_resets_state_witness :
  exists s2,
    main py (sample_world 100 90 35)
      (stored (state_record true (Some "2024-08-01T09:30:00")
                 (Some "2024-08-04T09:30:00")))
      = (Ret tt, s2)
    /\ file s2 =
         Some (Py.dumps
                 (JObj [("is_crash", JBool false);
                        ("first_detected", JNull);
                        ("last_checked",
                         JStr (now (sample_world 100 90 35)))])).
Proof.
  destruct (no_trigger_resets_state py (sample_world 100 90 35)
              (stored (state_record true (Some "2024-08-01T09:30:00")
                         (Some "2024-08-04T09:30:00")))
              _ _ _ _ _ _ ltac:(vm_compute; reflexivity))
    as (s2 & Hmain & _ & Hfile).
  exists s2. split; [exact Hmain | exact Hfile].
Defined.

Lemma load_state_defaults_only_when_absent_or_unparseable_witness :
  load_state py fresh
    = (Ret (JObj [("is_crash", JBool false);
                  ("first_detected", JNull);
                  ("last_checked", JNull)]), fresh)
  /\ load_state py (mkStore (Some partial_state_text) [])
     = (Ret (JObj [("is_crash", JBool true)]),
        mkStore (Some partial_state_text) [])
  /\ Dict.get "first_detected" [("is_crash", JBool true)] = None.
Proof.
  split; [|split; [|reflexivity]].
  - apply (proj1 (load_state_defaults_only_when_absent_or_unparseable py
                    fresh)).
    reflexivity.
  - apply (proj1 (proj2 (proj2
             (load_state_defaults_only_when_absent_or_unparseable py
                (mkStore (Some partial_state_text) [])))))
      with (text := partial_state_text); reflexivity.
Defined.

(* ================================================================== *)
(** * Properties of the state store on the modelled runtime *)

Lemma plain_state_record (is_crash : bool)
    (first_detected last_checked : option string) :
  plain (state_record is_crash first_detected last_checked) = true.
Proof. destruct first_detected, last_checked; reflexivity. Qed.

Lemma flat_state_record (is_crash : bool)
    (first_detected last_checked : option string) :
  flat_record (state_record is_crash first_detected last_checked) = true.
Proof. destruct first_detected, last_checked; reflexivity. Qed.

(** Any number-free value with distinct keys that [json.dump] writes whole
    survives a save and a load. *)
Lemma save_then_load_plain (w : world) (state : json) (s : store) :
  writable w = true -> plain state = true ->
  snd (json_dump py state) = true ->
  exists s1,
    save_state py w state s = (Ret tt, s1)
    /\ load_state py s1 = (Ret state, s1).
Proof.
  intros Hw Hplain Hreturned. rewrite save_state_run.
  unfold save_file, save_events.
  rewrite Hw, Hreturned, (json_dump_returned py state Hreturned).
  eexists. split; [reflexivity|].
  unfold load_state, bind, read_file. cbn [file json_loads json_dumps py].
  rewrite loads_dumps by exact Hplain. reflexivity.
Qed.

(** C7. A state record of the documented shape that [save_state] has
    written is what [load_state] then returns. *)
Theorem save_then_load_roundtrip (w : world) (is_crash : bool)
    (first_detected last_checked : option string) (s : store) :
  writable w = true ->
  exists s1,
    save_state py w (state_record is_crash first_detected last_checked) s
      = (Ret tt, s1)
    /\ load_state py s1
       = (Ret (state_record is_crash first_detected last_checked), s1).
Proof.
  intros Hw. apply save_then_load_plain; [exact Hw | |].
  - apply plain_state_record.
  - rewrite (json_dump_flat py _ (flat_state_record _ _ _)). reflexivity.
Qed.

Lemma save_then_load_roundtrip_witness :
  exists s1,
    save_state py (sample_world 100 79 25)
      (state_record true (Some "2024-08-01T09:30:00")
         (Some "2024-08-04T09:30:00")) fresh
      = (Ret tt, s1)
    /\ load_state py s1
       = (Ret (state_record true (Some "2024-08-01T09:30:00")
                 (Some "2024-08-04T09:30:00")), s1).
Proof.
  apply (save_then_load_roundtrip (sample_world 100 79 25) true
           (Some "2024-08-01T09:30:00") (Some "2024-08-04T09:30:00") fresh).
  reflexivity.
Defined.

(* ================================================================== *)
(** * The rounding of the drawdown on sample data *)


(** The interval is one of computed drawdowns, not of exact ratios: with a
    high of 20000 and a close of 16001 the exact ratio is -19.995, the
    computed drawdown is the float just above it, -19.99 is stored and
    condition 1 does not trigger. *)
Example computed_drawdown_above_the_interval :
  exists raw stored,
    drawdown [(20000, 20000); (20000, 16001)] = Fin raw
    /\ (-19.995 < raw)%Q
    /\ py_round (Fin raw) 2 = Fin stored
    /\ Py.str_float (Fin stored) = "-19.99"
    /\ fst (check_crash_condition py
              (fetched (sample_world 20000 16001 18)) fresh)
       = Ret (false, None).
Proof.
  do 2 eexists. split; [vm_compute; reflexivity|].
  split; [reflexivity|]. split; [vm_compute; reflexivity|].
  split; vm_compute; reflexivity.
Qed.


(** * Further properties of the code

    ** Computations that do not look at the store *)

(* ================================================================== *)
(** * Store-oblivious computations *)

Lemma oblivious_ret {A} (a : A) : oblivious (ret a).
Proof.
  exists (Ret a), []. intros [f t]. unfold ret. cbn [file trace].
  rewrite app_nil_r. reflexivity.
Qed.

Lemma oblivious_raise {A} (e : exn) : oblivious (@raise A e).
Proof.
  exists (Raise e), []. intros [f t]. unfold raise. cbn [file trace].
  rewrite app_nil_r. reflexivity.
Qed.

Lemma oblivious_sys_exit {A} (c : Z) : oblivious (@sys_exit A c).
Proof.
  exists (SysExit c), []. intros [f t]. unfold sys_exit. cbn [file trace].
  rewrite app_nil_r. reflexivity.
Qed.

Lemma oblivious_emit (e : event) : oblivious (emit e).
Proof. exists (Ret tt), [e]. intros s. reflexivity. Qed.

Lemma oblivious_bind {A B} (m : M A) (k : A -> M B) :
  oblivious m -> (forall a, oblivious (k a)) -> oblivious (bind m k).
Proof.
  intros (o & tr & Hm) Hk. destruct o as [a | e | c].
  - destruct (Hk a) as (o' & tr' & Hka). exists o', (tr ++ tr')%list.
    intros s. unfold bind. rewrite Hm, Hka. cbn [file trace].
    rewrite app_assoc. reflexivity.
  - exists (Raise e), tr. intros s. unfold bind. rewrite Hm. reflexivity.
  - exists (SysExit c), tr. intros s. unfold bind. rewrite Hm. reflexivity.
Qed.

Ltac oblivious_auto :=
  repeat match goal with
    | |- oblivious (ret _) => apply oblivious_ret
    | |- oblivious (raise _) => apply oblivious_raise
    | |- oblivious (sys_exit _) => apply oblivious_sys_exit
    | |- oblivious (emit _) => apply oblivious_emit
    | |- oblivious (bind _ _) => apply oblivious_bind; [| intros ?]
    | |- oblivious (match ?x with _ => _ end) => destruct x
    end.

Lemma oblivious_fetch_all (w : world) (symbols : list (string * string)) :
  forall result, oblivious (fetch_all w symbols result).
Proof.
  induction symbols as [| [name symbol] rest IH]; intros result;
    cbn [fetch_all].
  - apply oblivious_ret.
  - apply oblivious_bind; [| intros r; apply IH].
    unfold fetch, eprint. oblivious_auto.
Qed.

Lemma oblivious_print_data (data : market_data) : oblivious (print_data data).
Proof.
  induction data as [| [name v] rest IH]; cbn [print_data].
  - apply oblivious_ret.
  - apply oblivious_bind; [apply oblivious_emit | intros _; exact IH].
Qed.

Lemma oblivious_check_crash_condition (rt : runtime) (data : market_data) :
  oblivious (check_crash_condition rt data).
Proof.
  unfold check_crash_condition, subscript, py_le, py_ge, eprint.
  oblivious_auto.
Qed.

(** Wherever it starts, the fetcher returns [fetched w]. *)
Lemma get_market_data_fetched (w : world) (s : store) :
  exists tr,
    get_market_data w s
      = (Ret (fetched w), mkStore (file s) (trace s ++ tr))
    /\ posts tr = [] /\ writes tr = [].
Proof.
  destruct (oblivious_fetch_all w SYMBOLS Dict.empty) as (o & tr & H).
  fold (get_market_data w) in H.
  destruct (get_market_data_well_formed w fresh) as (data & s' & E & _).
  unfold fetched. rewrite E. cbn [fst].
  rewrite H in E. injection E as -> _.
  destruct (quiet_fetch_all w SYMBOLS Dict.empty s) as (tr' & Q & P & W).
  fold (get_market_data w) in Q. rewrite H in Q. cbn [snd] in Q.
  injection Q as Q. apply app_inv_head in Q. subst tr'.
  exists tr. rewrite H. auto.
Qed.

Lemma fetched_well_formed (w : world) : well_formed (fetched w).
Proof.
  destruct (get_market_data_well_formed w fresh) as (data & s' & E & Hwf).
  unfold fetched. rewrite E. exact Hwf.
Qed.

(** Wherever it starts, the evaluator returns [verdict rt w] on the fetched
    data. *)
Lemma check_crash_condition_verdict (rt : runtime) (w : world) (s : store) :
  exists tr,
    check_crash_condition rt (fetched w) s
      = (Ret (verdict rt w), mkStore (file s) (trace s ++ tr))
    /\ posts tr = [] /\ writes tr = [].
Proof.
  destruct (oblivious_check_crash_condition rt (fetched w)) as (o & tr & H).
  destruct (check_crash_condition_returns rt (fetched w) fresh
              (fetched_well_formed w)) as (v & s' & E).
  unfold verdict. rewrite E. cbn [fst].
  rewrite H in E. injection E as -> _.
  destruct (quiet_check_crash_condition rt (fetched w) s)
    as (tr' & Q & P & W).
  rewrite H in Q. cbn [snd] in Q.
  injection Q as Q. apply app_inv_head in Q. subst tr'.
  exists tr. rewrite H. auto.
Qed.

(** ** The run in a ready world *)

(* ================================================================== *)
(** * Runs that reach the state machine *)

Lemma webhook_url_configured (w : world) :
  webhook_url w <> "" ->
  Dict.get "SLACK_WEBHOOK_URL" (environ w) = Some (webhook_url w)
  /\ (webhook_url w =? "") = false.
Proof.
  unfold webhook_url, Dict.get_default.
  destruct (Dict.get "SLACK_WEBHOOK_URL" (environ w)) as [url|];
    intros H; [|contradiction].
  split; [reflexivity|]. apply String.eqb_neq. exact H.
Qed.

Lemma load_state_file (rt : runtime) (s s' : store) :
  file s = file s' -> fst (load_state rt s) = fst (load_state rt s').
Proof.
  destruct s as [f t], s' as [f' t']. cbn [file]. intros <-.
  unfold load_state, bind, read_file, eprint, emit, ret. cbn [file trace].
  destruct f as [text|]; [|reflexivity].
  destruct (json_loads rt text); reflexivity.
Qed.

Lemma load_state_returns (rt : runtime) (s : store) :
  exists v, fst (load_state rt s) = Ret v.
Proof.
  destruct s as [f t].
  unfold load_state, bind, read_file, eprint, emit, ret. cbn [file trace].
  destruct f as [text|]; [|eexists; reflexivity].
  destruct (json_loads rt text); eexists; reflexivity.
Qed.

(** In a ready world the run up to the state machine is determined by the
    world and by what [load_state] returns. *)
Lemma prepare_ready (rt : runtime) (w : world) (s : store) (v : json) :
  ready w ->
  fst (load_state rt s) = Ret v ->
  exists tr,
    posts tr = [] /\ writes tr = []
    /\ prepare rt w s =
         (match v with
          | JObj d =>
              Ret (webhook_url w, fetched w, fst (verdict rt w),
                   snd (verdict rt w), v,
                   Dict.get_default "is_crash" (JBool false) d)
          | _ => Raise AttributeError
          end,
          mkStore (file s) (trace s ++ tr)).
Proof.
  intros [Hurl Hdata] Hload.
  destruct (webhook_url_configured w Hurl) as [Eurl Enonempty].
  destruct (quiet_prepare rt w s) as (tr & Q & P & W).
  exists tr. split; [exact P|]. split; [exact W|].
  destruct (prepare rt w s) as [o s1] eqn:E. cbn [snd] in Q. subst s1.
  f_equal.
  unfold prepare in E. unfold print, eprint in E.
  rewrite bind_emit in E.
  rewrite Eurl, Enonempty in E.
  rewrite bind_ret, bind_emit in E.
  match type of E with context [bind (get_market_data w) _ ?s0] =>
    destruct (get_market_data_fetched w s0) as (tr1 & E1 & _)
  end.
  rewrite (bind_run _ _ _ _ _ E1) in E.
  destruct (fetched w) as [| entry rest] eqn:Ef; [contradiction|].
  rewrite bind_ret, bind_emit in E.
  match type of E with context [bind (print_data ?d) _ ?s0] =>
    destruct (print_data_returns d s0) as (tr2 & E2)
  end.
  rewrite (bind_run _ _ _ _ _ E2) in E. rewrite <- Ef in E.
  match type of E with
  | context [bind (check_crash_condition rt (fetched w)) _ ?s0] =>
      destruct (check_crash_condition_verdict rt w s0) as (tr3 & E3 & _)
  end.
  rewrite (bind_run _ _ _ _ _ E3) in E.
  destruct (verdict rt w) as [is_crash trigger]. cbn [fst snd].
  match type of E with context [bind (load_state rt) _ ?s0] =>
    pose proof (load_state_file rt s0 s eq_refl) as Hsame;
    destruct (quiet_load_state rt s0) as (tr4 & Q4 & _);
    destruct (load_state rt s0) as [o4 s4] eqn:E4
  end.
  cbn [fst snd] in Hsame, Q4. rewrite Hload in Hsame. subst o4.
  rewrite (bind_run _ _ _ _ _ E4) in E.
  destruct v; unfold py_get in E;
    try (rewrite bind_raise in E; injection E as <- _; reflexivity).
  rewrite !bind_ret in E. unfold ret in E. rewrite Ef in E.
  injection E as <- _. reflexivity.
Qed.

(** A run in a ready world on a state file that loads as a dictionary:
    the whole run, event by event after the quiet prefix. *)
Lemma main_ready (rt : runtime) (w : world) (s : store) (d : Dict.t json) :
  ready w ->
  fst (load_state rt s) = Ret (JObj d) ->
  exists tr,
    posts tr = [] /\ writes tr = []
    /\ main rt w s =
         (Ret tt,
          mkStore (save_file rt w (saved_state rt w d) (file s))
            (trace s ++ tr ++ machine_events rt w d)).
Proof.
  intros Hready Hload.
  destruct (prepare_ready rt w s (JObj d) Hready Hload) as (tr & P & W & E).
  exists tr. split; [exact P|]. split; [exact W|].
  unfold main, bind. rewrite E.
  unfold machine_events, saved_state.
  set (flag := Dict.get_default "is_crash" (JBool false) d).
  destruct (verdict rt w) as [is_crash trigger]. cbn [fst snd].
  destruct is_crash; [destruct (truthy flag) eqn:Eflag|].
  - rewrite transition_continuation by exact Eflag.
    rewrite save_state_run. unfold print, emit.
    cbn [file trace]. rewrite <- !app_assoc. reflexivity.
  - rewrite transition_first_detection by exact Eflag.
    rewrite save_state_run. unfold print, emit.
    cbn [file trace]. rewrite <- !app_assoc. reflexivity.
  - rewrite transition_no_trigger.
    rewrite save_state_run. unfold print, emit.
    destruct (truthy flag); cbn [file trace];
      rewrite <- !app_assoc; reflexivity.
Qed.

(** Only the continuation branch saves anything but a flat record. *)
Lemma saved_state_flat (rt : runtime) (w : world) (d : Dict.t json) :
  fst (verdict rt w) = false
  \/ truthy (Dict.get_default "is_crash" (JBool false) d) = false
  \/ flat_record (JObj d) = true ->
  json_dump rt (saved_state rt w d)
  = (json_dumps rt (saved_state rt w d), true).
Proof.
  intros H. apply json_dump_flat. unfold saved_state.
  destruct (fst (verdict rt w)); [|reflexivity].
  destruct (truthy (Dict.get_default "is_crash" (JBool false) d));
    [|reflexivity].
  destruct H as [H | [H | H]]; try discriminate H.
  apply flat_record_set_last_checked. exact H.
Qed.

Lemma machine_events_posts (rt : runtime) (w : world) (d : Dict.t json) :
  posts (machine_events rt w d) =
    if fst (verdict rt w) then
      [HttpPost (webhook_url w)
         (payload
            (if truthy (Dict.get_default "is_crash" (JBool false) d)
             then format_continuation_alert rt (fetched w)
             else format_initial_alert rt (fetched w)
                    (snd (verdict rt w))))]
    else [].
Proof.
  unfold machine_events. rewrite !posts_app.
  destruct (reply_line_quiet w) as [Rp _].
  destruct (save_events_quiet rt w (saved_state rt w d)) as [Ps _].
  rewrite Ps. cbn [app]. rewrite app_nil_r.
  destruct (fst (verdict rt w)).
  - unfold posts. cbn [filter is_post]. rewrite Rp. reflexivity.
  - destruct (truthy _); reflexivity.
Qed.

Lemma machine_events_writes (rt : runtime) (w : world) (d : Dict.t json) :
  writes (machine_events rt w d) =
    if writable w
    then [FileWrite (fst (json_dump rt (saved_state rt w d)))]
    else [].
Proof.
  unfold machine_events. rewrite !writes_app.
  destruct (reply_line_quiet w) as [_ Rw].
  destruct (save_events_quiet rt w (saved_state rt w d)) as [_ Ws].
  rewrite Ws.
  assert (Hhead : writes
            (if fst (verdict rt w) then
               [Stdout (if truthy (Dict.get_default "is_crash" (JBool false) d)
                        then MsgContinuing else MsgFirstDetection);
                HttpPost (webhook_url w)
                  (payload
                     (if truthy (Dict.get_default "is_crash" (JBool false) d)
                      then format_continuation_alert rt (fetched w)
                      else format_initial_alert rt (fetched w)
                             (snd (verdict rt w))));
                reply_line w]
             else Stdout MsgNormal
                  :: (if truthy (Dict.get_default "is_crash" (JBool false) d)
                      then [Stdout MsgRecovered] else [])) = []).
  { destruct (fst (verdict rt w)).
    - unfold writes. cbn [filter is_write]. rewrite Rw. reflexivity.
    - destruct (truthy _); reflexivity. }
  rewrite Hhead. cbn [app]. rewrite app_nil_r. reflexivity.
Qed.

(** ** Runs that stop before the state machine *)

Lemma prepare_not_ready (rt : runtime) (w : world) (s : store) :
  webhook_url w = "" \/ fetched w = [] ->
  fst (prepare rt w s) = SysExit 1.
Proof.
  intros H.
  destruct (prepare rt w s) as [o s1] eqn:E. cbn [fst].
  unfold prepare in E. unfold print, eprint in E.
  rewrite bind_emit in E.
  destruct (Dict.get "SLACK_WEBHOOK_URL" (environ w)) as [url|] eqn:Eurl.
  - destruct (url =? "") eqn:Eempty.
    + unfold bind, emit, sys_exit in E. injection E as <- _. reflexivity.
    + rewrite bind_ret, bind_emit in E.
      destruct H as [H | H].
      * unfold webhook_url, Dict.get_default in H. rewrite Eurl in H.
        subst url. discriminate Eempty.
      * match type of E with context [bind (get_market_data w) _ ?s0] =>
          destruct (get_market_data_fetched w s0) as (tr1 & E1 & _)
        end.
        rewrite (bind_run _ _ _ _ _ E1) in E. rewrite H in E.
        unfold bind, emit, sys_exit in E. injection E as <- _. reflexivity.
  - unfold bind, emit, sys_exit in E. injection E as <- _. reflexivity.
Qed.

Lemma main_not_ready (rt : runtime) (w : world) (s : store) :
  webhook_url w = "" \/ fetched w = [] ->
  exists tr,
    posts tr = [] /\ writes tr = []
    /\ main rt w s = (SysExit 1, mkStore (file s) (trace s ++ tr)).
Proof.
  intros H. pose proof (prepare_not_ready rt w s H) as Hout.
  destruct (quiet_prepare rt w s) as (tr & Q & P & W).
  exists tr. split; [exact P|]. split; [exact W|].
  unfold main, bind.
  destruct (prepare rt w s) as [o s1]. cbn [fst snd] in *. subst o s1.
  reflexivity.
Qed.

(** A state file that holds a JSON value other than an object stops the
    run at [prev_state.get]. *)
Lemma main_not_object (rt : runtime) (w : world) (s : store) (v : json) :
  ready w ->
  fst (load_state rt s) = Ret v ->
  (forall d, v <> JObj d) ->
  exists tr,
    posts tr = [] /\ writes tr = []
    /\ main rt w s = (Raise AttributeError, mkStore (file s) (trace s ++ tr)).
Proof.
  intros Hready Hload Hshape.
  destruct (prepare_ready rt w s v Hready Hload) as (tr & P & W & E).
  exists tr. split; [exact P|]. split; [exact W|].
  unfold main, bind. rewrite E.
  destruct v; try reflexivity. exfalso. eapply Hshape. reflexivity.
Qed.

(** Every run either stops before the state machine, having posted and
    written nothing, or is a run in a ready world on a dictionary. *)
Lemma main_cases (rt : runtime) (w : world) (s : store) :
  (exists tr,
     posts tr = [] /\ writes tr = []
     /\ (main rt w s = (SysExit 1, mkStore (file s) (trace s ++ tr))
         \/ main rt w s
            = (Raise AttributeError, mkStore (file s) (trace s ++ tr))))
  \/ (ready w /\ exists d, fst (load_state rt s) = Ret (JObj d)).
Proof.
  destruct (string_dec (webhook_url w) "") as [Hurl | Hurl].
  { left. destruct (main_not_ready rt w s (or_introl Hurl))
      as (tr & P & W & E). eauto 6. }
  destruct (fetched w) as [| entry rest] eqn:Ef.
  { left. destruct (main_not_ready rt w s (or_intror Ef))
      as (tr & P & W & E). eauto 6. }
  assert (Hready : ready w).
  { split; [exact Hurl|]. rewrite Ef. discriminate. }
  destruct (load_state_returns rt s) as [v Hload].
  destruct v as [| b | z | x | t | items | d | t].
  7: { right. split; [exact Hready|]. eauto. }
  all: left;
    destruct (main_not_object rt w s _ Hready Hload) as (tr & P & W & E);
    [discriminate | eauto 6].
Qed.

(** ** What the fetcher stores *)

Ltac by_history w :=
  destruct (yfinance w "^NDX") as [| [| ? ?]];
  destruct (yfinance w "^GSPC") as [| [| ? ?]];
  destruct (yfinance w "^VIX") as [| [| ? ?]].

Lemma fetched_nasdaq (w : world) :
  Dict.get "nasdaq" (fetched w) = entry "nasdaq" "^NDX" (yfinance w "^NDX").
Proof.
  unfold fetched, get_market_data, SYMBOLS, fetch_all, fetch, bind, emit,
    eprint, ret, entry.
  by_history w; reflexivity.
Qed.

Lemma fetched_sp500 (w : world) :
  Dict.get "sp500" (fetched w) = entry "sp500" "^GSPC" (yfinance w "^GSPC").
Proof.
  unfold fetched, get_market_data, SYMBOLS, fetch_all, fetch, bind, emit,
    eprint, ret, entry.
  by_history w; reflexivity.
Qed.

Lemma fetched_vix (w : world) :
  Dict.get "vix" (fetched w) = entry "vix" "^VIX" (yfinance w "^VIX").
Proof.
  unfold fetched, get_market_data, SYMBOLS, fetch_all, fetch, bind, emit,
    eprint, ret, entry.
  by_history w; reflexivity.
Qed.

Lemma fetched_keys (w : world) :
  Dict.keys (fetched w)
  = map fst (filter (fun p => answers w (snd p)) SYMBOLS).
Proof.
  unfold fetched, get_market_data, SYMBOLS, fetch_all, fetch, bind, emit,
    eprint, ret, answers. cbn [filter map fst snd].
  by_history w; reflexivity.
Qed.

Lemma fetched_requests (w : world) (s : store) :
  snd (get_market_data w s)
  = mkStore (file s)
      (trace s
       ++ [YfHistory "^NDX"]
       ++ (if answers w "^NDX" then [] else
             [Stderr (match yfinance w "^NDX" with
                      | HistoryRaises => MsgFetchError "^NDX"
                      | _ => MsgFetchEmpty "^NDX" end)])
       ++ [YfHistory "^GSPC"]
       ++ (if answers w "^GSPC" then [] else
             [Stderr (match yfinance w "^GSPC" with
                      | HistoryRaises => MsgFetchError "^GSPC"
                      | _ => MsgFetchEmpty "^GSPC" end)])
       ++ [YfHistory "^VIX"]
       ++ (if answers w "^VIX" then [] else
             [Stderr (match yfinance w "^VIX" with
                      | HistoryRaises => MsgFetchError "^VIX"
                      | _ => MsgFetchEmpty "^VIX" end)])).
Proof.
  unfold get_market_data, SYMBOLS, fetch_all, fetch, bind, eprint, emit,
    ret, answers.
  by_history w; cbn -[py_round current_price high_52w drawdown app];
    rewrite <- ?app_assoc; reflexivity.
Qed.

(** ** Rounding and the drawdown *)

(** [series.max()] is at least every element. *)
Lemma fold_max_le (xs : list Q) (m x : Q) :
  (x <= m)%Q \/ In x xs ->
  (x <= fold_left (fun m y => if Qle_bool m y then y else m) xs m)%Q.
Proof.
  revert m. induction xs as [| y xs IH]; intros m H; cbn [fold_left].
  - destruct H as [H | []]. exact H.
  - apply IH. destruct (Qle_bool m y) eqn:E.
    + apply Qle_bool_iff in E.
      destruct H as [H | [-> | H]]; [left; lra | left; lra | right; exact H].
    + assert (Hlt : (y < m)%Q).
      { apply Qnot_le_lt. intros Hle. apply Qle_bool_iff in Hle. congruence. }
      destruct H as [H | [-> | H]]; [left; lra | left; lra | right; exact H].
Qed.

Lemma series_max_ge (xs : list Q) (x : Q) :
  In x xs -> (x <= series_max xs)%Q.
Proof.
  destruct xs as [| y xs]; [intros []|].
  intros [-> | H]; unfold series_max; apply fold_max_le.
  - left. lra.
  - right. exact H.
Qed.

Lemma iloc_last_app {A} (n : nat) (old recent : list A) :
  List.length recent = n -> iloc_last n (old ++ recent) = recent.
Proof.
  intros H. unfold iloc_last. rewrite length_app, H.
  replace (List.length old + n - n)%nat with (List.length old + 0)%nat by lia.
  rewrite skipn_app, Nat.add_0_r, skipn_all, Nat.sub_diag. reflexivity.
Qed.

Lemma iloc_last_keeps_last {A} (n : nat) (old : list A) (x : A) :
  (0 < n)%nat -> In x (iloc_last n (old ++ [x])).
Proof.
  intros Hn. unfold iloc_last. rewrite length_app. cbn [List.length].
  rewrite skipn_app.
  apply in_or_app. right.
  replace (List.length old + 1 - n - List.length old)%nat with 0%nat by lia.
  left. reflexivity.
Qed.

Lemma last_app_nonempty {A} (old recent : list A) (d : A) :
  recent <> [] -> last (old ++ recent) d = last recent d.
Proof.
  intros H. induction old as [| a old IH]; [reflexivity|].
  cbn [app]. destruct (old ++ recent)%list eqn:E.
  - destruct old; [cbn in E; contradiction | discriminate E].
  - cbn [last]. cbn [last] in IH. exact IH.
Qed.

Lemma high_52w_ge_last (old : list (Q * Q)) (high close : Q) :
  exists m, high_52w (old ++ [(high, close)]) = Fin m /\ (high <= m)%Q.
Proof.
  unfold high_52w.
  destruct (LOOKBACK_DAYS <=? List.length (old ++ [(high, close)]))%nat;
    eexists; (split; [reflexivity|]); apply series_max_ge.
  - apply (in_map fst _ (high, close)).
    apply iloc_last_keeps_last. unfold LOOKBACK_DAYS. lia.
  - apply (in_map fst _ (high, close)). apply in_or_app. right. left.
    reflexivity.
Qed.

Lemma py_round_2 (q : Q) :
  py_round (Fin q) 2
  = Fin (fl (inject_Z (round_half_even (fl (q * 100))) / 100)).
Proof. reflexivity. Qed.

(** The quotient by the high is at least -1 also after the roundings: the
    difference is at least [- m (1 + 2 ^ -53)], and [- (1 + 2 ^ -53)] lies
    half way between two floats, of which -1 has the even mantissa. *)
Lemma drawdown_range_raw (old : list (Q * Q)) (high close : Q) :
  (0 < high)%Q -> (0 <= close)%Q -> (close <= high)%Q ->
  exists q,
    drawdown (old ++ [(high, close)]) = Fin q
    /\ (-100 <= q)%Q /\ (q <= 0)%Q.
Proof.
  intros Hpos Hclose Hle.
  destruct (high_52w_ge_last old high close) as (m & Em & Hm).
  unfold drawdown. rewrite Em.
  unfold current_price. rewrite last_last. cbn [snd].
  unfold num_sub, num_div.
  assert (Hm0 : Qeq_bool m 0 = false).
  { destruct (Qeq_bool m 0) eqn:E; [|reflexivity].
    apply Qeq_bool_iff in E. lra. }
  rewrite Hm0. unfold num_mul. eexists. split; [reflexivity|].
  assert (Ht : (0 < / m)%Q) by (apply Qinv_lt_0_compat; lra).
  assert (Hone : (m * / m == 1)%Q) by (apply Qmult_inv_r; lra).
  set (a := fl (close - m)).
  assert (Ha0 : (a <= 0)%Q) by (apply fl_nonpos; lra).
  assert (Ha1 : (- (m * (1 + pow2 (-53))) <= a)%Q).
  { assert (H1 : (fl (- m) <= a)%Q) by (apply fl_mono; lra).
    assert (H2 : (fl (- m) == - fl (- - m))%Q) by (apply fl_neg_eq; lra).
    assert (H3 : fl (- - m) = fl m) by (apply fl_proper; ring).
    rewrite H3 in H2.
    pose proof (fl_above m ltac:(lra)) as H4. lra. }
  unfold Qdiv. set (b := fl (a * / m)).
  assert (Hb0 : (b <= 0)%Q).
  { apply fl_nonpos.
    setoid_replace (a * / m)%Q with (- (- a * / m))%Q by ring.
    assert (0 <= - a * / m)%Q by (apply Qmult_le_0_compat; lra). lra. }
  assert (Hb1 : (-1 <= b)%Q).
  { assert (H1 : (- (1 + pow2 (-53)) <= a * / m)%Q).
    { assert (H : (0 <= (a + m * (1 + pow2 (-53))) * / m)%Q)
        by (apply Qmult_le_0_compat; lra).
      setoid_replace ((a + m * (1 + pow2 (-53))) * / m)%Q
        with (a * / m + m * / m * (1 + pow2 (-53)))%Q in H by ring.
      rewrite Hone in H. lra. }
    apply fl_mono in H1. fold b in H1.
    assert (E : fl (- (1 + pow2 (-53))) = (-1)%Q)
      by (vm_compute; reflexivity).
    rewrite E in H1. exact H1. }
  split.
  - assert (H1 : (fl (-100) <= fl (b * 100))%Q) by (apply fl_mono; lra).
    assert (E : fl (-100) = (-100)%Q) by (vm_compute; reflexivity).
    rewrite E in H1. exact H1.
  - apply fl_nonpos. lra.
Qed.

(* ================================================================== *)
(** * Further properties of the fetcher *)

(** X1. [get_market_data] always returns a dictionary, and each instrument
    is handled on its own: the result has an entry for exactly the
    instruments whose history came back with at least one row, in the order
    nasdaq, sp500, vix, and the entry holds the rounded figures of that
    history.  A request that raises or comes back empty only drops its own
    instrument. *)
Theorem get_market_data_by_symbol (w : world) (s : store) :
  exists data s',
    get_market_data w s = (Ret data, s')
    /\ Dict.keys data
       = map fst (filter (fun p => answers w (snd p)) SYMBOLS)
    /\ Dict.get "nasdaq" data = entry "nasdaq" "^NDX" (yfinance w "^NDX")
    /\ Dict.get "sp500" data = entry "sp500" "^GSPC" (yfinance w "^GSPC")
    /\ Dict.get "vix" data = entry "vix" "^VIX" (yfinance w "^VIX").
Proof.
  destruct (get_market_data_fetched w s) as (tr & E & _).
  exists (fetched w). eexists. split; [exact E|].
  split; [apply fetched_keys|].
  split; [apply fetched_nasdaq|].
  split; [apply fetched_sp500 | apply fetched_vix].
Qed.

(** X2. Whatever the data service does, [get_market_data] asks it for each
    of the three symbols exactly once, in the order ^NDX, ^GSPC, ^VIX,
    prints one line for each symbol without data and nothing else, and
    neither posts nor touches the state file. *)
Theorem get_market_data_asks_each_symbol_once (w : world) (s : store) :
  exists tr,
    snd (get_market_data w s) = mkStore (file s) (trace s ++ tr)
    /\ requests tr = [YfHistory "^NDX"; YfHistory "^GSPC"; YfHistory "^VIX"]
    /\ List.length tr
       = (3 + List.length
                (filter (fun p => negb (answers w (snd p))) SYMBOLS))%nat
    /\ posts tr = [] /\ writes tr = [].
Proof.
  eexists. split; [apply fetched_requests|].
  unfold SYMBOLS. cbn [filter snd].
  destruct (answers w "^NDX"), (answers w "^GSPC"), (answers w "^VIX");
    repeat split; reflexivity.
Qed.

(** X3. When the last session closed at or below its high, with a positive
    high and a close that is not negative, the drawdown computed from the
    history is a finite number between -100 and 0, and so is the rounded
    drawdown that is stored. *)
Theorem drawdown_between_minus_100_and_0 (old : list (Q * Q))
    (high close : Q) :
  (0 < high)%Q -> (0 <= close)%Q -> (close <= high)%Q ->
  exists q r,
    drawdown (old ++ [(high, close)]) = Fin q
    /\ (-100 <= q)%Q /\ (q <= 0)%Q
    /\ py_round (drawdown (old ++ [(high, close)])) 2 = Fin r
    /\ (-100 <= r)%Q /\ (r <= 0)%Q.
Proof.
  intros Hpos Hclose Hle.
  destruct (drawdown_range_raw old high close Hpos Hclose Hle)
    as (q & E & Hlo & Hhi).
  exists q. eexists. rewrite E, py_round_2.
  split; [reflexivity|]. split; [exact Hlo|]. split; [exact Hhi|].
  split; [reflexivity|].
  assert (F1 : (-10000 <= fl (q * 100))%Q).
  { assert (H : (fl (-10000) <= fl (q * 100))%Q) by (apply fl_mono; lra).
    assert (E0 : fl (-10000) = (-10000)%Q) by (vm_compute; reflexivity).
    rewrite E0 in H. exact H. }
  assert (F2 : (fl (q * 100) <= 0)%Q) by (apply fl_nonpos; lra).
  assert (H1 : (-10000 <= round_half_even (fl (q * 100)))%Z)
    by (apply round_half_even_ge; exact F1).
  assert (H2 : (round_half_even (fl (q * 100)) <= 0)%Z)
    by (apply round_half_even_le; exact F2).
  set (z := round_half_even (fl (q * 100))) in *.
  assert (G1 : (-100 <= inject_Z z / 100)%Q).
  { apply Qle_shift_div_l; [reflexivity|].
    change (-100 * 100)%Q with (inject_Z (-10000)).
    rewrite <- Zle_Qle. exact H1. }
  assert (G2 : (inject_Z z / 100 <= 0)%Q).
  { apply Qle_shift_div_r; [reflexivity|].
    change (0 * 100)%Q with (inject_Z 0).
    rewrite <- Zle_Qle. exact H2. }
  split.
  - assert (H : (fl (-100) <= fl (inject_Z z / 100))%Q)
      by (apply fl_mono; exact G1).
    assert (E0 : fl (-100) = (-100)%Q) by (vm_compute; reflexivity).
    rewrite E0 in H. exact H.
  - apply fl_nonpos. exact G2.
Qed.

(** X4. A drawdown between -100 and 0 is stored as the float nearest to a
    whole number of hundredths, and the stored number is within 0.005, up
    to a rounding error of less than 10 ^ -13, of the computed one.  The
    bound 0.005 itself is exceeded: the drawdown computed from a high of
    11800 and a close of 10030.59, a float just above -14.995, is stored
    as -15.0. *)
Theorem stored_drawdown_near_computed (q : Q) :
  (-100 <= q)%Q -> (q <= 0)%Q ->
  exists z r,
    py_round (Fin q) 2 = Fin r
    /\ r = fl (inject_Z z / 100)
    /\ (-10000 <= z <= 0)%Z
    /\ (q - 0.005 - 0.0000000000001 <= r)%Q
    /\ (r <= q + 0.005 + 0.0000000000001)%Q.
Proof.
  intros Hlo Hhi. rewrite py_round_2.
  set (x := q * 100).
  destruct (fl_near_nonpos x 10000 ltac:(unfold x; lra) ltac:(unfold x; lra))
    as [X1 X2].
  assert (F1 : -10000 <= fl x).
  { assert (H : fl (-10000) <= fl x) by (apply fl_mono; unfold x; lra).
    assert (E0 : fl (-10000) = -10000) by (vm_compute; reflexivity).
    rewrite E0 in H. exact H. }
  assert (F2 : fl x <= 0) by (apply fl_nonpos; unfold x; lra).
  assert (H1 : (-10000 <= round_half_even (fl x))%Z)
    by (apply round_half_even_ge; exact F1).
  assert (H2 : (round_half_even (fl x) <= 0)%Z)
    by (apply round_half_even_le; exact F2).
  destruct (round_half_even_near (fl x)) as [N1 N2].
  set (z := round_half_even (fl x)) in *.
  assert (G1 : -100 <= inject_Z z / 100).
  { apply Qle_shift_div_l; [reflexivity|].
    change (-100 * 100) with (inject_Z (-10000)).
    rewrite <- Zle_Qle. exact H1. }
  assert (G2 : inject_Z z / 100 <= 0).
  { apply Qle_shift_div_r; [reflexivity|].
    change (0 * 100) with (inject_Z 0).
    rewrite <- Zle_Qle. exact H2. }
  destruct (fl_near_nonpos (inject_Z z / 100) 100 G1 G2) as [R1 R2].
  assert (He : pow2 (-53) <= 0.0000000000000002)
    by (vm_compute; discriminate).
  pose proof (pow2_pos (-53)) as Hp.
  assert (Ez : inject_Z z / 100 == inject_Z z * (1 # 100))
    by (unfold Qdiv; reflexivity).
  exists z. eexists. split; [reflexivity|]. split; [reflexivity|].
  split; [lia|].
  unfold x in *. split; lra.
Qed.

Lemma stored_drawdown_near_computed_witness :
  exists q r,
    drawdown [(11800, 11800);
              (11800, 2757187584613417 # 274877906944)] = Fin q
    /\ (-100 <= q)%Q /\ (q <= 0)%Q
    /\ py_round (Fin q) 2 = Fin r
    /\ r = (-15)%Q
    /\ (0.005 < q - r)%Q
    /\ (q - 0.005 - 0.0000000000001 <= r)%Q.
Proof.
  eexists.
  destruct (stored_drawdown_near_computed
              (-8441434551552573 # 562949953421312)
              ltac:(vm_compute; discriminate) ltac:(vm_compute; discriminate))
    as (z & r & E & _ & _ & B1 & _).
  exists r. split; [vm_compute; reflexivity|].
  split; [vm_compute; discriminate|]. split; [vm_compute; discriminate|].
  split; [exact E|].
  assert (Er : r = (-15)%Q) by (vm_compute in E; congruence).
  split; [exact Er|]. split; [rewrite Er; reflexivity | exact B1].
Defined.

(** X5. Only the last 252 sessions count: sessions older than that change
    neither the 52-week high nor the current price nor the drawdown,
    however high they were. *)
Theorem drawdown_uses_last_252_sessions (old recent : list (Q * Q)) :
  List.length recent = LOOKBACK_DAYS ->
  high_52w (old ++ recent) = high_52w recent
  /\ current_price (old ++ recent) = current_price recent
  /\ drawdown (old ++ recent) = drawdown recent.
Proof.
  intros Hlen.
  assert (Hhigh : high_52w (old ++ recent) = high_52w recent).
  { unfold high_52w.
    replace (LOOKBACK_DAYS <=? List.length (old ++ recent))%nat with true
      by (symmetry; apply Nat.leb_le; rewrite length_app; lia).
    replace (LOOKBACK_DAYS <=? List.length recent)%nat with true
      by (symmetry; apply Nat.leb_le; lia).
    rewrite (iloc_last_app _ old recent Hlen).
    pose proof (iloc_last_app _ [] recent Hlen) as E0. cbn [app] in E0.
    rewrite E0. reflexivity. }
  assert (Hcur : current_price (old ++ recent) = current_price recent).
  { unfold current_price. rewrite last_app_nonempty; [reflexivity|].
    intros ->. discriminate Hlen. }
  unfold drawdown. rewrite Hhigh, Hcur. auto.
Qed.

(* ================================================================== *)
(** * Further properties of the crash evaluator *)

(** X6. The verdict is monotone: when the evaluator triggers on some
    figures, it also triggers on every deeper drawdown with a volatility
    that is at least as high. *)
Theorem check_crash_condition_monotone (rt : runtime)
    (data data' : market_data) (nasdaq vix nasdaq' vix' : snapshot)
    (d v d' v' : num) (t : option string) (s s' : store) :
  Dict.get "nasdaq" data = Some nasdaq ->
  Dict.get "drawdown" nasdaq = Some (MNum d) ->
  Dict.get "vix" data = Some vix ->
  Dict.get "value" vix = Some (MNum v) ->
  Dict.get "nasdaq" data' = Some nasdaq' ->
  Dict.get "drawdown" nasdaq' = Some (MNum d') ->
  Dict.get "vix" data' = Some vix' ->
  Dict.get "value" vix' = Some (MNum v') ->
  num_le d' d -> num_le v v' ->
  check_crash_condition rt data s = (Ret (true, t), s) ->
  exists t', check_crash_condition rt data' s' = (Ret (true, t'), s').
Proof.
  intros Hn Hd Hv Hx Hn' Hd' Hv' Hx' Hdd Hvv.
  rewrite (check_crash_condition_present rt data nasdaq vix d v s Hn Hd Hv Hx).
  rewrite (check_crash_condition_present rt data' nasdaq' vix' d' v' s'
             Hn' Hd' Hv' Hx').
  intros H.
  destruct (num_leb d' CRASH_THRESHOLD_MAJOR) eqn:Emajor'; [eauto|].
  assert (Emajor : num_leb d CRASH_THRESHOLD_MAJOR = false).
  { apply num_leb_nle. intros Hle. apply num_leb_nle in Emajor'.
    apply Emajor'. exact (num_le_trans _ _ _ Hdd Hle). }
  rewrite Emajor in H.
  destruct (num_leb d CRASH_THRESHOLD_MINOR) eqn:Eminor;
    [|cbn [andb] in H; discriminate H].
  destruct (num_leb VIX_THRESHOLD v) eqn:Efear;
    [|cbn [andb] in H; discriminate H].
  apply num_leb_le in Eminor, Efear.
  assert (Eminor' : num_leb d' CRASH_THRESHOLD_MINOR = true)
    by (apply num_leb_le; exact (num_le_trans _ _ _ Hdd Eminor)).
  assert (Efear' : num_leb VIX_THRESHOLD v' = true)
    by (apply num_leb_le; exact (num_le_trans _ _ _ Efear Hvv)).
  rewrite Eminor', Efear'. cbn [andb]. eauto.
Qed.

(** X7. On market data whose entries have their figures the evaluator
    returns one of three verdicts: not triggered without a description,
    or triggered with the description of the major condition, or triggered
    with the description of the minor condition.  A description is there
    exactly when the verdict is positive. *)
Theorem check_crash_condition_verdicts (rt : runtime) (data : market_data)
    (s : store) :
  well_formed data ->
  exists v s',
    check_crash_condition rt data s = (Ret v, s')
    /\ (v = (false, None)
        \/ v = (true, Some (trigger_major rt))
        \/ v = (true, Some (trigger_minor rt))).
Proof.
  intros [Hnasdaq Hvix].
  destruct (Dict.get "nasdaq" data) as [nasdaq|] eqn:En.
  - destruct (Dict.get "vix" data) as [vix|] eqn:Ev.
    + destruct (Hnasdaq nasdaq eq_refl) as [d Hd].
      destruct (Hvix vix eq_refl) as [v Hv].
      rewrite (check_crash_condition_present rt data nasdaq vix d v s
                 En Hd Ev Hv).
      do 2 eexists. split; [reflexivity|].
      destruct (num_leb d CRASH_THRESHOLD_MAJOR); [auto|].
      destruct (num_leb d CRASH_THRESHOLD_MINOR && num_leb VIX_THRESHOLD v);
        auto.
    + unfold check_crash_condition, Dict.mem. rewrite En, Ev.
      cbn [negb orb]. do 2 eexists. split; [reflexivity | auto].
  - unfold check_crash_condition, Dict.mem. rewrite En.
    cbn [negb orb]. do 2 eexists. split; [reflexivity | auto].
Qed.

(** X8. Entries without their figures are not treated as missing data: when
    both entries are there but the nasdaq entry has no drawdown, the
    evaluator raises [KeyError] for that key, and when the drawdown is a
    string it raises [TypeError] at the first comparison.  In both cases
    nothing has been printed. *)
Theorem check_crash_condition_malformed_entry (rt : runtime)
    (data : market_data) (nasdaq vix : snapshot) (s : store) :
  Dict.get "nasdaq" data = Some nasdaq ->
  Dict.get "vix" data = Some vix ->
  (Dict.get "drawdown" nasdaq = None ->
   check_crash_condition rt data s = (Raise (KeyError "drawdown"), s))
  /\ (forall text value,
        Dict.get "drawdown" nasdaq = Some (MStr text) ->
        Dict.get "value" vix = Some value ->
        check_crash_condition rt data s = (Raise TypeError, s)).
Proof.
  intros Hn Hv.
  unfold check_crash_condition, Dict.mem, subscript. rewrite Hn, Hv.
  cbn [negb orb]. split.
  - intros Hd. rewrite bind_ret. rewrite Hd. reflexivity.
  - intros text value Hd Hx. rewrite bind_ret. rewrite Hd.
    rewrite bind_ret, bind_ret. rewrite Hx. reflexivity.
Qed.

Lemma check_crash_condition_reads (rt : runtime) (data data' : market_data)
    (s : store) :
  Dict.get "nasdaq" data = Dict.get "nasdaq" data' ->
  Dict.get "vix" data = Dict.get "vix" data' ->
  check_crash_condition rt data s = check_crash_condition rt data' s.
Proof.
  intros Hn Hv. unfold check_crash_condition, Dict.mem, subscript.
  rewrite Hn, Hv. reflexivity.
Qed.

(** X9. The S&P 500 plays no part in the decision: two worlds whose data
    service gives the same histories for ^NDX and ^VIX get the same
    verdict, whatever it gives for ^GSPC. *)
Theorem verdict_ignores_sp500 (rt : runtime) (w w' : world) :
  yfinance w "^NDX" = yfinance w' "^NDX" ->
  yfinance w "^VIX" = yfinance w' "^VIX" ->
  verdict rt w = verdict rt w'.
Proof.
  intros Hn Hv. unfold verdict.
  rewrite (check_crash_condition_reads rt (fetched w) (fetched w') fresh);
    [reflexivity | |].
  - rewrite !fetched_nasdaq, Hn. reflexivity.
  - rewrite !fetched_vix, Hv. reflexivity.
Qed.

(** ** Sample inputs for the properties above *)

Lemma drawdown_between_minus_100_and_0_witness :
  exists q r,
    drawdown ([(20000, 19000)] ++ [(18000, 15000)]) = Fin q
    /\ (-100 <= q)%Q /\ (q <= 0)%Q
    /\ py_round (drawdown ([(20000, 19000)] ++ [(18000, 15000)])) 2 = Fin r
    /\ (-100 <= r)%Q /\ (r <= 0)%Q.
Proof.
  apply (drawdown_between_minus_100_and_0 [(20000, 19000)] 18000 15000);
    vm_compute; congruence.
Defined.

Lemma drawdown_uses_last_252_sessions_witness :
  high_52w ([(500, 500)] ++ repeat (100, 90) 252)
    = high_52w (repeat (100, 90) 252)
  /\ current_price ([(500, 500)] ++ repeat (100, 90) 252)
     = current_price (repeat (100, 90) 252)
  /\ drawdown ([(500, 500)] ++ repeat (100, 90) 252)
     = drawdown (repeat (100, 90) 252).
Proof.
  apply (drawdown_uses_last_252_sessions [(500, 500)]
           (repeat (100, 90) 252)).
  apply repeat_length.
Defined.

Lemma check_crash_condition_monotone_witness :
  exists t',
    check_crash_condition py (sample_data (-17) 35) fresh
    = (Ret (true, t'), fresh).
Proof.
  apply (check_crash_condition_monotone py
           (sample_data (-16) 31) (sample_data (-17) 35)
           (instrument "^NDX" 0 0 (-16)) (volatility 31)
           (instrument "^NDX" 0 0 (-17)) (volatility 35)
           (Fin (-16)) (Fin 31) (Fin (-17)) (Fin 35)
           (Some (trigger_minor py)) fresh fresh);
    try reflexivity; vm_compute; congruence.
Defined.

Lemma check_crash_condition_verdicts_witness :
  exists v s',
    check_crash_condition py (sample_data (-17) 35) fresh = (Ret v, s')
    /\ (v = (false, None)
        \/ v = (true, Some (trigger_major py))
        \/ v = (true, Some (trigger_minor py))).
Proof.
  apply (check_crash_condition_verdicts py (sample_data (-17) 35) fresh).
  split; intros entry H; injection H as <-; eexists; reflexivity.
Defined.

Lemma check_crash_condition_malformed_entry_witness :
  check_crash_condition py data_without_drawdown fresh
  = (Raise (KeyError "drawdown"), fresh)
  /\ check_crash_condition py data_with_text_drawdown fresh
     = (Raise TypeError, fresh).
Proof.
  split.
  - apply (proj1 (check_crash_condition_malformed_entry py
                    data_without_drawdown _ _ fresh eq_refl eq_refl)).
    reflexivity.
  - apply (proj2 (check_crash_condition_malformed_entry py
                    data_with_text_drawdown _ _ fresh eq_refl eq_refl)
             "-25.0" (MNum (Fin 35))); reflexivity.
Defined.

Lemma verdict_ignores_sp500_witness :
  verdict py (sample_world 100 75 35)
  = verdict py (with_service (sample_world 100 75 35)
                  (failing_for (sample_world 100 75 35) "^GSPC")).
Proof.
  apply (verdict_ignores_sp500 py (sample_world 100 75 35)
           (with_service (sample_world 100 75 35)
              (failing_for (sample_world 100 75 35) "^GSPC")));
    reflexivity.
Defined.

(* ================================================================== *)
(** * Further properties of the run *)

Lemma load_state_value (rt : runtime) (s : store) :
  fst (load_state rt s)
  = Ret (match file s with
         | None => default_state
         | Some text =>
             match json_loads rt text with
             | Some v => v
             | None => default_state
             end
         end).
Proof.
  destruct s as [f t].
  unfold load_state, bind, read_file, eprint, emit, ret. cbn [file trace].
  destruct f as [text|]; [|reflexivity].
  destruct (json_loads rt text); reflexivity.
Qed.

Lemma fetched_nil_iff (w : world) :
  fetched w = []
  <-> answers w "^NDX" = false /\ answers w "^GSPC" = false
      /\ answers w "^VIX" = false.
Proof.
  pose proof (fetched_keys w) as Hkeys.
  unfold SYMBOLS in Hkeys. cbn [filter snd] in Hkeys.
  split.
  - intros E. rewrite E in Hkeys.
    destruct (answers w "^NDX"), (answers w "^GSPC"), (answers w "^VIX");
      try discriminate Hkeys; auto.
  - intros (E1 & E2 & E3). rewrite E1, E2, E3 in Hkeys.
    destruct (fetched w); [reflexivity | discriminate Hkeys].
Qed.

Lemma main_outcome_eq (rt : runtime) (w : world) (s : store) :
  fst (main rt w s)
  = if webhook_url w =? "" then SysExit 1
    else match fetched w with
         | [] => SysExit 1
         | _ :: _ =>
             match fst (load_state rt s) with
             | Ret (JObj _) => Ret tt
             | _ => Raise AttributeError
             end
         end.
Proof.
  destruct (webhook_url w =? "") eqn:Eurl.
  { apply String.eqb_eq in Eurl.
    destruct (main_not_ready rt w s (or_introl Eurl)) as (tr & _ & _ & E).
    rewrite E. reflexivity. }
  apply String.eqb_neq in Eurl.
  destruct (fetched w) as [| entry rest] eqn:Ef.
  { destruct (main_not_ready rt w s (or_intror Ef)) as (tr & _ & _ & E).
    rewrite E. reflexivity. }
  assert (Hready : ready w).
  { split; [exact Eurl|]. rewrite Ef. discriminate. }
  destruct (load_state_returns rt s) as [v Hload]. rewrite Hload.
  destruct v as [| b | z | x | t | items | d | t].
  7: { destruct (main_ready rt w s d Hready Hload) as (tr & _ & _ & E).
       rewrite E. reflexivity. }
  all: destruct (main_not_object rt w s _ Hready Hload) as (tr & _ & _ & E);
    [discriminate | rewrite E; reflexivity].
Qed.

(** What a run leaves behind, by its outcome. *)
Lemma main_effects (rt : runtime) (w : world) (s : store) :
  exists tr,
    trace (snd (main rt w s)) = (trace s ++ tr)%list
    /\ ((fst (main rt w s) <> Ret tt
         /\ file (snd (main rt w s)) = file s
         /\ posts tr = [] /\ writes tr = [])
        \/ (fst (main rt w s) = Ret tt
            /\ ready w
            /\ exists d,
                 fst (load_state rt s) = Ret (JObj d)
                 /\ file (snd (main rt w s))
                    = save_file rt w (saved_state rt w d) (file s)
                 /\ posts tr
                    = (if fst (verdict rt w) then
                         [HttpPost (webhook_url w)
                            (payload
                               (if truthy (Dict.get_default "is_crash"
                                             (JBool false) d)
                                then format_continuation_alert rt (fetched w)
                                else format_initial_alert rt (fetched w)
                                       (snd (verdict rt w))))]
                       else [])
                 /\ writes tr
                    = (if writable w
                       then [FileWrite
                               (fst (json_dump rt (saved_state rt w d)))]
                       else []))).
Proof.
  destruct (main_cases rt w s)
    as [(tr & P & W & E) | (Hready & d & Hload)].
  - exists tr. destruct E as [E | E]; rewrite E; cbn [fst snd file trace];
      (split; [reflexivity|]); left; repeat split; auto; discriminate.
  - destruct (main_ready rt w s d Hready Hload) as (tr & P & W & E).
    exists (tr ++ machine_events rt w d)%list. rewrite E.
    cbn [fst snd file trace]. split; [reflexivity|]. right.
    split; [reflexivity|]. split; [exact Hready|].
    exists d. split; [exact Hload|]. split; [reflexivity|].
    rewrite posts_app, writes_app, P, W.
    rewrite machine_events_posts, machine_events_writes.
    split; reflexivity.
Qed.

Lemma verdict_shapes (rt : runtime) (w : world) :
  verdict rt w = (false, None)
  \/ verdict rt w = (true, Some (trigger_major rt))
  \/ verdict rt w = (true, Some (trigger_minor rt)).
Proof.
  destruct (fetched_well_formed w) as [Hnasdaq Hvix].
  unfold verdict.
  destruct (Dict.get "nasdaq" (fetched w)) as [nasdaq|] eqn:En.
  - destruct (Dict.get "vix" (fetched w)) as [vix|] eqn:Ev.
    + destruct (Hnasdaq nasdaq eq_refl) as [d Hd].
      destruct (Hvix vix eq_refl) as [v Hv].
      rewrite (check_crash_condition_present rt _ nasdaq vix d v fresh
                 En Hd Ev Hv). cbn [fst].
      destruct (num_leb d CRASH_THRESHOLD_MAJOR); [auto|].
      destruct (num_leb d CRASH_THRESHOLD_MINOR && num_leb VIX_THRESHOLD v);
        auto.
    + unfold check_crash_condition, Dict.mem. rewrite En, Ev.
      cbn [negb orb]. auto.
  - unfold check_crash_condition, Dict.mem. rewrite En.
    cbn [negb orb]. auto.
Qed.

(** Without the entry of the nasdaq or of the volatility index the verdict
    is negative. *)
Lemma verdict_missing (rt : runtime) (w : world) :
  answers w "^NDX" = false \/ answers w "^VIX" = false ->
  verdict rt w = (false, None).
Proof.
  intros H. unfold verdict, check_crash_condition, Dict.mem.
  rewrite fetched_nasdaq, fetched_vix. unfold answers in H.
  destruct H as [H | H].
  - destruct (yfinance w "^NDX") as [| [| r rows]]; try discriminate H;
      reflexivity.
  - destruct (yfinance w "^VIX") as [| [| r rows]]; try discriminate H;
      destruct (entry "nasdaq" "^NDX" (yfinance w "^NDX")); reflexivity.
Qed.

Ltac outcome_cases :=
  repeat split; intros;
  repeat match goal with
    | H : _ /\ _ |- _ => destruct H
    | H : _ \/ _ |- _ => destruct H
    | H : exists _, _ |- _ => destruct H
    | H : Some _ = Some _ |- _ => injection H as ?; subst
    | H1 : ?a = Some _, H2 : ?a = Some _ |- _ => rewrite H1 in H2
    end;
  try discriminate; try contradiction; try congruence;
  try match goal with
    | H : forall d, JObj _ <> JObj d |- _ =>
        exfalso; eapply H; reflexivity
    end;
  try (left; reflexivity);
  try (right; left; reflexivity);
  try (right; right; reflexivity);
  try (do 2 eexists; split; [reflexivity|]; split;
       [eassumption | discriminate]);
  eauto 8.

(** X10. How a run ends is decided by three things only.  It exits with
    code 1 exactly when the webhook variable is unset or empty or no symbol
    has data; it ends in an uncaught [AttributeError] exactly when it is
    configured, has data, and the state file holds a JSON value that is not
    an object; in every other case it returns normally.  No other
    exception and no other exit code is possible. *)
Theorem main_ends_in_one_of_three_ways (rt : runtime) (w : world) (s : store) :
  (fst (main rt w s) = SysExit 1
   <-> webhook_url w = ""
       \/ (answers w "^NDX" = false /\ answers w "^GSPC" = false
           /\ answers w "^VIX" = false))
  /\ (fst (main rt w s) = Raise AttributeError
      <-> ready w
          /\ exists text v,
               file s = Some text /\ json_loads rt text = Some v
               /\ forall d, v <> JObj d)
  /\ (fst (main rt w s) = Ret tt
      <-> ready w
          /\ (file s = None
              \/ exists text,
                   file s = Some text
                   /\ (json_loads rt text = None
                       \/ exists d, json_loads rt text = Some (JObj d))))
  /\ (fst (main rt w s) = SysExit 1
      \/ fst (main rt w s) = Raise AttributeError
      \/ fst (main rt w s) = Ret tt).
Proof.
  rewrite main_outcome_eq, load_state_value. unfold ready.
  rewrite <- fetched_nil_iff.
  destruct (webhook_url w =? "") eqn:Eurl;
    [apply String.eqb_eq in Eurl | apply String.eqb_neq in Eurl].
  { outcome_cases. }
  destruct (fetched w) as [| entry rest] eqn:Ef.
  { outcome_cases. }
  assert (Hdata : entry :: rest <> []) by discriminate.
  destruct (file s) as [text|];
    [destruct (json_loads rt text) as [v|] eqn:Ejson|].
  - destruct v; outcome_cases.
  - outcome_cases.
  - outcome_cases.
Qed.

(** X11. A run that does not return normally has changed nothing: it has
    posted nothing to the webhook and the state file is as it was. *)
Theorem main_stops_without_effect (rt : runtime) (w : world) (s : store) :
  fst (main rt w s) <> Ret tt ->
  exists tr,
    snd (main rt w s) = mkStore (file s) (trace s ++ tr)
    /\ posts tr = [] /\ writes tr = [].
Proof.
  intros Hout.
  destruct (main_cases rt w s)
    as [(tr & P & W & E) | (Hready & d & Hload)].
  - exists tr. destruct E as [E | E]; rewrite E; auto.
  - destruct (main_ready rt w s d Hready Hload) as (tr & _ & _ & E).
    rewrite E in Hout. contradiction Hout. reflexivity.
Qed.

Lemma format_initial_alert_text (rt : runtime) (data : market_data)
    (trigger : string) :
  format_initial_alert rt data (Some trigger)
  = "【米国株式市場・暴落監視レポート】" ++ nl ++
    nl ++
    "■ 市場状態" ++ nl ++
    "💥 投入検討" ++ nl ++
    nl ++
    "■ 初回検知トリガー" ++ nl ++
    trigger ++ nl ++
    initial_alert_figures rt data.
Proof. reflexivity. Qed.

(** X12. First detection: when the evaluator triggers and the loaded state
    does not say crash, the run posts one message to the webhook.  Its text
    starts with the heading of the initial alert, and the line under
    "初回検知トリガー" is the description of the condition that triggered,
    never the text None.  The run then saves the record is_crash = true
    with first_detected and last_checked both at the current time, whatever
    else the old record held. *)
Theorem main_first_detection (rt : runtime) (w : world) (s : store)
    (d : Dict.t json) :
  ready w ->
  writable w = true ->
  fst (verdict rt w) = true ->
  fst (load_state rt s) = Ret (JObj d) ->
  truthy (Dict.get_default "is_crash" (JBool false) d) = false ->
  exists tr trigger rest,
    main rt w s
    = (Ret tt,
       mkStore
         (Some (json_dumps rt
                  (JObj [("is_crash", JBool true);
                         ("first_detected", JStr (now w));
                         ("last_checked", JStr (now w))])))
         (trace s ++ tr))
    /\ (trigger
        = "NASDAQ100 が 52週高値比 " ++ str_float rt (Fin (-20.0))
            ++ "% を超える下落に突入しました。"
        \/ trigger
           = "NASDAQ100 が " ++ str_float rt (Fin (-15.0))
               ++ "% 下落、かつ VIX指数が " ++ str_float rt (Fin 30.0)
               ++ " を超えました。")
    /\ posts tr
       = [HttpPost (webhook_url w)
            (JObj [("text",
                    JStr ("【米国株式市場・暴落監視レポート】" ++ nl ++
                          nl ++
                          "■ 市場状態" ++ nl ++
                          "💥 投入検討" ++ nl ++
                          nl ++
                          "■ 初回検知トリガー" ++ nl ++
                          trigger ++ nl ++
                          rest));
                   ("unfurl_links", JBool false);
                   ("unfurl_media", JBool false)])]
    /\ writes tr
       = [FileWrite
            (json_dumps rt
               (JObj [("is_crash", JBool true);
                      ("first_detected", JStr (now w));
                      ("last_checked", JStr (now w))]))].
Proof.
  intros Hready Hwritable Hverdict Hload Hflag.
  destruct (main_ready rt w s d Hready Hload) as (tr & P & W & E).
  exists (tr ++ machine_events rt w d)%list.
  assert (Htrigger : exists trigger,
            snd (verdict rt w) = Some trigger
            /\ (trigger = trigger_major rt \/ trigger = trigger_minor rt)).
  { destruct (verdict_shapes rt w) as [Ev | [Ev | Ev]]; rewrite Ev in *;
      cbn [fst snd] in *; [discriminate Hverdict | eauto | eauto]. }
  destruct Htrigger as (trigger & Etrigger & Hshape).
  exists trigger, (initial_alert_figures rt (fetched w)). rewrite E.
  rewrite posts_app, writes_app, P, W,
    machine_events_posts, machine_events_writes.
  unfold save_file.
  rewrite (saved_state_flat rt w d (or_intror (or_introl Hflag))).
  cbn [fst].
  unfold saved_state. rewrite Hwritable, Hverdict, Hflag, Etrigger.
  rewrite format_initial_alert_text.
  split; [reflexivity|]. split; [exact Hshape|].
  split; reflexivity.
Qed.

(** X13. The answer of the webhook changes nothing but the line printed
    about it: whether the post succeeds, is refused or raises, the run ends
    the same way, sends the same post and saves the same state.  So a first
    alert that was not delivered is not sent again by the next run. *)
Theorem main_ignores_webhook_answer (rt : runtime) (w : world)
    (r : post_result) (s : store) :
  fst (main rt (with_webhook w r) s) = fst (main rt w s)
  /\ file (snd (main rt (with_webhook w r) s)) = file (snd (main rt w s))
  /\ posts (trace (snd (main rt (with_webhook w r) s)))
     = posts (trace (snd (main rt w s)))
  /\ writes (trace (snd (main rt (with_webhook w r) s)))
     = writes (trace (snd (main rt w s))).
Proof.
  assert (Hout : fst (main rt (with_webhook w r) s) = fst (main rt w s)).
  { rewrite !main_outcome_eq. reflexivity. }
  split; [exact Hout|].
  destruct (main_effects rt w s) as (tr & Et & H).
  destruct (main_effects rt (with_webhook w r) s) as (tr' & Et' & H').
  rewrite Et, Et', !posts_app, !writes_app.
  destruct H as [(Hne & Ef & P & W) | (He & _ & d & Hload & Ef & P & W)];
    destruct H'
      as [(Hne' & Ef' & P' & W') | (He' & _ & d' & Hload' & Ef' & P' & W')];
    try (rewrite Hout in *; contradiction).
  - rewrite Ef, Ef', P, P', W, W'. auto.
  - rewrite Hload in Hload'. injection Hload' as <-.
    rewrite Ef, Ef', P, P', W, W'. auto.
Qed.

(** X14. When the state file cannot be written the run still ends the same
    way and sends the same post as when it can; the file keeps its old
    content, so the next run starts from the old state. *)
Theorem main_unwritable_state (rt : runtime) (w : world) (s : store) :
  writable w = false ->
  file (snd (main rt w s)) = file s
  /\ writes (trace (snd (main rt w s))) = writes (trace s)
  /\ fst (main rt w s) = fst (main rt (with_writable w true) s)
  /\ posts (trace (snd (main rt w s)))
     = posts (trace (snd (main rt (with_writable w true) s))).
Proof.
  intros Hw.
  assert (Hout : fst (main rt w s) = fst (main rt (with_writable w true) s)).
  { rewrite !main_outcome_eq. reflexivity. }
  destruct (main_effects rt w s) as (tr & Et & H).
  destruct (main_effects rt (with_writable w true) s) as (tr' & Et' & H').
  rewrite Et, Et', !posts_app, !writes_app.
  destruct H as [(Hne & Ef & P & W) | (He & _ & d & Hload & Ef & P & W)];
    destruct H'
      as [(Hne' & Ef' & P' & W') | (He' & _ & d' & Hload' & Ef' & P' & W')];
    try (rewrite Hout in *; contradiction).
  - rewrite Ef, P, P', W, app_nil_r. auto.
  - rewrite Hload in Hload'. injection Hload' as <-.
    unfold save_file in Ef. rewrite Hw in *.
    rewrite Ef, P, P', W, app_nil_r. auto.
Qed.

(** X15. Missing data counts as recovery: when the history of the nasdaq
    or of the volatility index is not available while another symbol has
    data, the run posts nothing and saves the no-crash record, also when
    the loaded state says crash. *)
Theorem main_missing_index_resets (rt : runtime) (w : world) (s : store)
    (d : Dict.t json) :
  ready w ->
  writable w = true ->
  answers w "^NDX" = false \/ answers w "^VIX" = false ->
  fst (load_state rt s) = Ret (JObj d) ->
  exists tr,
    main rt w s
    = (Ret tt,
       mkStore
         (Some (json_dumps rt (state_record false None (Some (now w)))))
         (trace s ++ tr))
    /\ posts tr = [].
Proof.
  intros Hready Hwritable Hmissing Hload.
  destruct (main_ready rt w s d Hready Hload) as (tr & P & W & E).
  exists (tr ++ machine_events rt w d)%list. rewrite E.
  rewrite posts_app, P, machine_events_posts.
  pose proof (verdict_missing rt w Hmissing) as Ev.
  unfold save_file.
  rewrite (saved_state_flat rt w d)
    by (left; rewrite Ev; reflexivity).
  unfold saved_state. rewrite Hwritable, Ev. cbn [fst].
  split; reflexivity.
Qed.



(** X17. A run posts at most once, only when the verdict is positive, only
    to the webhook URL of the environment, which is then not empty, and
    before it writes the state file: nothing is posted after a write. *)
Theorem main_posts_once_before_saving (rt : runtime) (w : world)
    (s : store) :
  exists before after,
    trace (snd (main rt w s)) = (trace s ++ before ++ after)%list
    /\ writes before = [] /\ posts after = []
    /\ (posts before = []
        \/ exists message,
             posts before = [HttpPost (webhook_url w) (payload message)]
             /\ webhook_url w <> ""
             /\ fst (verdict rt w) = true).
Proof.
  destruct (main_cases rt w s)
    as [(tr & P & W & E) | (Hready & d & Hload)].
  - exists tr, []. rewrite app_nil_r.
    destruct E as [E | E]; rewrite E; cbn [snd trace]; auto.
  - destruct (main_ready rt w s d Hready Hload) as (tr & P & W & E).
    rewrite E. cbn [snd trace]. unfold machine_events.
    match goal with
    | |- context [(?head ++ save_events rt w ?st ++ ?tail)%list] =>
        exists (tr ++ head)%list, (save_events rt w st ++ tail)%list
    end.
    rewrite <- app_assoc.
    split; [reflexivity|].
    destruct (reply_line_quiet w) as [Rp Rw].
    destruct (save_events_quiet rt w (saved_state rt w d)) as [Ps _].
    rewrite writes_app, !posts_app, W, P, Ps. cbn [app].
    split.
    { destruct (fst (verdict rt w)).
      - unfold writes. cbn [filter is_write]. rewrite Rw. reflexivity.
      - destruct (truthy _); reflexivity. }
    split; [reflexivity|].
    destruct (fst (verdict rt w)).
    + right. eexists. unfold posts. cbn [filter is_post]. rewrite Rp.
      split; [reflexivity|]. split; [apply Hready | reflexivity].
    + left. destruct (truthy _); reflexivity.
Qed.

(** ** Sample runs for the properties above *)

Lemma main_stops_without_effect_witness :
  exists tr,
    snd (main py world_without_data fresh)
    = mkStore (file fresh) (trace fresh ++ tr)
    /\ posts tr = [] /\ writes tr = [].
Proof.
  apply (main_stops_without_effect py world_without_data fresh).
  vm_compute. congruence.
Defined.

Lemma main_first_detection_witness :
  exists tr trigger rest,
    main py (sample_world 100 75 35) fresh
    = (Ret tt,
       mkStore
         (Some (json_dumps py
                  (JObj [("is_crash", JBool true);
                         ("first_detected",
                          JStr (now (sample_world 100 75 35)));
                         ("last_checked",
                          JStr (now (sample_world 100 75 35)))])))
         (trace fresh ++ tr))
    /\ (trigger
        = "NASDAQ100 が 52週高値比 " ++ str_float py (Fin (-20.0))
            ++ "% を超える下落に突入しました。"
        \/ trigger
           = "NASDAQ100 が " ++ str_float py (Fin (-15.0))
               ++ "% 下落、かつ VIX指数が " ++ str_float py (Fin 30.0)
               ++ " を超えました。")
    /\ posts tr
       = [HttpPost (webhook_url (sample_world 100 75 35))
            (JObj [("text",
                    JStr ("【米国株式市場・暴落監視レポート】" ++ nl ++
                          nl ++
                          "■ 市場状態" ++ nl ++
                          "💥 投入検討" ++ nl ++
                          nl ++
                          "■ 初回検知トリガー" ++ nl ++
                          trigger ++ nl ++
                          rest));
                   ("unfurl_links", JBool false);
                   ("unfurl_media", JBool false)])]
    /\ writes tr
       = [FileWrite
            (json_dumps py
               (JObj [("is_crash", JBool true);
                      ("first_detected",
                       JStr (now (sample_world 100 75 35)));
                      ("last_checked",
                       JStr (now (sample_world 100 75 35)))]))].
Proof.
  apply (main_first_detection py (sample_world 100 75 35) fresh
           [("is_crash", JBool false); ("first_detected", JNull);
            ("last_checked", JNull)]).
  - split; vm_compute; congruence.
  - reflexivity.
  - vm_compute. reflexivity.
  - reflexivity.
  - reflexivity.
Defined.

Lemma main_unwritable_state_witness :
  file (snd (main py (with_writable (sample_world 100 75 35) false) fresh))
  = file fresh
  /\ writes
       (trace (snd (main py (with_writable (sample_world 100 75 35) false)
                      fresh)))
     = writes (trace fresh)
  /\ fst (main py (with_writable (sample_world 100 75 35) false) fresh)
     = fst (main py
              (with_writable
                 (with_writable (sample_world 100 75 35) false) true)
              fresh)
  /\ posts
       (trace (snd (main py (with_writable (sample_world 100 75 35) false)
                      fresh)))
     = posts
         (trace (snd (main py
                        (with_writable
                           (with_writable (sample_world 100 75 35) false)
                           true)
                        fresh))).
Proof.
  apply (main_unwritable_state py
           (with_writable (sample_world 100 75 35) false) fresh).
  reflexivity.
Defined.

Lemma main_missing_index_resets_witness :
  exists tr,
    main py world_without_vix (stored (crash_since "2024-08-01T09:30:00"))
    = (Ret tt,
       mkStore
         (Some (json_dumps py
                  (state_record false None (Some (now world_without_vix)))))
         (trace (stored (crash_since "2024-08-01T09:30:00")) ++ tr))
    /\ posts tr = [].
Proof.
  apply (main_missing_index_resets py world_without_vix
           (stored (crash_since "2024-08-01T09:30:00"))
           [("is_crash", JBool true);
            ("first_detected", JStr "2024-08-01T09:30:00");
            ("last_checked", JStr "2024-08-01T09:30:00")]).
  - split; vm_compute; congruence.
  - reflexivity.
  - right. reflexivity.
  - vm_compute. reflexivity.
Defined.

(* ================================================================== *)
(** * Consecutive runs *)

Lemma holds_load_state (s : store) (st : crash_state) :
  holds s st -> fst (load_state py s) = Ret (record_of st).
Proof.
  intros [[Hfile ->] | Hfile]; rewrite load_state_value, Hfile.
  - reflexivity.
  - cbn [json_loads py]. rewrite loads_dumps; [reflexivity|].
    destruct st as [[b fd] lc]. apply plain_state_record.
Qed.

(** One run in an operational world is one step of the machine. *)
Lemma main_step (w : world) (s : store) (st : crash_state) :
  operational w -> holds s st ->
  holds (snd (main py w s)) (step py w st)
  /\ posts (trace (snd (main py w s)))
     = (posts (trace s) ++ alerts py w st)%list.
Proof.
  intros [Hready Hwritable] Hholds.
  pose proof (holds_load_state s st Hholds) as Hload.
  destruct st as [[b fd] lc]. cbn [record_of] in Hload. unfold state_record in Hload.
  destruct (main_ready py w s _ Hready Hload) as (tr & P & _ & E).
  rewrite E. unfold save_file. rewrite Hwritable.
  rewrite saved_state_flat
    by (right; right; destruct fd, lc; reflexivity).
  cbn [fst snd file trace]. split.
  - right. cbn [file json_dumps py]. do 2 f_equal.
    unfold saved_state, step, record_of. cbn [Dict.get_default Dict.get
      String.eqb Ascii.eqb Bool.eqb truthy].
    destruct (fst (verdict py w)), b; reflexivity.
  - rewrite !posts_app, P, machine_events_posts. cbn [app].
    unfold alerts. cbn [Dict.get_default Dict.get String.eqb Ascii.eqb
      Bool.eqb truthy]. reflexivity.
Qed.

Lemma runs_app (rt : runtime) (ws1 ws2 : list world) (s : store) :
  runs rt (ws1 ++ ws2) s = runs rt ws2 (runs rt ws1 s).
Proof.
  revert s. induction ws1 as [| w ws1 IH]; intros s; [reflexivity|].
  cbn [app runs]. apply IH.
Qed.

Lemma steps_app (rt : runtime) (ws1 ws2 : list world) (st : crash_state) :
  steps rt (ws1 ++ ws2) st = steps rt ws2 (steps rt ws1 st).
Proof.
  revert st. induction ws1 as [| w ws1 IH]; intros st; [reflexivity|].
  cbn [app steps]. apply IH.
Qed.

Lemma runs_holds (ws : list world) (s : store) (st : crash_state) :
  Forall operational ws -> holds s st ->
  holds (runs py ws s) (steps py ws st).
Proof.
  intros Hws. revert s st.
  induction Hws as [| w ws Hw Hws IH]; intros s st Hholds; [exact Hholds|].
  cbn [runs steps]. apply IH. apply (main_step w s st Hw Hholds).
Qed.

Lemma last_cons_default {A} (x : A) (l : list A) (d d' : A) :
  l <> [] -> last (x :: l) d = last l d'.
Proof.
  revert x. induction l as [| y l IH]; intros x H; [contradiction|].
  destruct l as [| z l]; [reflexivity|].
  change (last (x :: y :: z :: l) d) with (last (y :: z :: l) d).
  rewrite (IH y) by discriminate. reflexivity.
Qed.

(** A crash episode that goes on: every further triggered run posts the
    continuation alert and moves last_checked only. *)
Lemma runs_continue (episode : list world) (s : store)
    (since checked : string) :
  Forall operational episode ->
  Forall (triggered py) episode ->
  holds s (true, Some since, Some checked) ->
  holds (runs py episode s)
    (true, Some since, Some (last (map now episode) checked))
  /\ posts (trace (runs py episode s))
     = (posts (trace s) ++ map (continuation_alert py) episode)%list.
Proof.
  intros Hws. revert s checked.
  induction Hws as [| w ws Hw Hws IH]; intros s checked Htrig Hholds.
  - cbn [runs map last]. rewrite app_nil_r. auto.
  - inversion Htrig as [| ? ? Hverdict Htrig']; subst.
    destruct (main_step w s _ Hw Hholds) as [Hstep Hposts].
    unfold step, alerts in Hstep, Hposts. unfold triggered in Hverdict.
    rewrite Hverdict in Hstep, Hposts.
    destruct (IH (snd (main py w s)) (now w) Htrig' Hstep) as [Hfinal Hall].
    cbn [runs map]. split.
    + destruct ws as [| w' ws']; [exact Hfinal|].
      cbn [map] in Hfinal |- *.
      rewrite (last_cons_default (now w) (now w' :: map now ws')
                 checked (now w)) by discriminate.
      exact Hfinal.
    + rewrite Hall, Hposts, <- app_assoc. reflexivity.
Qed.

(** X18. Consecutive runs implement the two-state machine.  Started on a
    state file that is absent or holds a state record, any number of runs
    in operational worlds leaves the file holding the record the machine
    reaches, and the posts of all the runs together are the alerts of the
    machine, in order. *)
Theorem runs_implement_machine (ws : list world) (s : store)
    (st : crash_state) :
  Forall operational ws -> holds s st ->
  holds (runs py ws s) (steps py ws st)
  /\ posts (trace (runs py ws s))
     = (posts (trace s) ++ all_alerts py ws st)%list.
Proof.
  intros Hws. revert s st.
  induction Hws as [| w ws Hw Hws IH]; intros s st Hholds.
  - cbn [runs steps all_alerts]. rewrite app_nil_r. auto.
  - destruct (main_step w s st Hw Hholds) as [Hstep Hposts].
    destruct (IH _ _ Hstep) as [Hfinal Hall].
    cbn [runs steps all_alerts]. split; [exact Hfinal|].
    rewrite Hall, Hposts, <- app_assoc. reflexivity.
Qed.

(** X19. A crash episode: after a run without trigger, a sequence of
    triggered runs posts the initial alert once, in its first run, and the
    continuation alert in every later one; the state file then says crash,
    with first_detected at the time of the first run of the episode and
    last_checked at the time of the last. *)
Theorem crash_episode (before episode : list world) (calm first : world)
    (s : store) (st : crash_state) :
  Forall operational (before ++ calm :: first :: episode) ->
  holds s st ->
  fst (verdict py calm) = false ->
  Forall (triggered py) (first :: episode) ->
  file (runs py (before ++ calm :: first :: episode) s)
  = Some (Py.dumps
            (state_record true (Some (now first))
               (Some (last (map now episode) (now first)))))
  /\ posts (trace (runs py (before ++ calm :: first :: episode) s))
     = (posts (trace (runs py (before ++ [calm]) s))
        ++ initial_alert py first
           :: map (continuation_alert py) episode)%list.
Proof.
  intros Hws Hholds Hcalm Htrig.
  replace (before ++ calm :: first :: episode)%list
    with ((before ++ [calm]) ++ first :: episode)%list in *
    by (rewrite <- app_assoc; reflexivity).
  apply Forall_app in Hws. destruct Hws as [Hbefore Hepisode].
  inversion Hepisode as [| ? ? Hfirst Hrest]; subst.
  inversion Htrig as [| ? ? Hverdict Htrig']; subst.
  pose proof (runs_holds _ s st Hbefore Hholds) as Hcalmed.
  rewrite steps_app in Hcalmed. cbn [steps] in Hcalmed.
  set (s1 := runs py (before ++ [calm]) s) in *.
  assert (Estep : step py calm (steps py before st)
                  = (false, None, Some (now calm))).
  { unfold step. destruct (steps py before st) as [[b fd] lc].
    rewrite Hcalm. reflexivity. }
  rewrite Estep in Hcalmed.
  destruct (main_step first s1 _ Hfirst Hcalmed) as [Hstep Hposts].
  unfold step, alerts in Hstep, Hposts. unfold triggered in Hverdict.
  rewrite Hverdict in Hstep, Hposts.
  destruct (runs_continue episode _ (now first) (now first)
              Hrest Htrig' Hstep) as [Hfinal Hall].
  rewrite runs_app. fold s1. cbn [runs]. split.
  - destruct Hfinal as [[_ Hno] | Hfile]; [discriminate Hno | exact Hfile].
  - rewrite Hall, Hposts, <- app_assoc. reflexivity.
Qed.

Lemma runs_implement_machine_witness :
  holds
    (runs py [sample_world 100 75 35;
              at_time (sample_world 100 70 35) "2024-08-06T09:30:00"] fresh)
    (steps py [sample_world 100 75 35;
               at_time (sample_world 100 70 35) "2024-08-06T09:30:00"]
       no_crash)
  /\ posts
       (trace
          (runs py [sample_world 100 75 35;
                    at_time (sample_world 100 70 35) "2024-08-06T09:30:00"]
             fresh))
     = (posts (trace fresh)
        ++ all_alerts py
             [sample_world 100 75 35;
              at_time (sample_world 100 70 35) "2024-08-06T09:30:00"]
             no_crash)%list.
Proof.
  apply (runs_implement_machine
           [sample_world 100 75 35;
            at_time (sample_world 100 70 35) "2024-08-06T09:30:00"]
           fresh no_crash).
  - repeat constructor; vm_compute; congruence.
  - left. split; reflexivity.
Defined.

Lemma crash_episode_witness :
  file (runs py ([] ++ sample_world 100 95 15
                    :: at_time (sample_world 100 75 35) "2024-08-06T09:30:00"
                    :: [at_time (sample_world 100 70 35)
                          "2024-08-07T09:30:00"]) fresh)
  = Some (Py.dumps
            (state_record true
               (Some (now (at_time (sample_world 100 75 35)
                             "2024-08-06T09:30:00")))
               (Some (last
                        (map now [at_time (sample_world 100 70 35)
                                    "2024-08-07T09:30:00"])
                        (now (at_time (sample_world 100 75 35)
                                "2024-08-06T09:30:00"))))))
  /\ posts
       (trace
          (runs py ([] ++ sample_world 100 95 15
                      :: at_time (sample_world 100 75 35)
                           "2024-08-06T09:30:00"
                      :: [at_time (sample_world 100 70 35)
                            "2024-08-07T09:30:00"]) fresh))
     = (posts (trace (runs py ([] ++ [sample_world 100 95 15]) fresh))
        ++ initial_alert py
             (at_time (sample_world 100 75 35) "2024-08-06T09:30:00")
           :: map (continuation_alert py)
                [at_time (sample_world 100 70 35)
                   "2024-08-07T09:30:00"])%list.
Proof.
  apply (crash_episode []
           [at_time (sample_world 100 70 35) "2024-08-07T09:30:00"]
           (sample_world 100 95 15)
           (at_time (sample_world 100 75 35) "2024-08-06T09:30:00")
           fresh no_crash).
  - repeat constructor; vm_compute; congruence.
  - left. split; reflexivity.
  - vm_compute. reflexivity.
  - repeat constructor; vm_compute; reflexivity.
Defined.
